(** * test-crm-backend: a shallow embedding of the service layer

    The NestJS services of the CRM backend (authentication, user and
    customer CRUD, migrations, admin seeding, health, bootstrap) are
    written here as functions in a small state-and-exception monad over
    a model of the MySQL database behind [DatabaseService]. *)

From Stdlib Require Import String Ascii List Bool ZArith QArith Qround Lia.
From Stdlib Require Import DecimalString Sorted Permutation.
Import ListNotations.

Local Open Scope string_scope.
Local Open Scope list_scope.
Local Open Scope Z_scope.

(** ** JavaScript built-ins used by the services *)

Module Js.

(** [String.prototype.endsWith]. *)
Definition endsWith (s suffix : string) : bool :=
  let n := String.length s in
  let m := String.length suffix in
  (m <=? n)%nat && String.eqb (substring (n - m) m s) suffix.

(** White space removed by [String.prototype.trim], restricted to the
    ASCII range: TAB, LF, VT, FF, CR and SPACE. *)
Definition isSpace (c : ascii) : bool :=
  let n := nat_of_ascii c in
  ((9 <=? n) && (n <=? 13) || (n =? 32))%nat.

Fixpoint trimStart (s : string) : string :=
  match s with
  | EmptyString => EmptyString
  | String c rest => if isSpace c then trimStart rest else s
  end.

Fixpoint trimEnd (s : string) : string :=
  match s with
  | EmptyString => EmptyString
  | String c rest =>
      match trimEnd rest with
      | EmptyString => if isSpace c then EmptyString else String c EmptyString
      | kept => String c kept
      end
  end.

Definition trim (s : string) : string := trimEnd (trimStart s).

(** [s.split(sep)] for a one-character separator: the pieces between
    the separators, the empty ones included. *)
Fixpoint split (sep : ascii) (s : string) : list string :=
  match s with
  | EmptyString => [EmptyString]
  | String c rest =>
      if Ascii.eqb c sep then EmptyString :: split sep rest
      else match split sep rest with
           | piece :: pieces => String c piece :: pieces
           | [] => [String c EmptyString]
           end
  end.

(** [Array.prototype.sort()] without a comparator on strings: ascending
    code-unit order (stable). *)
Fixpoint insertSorted (x : string) (l : list string) : list string :=
  match l with
  | [] => [x]
  | y :: rest => if String.leb x y then x :: l else y :: insertSorted x rest
  end.

Definition sort (l : list string) : list string :=
  fold_right insertSorted [] l.

(** An optional string property of a request body: absent, [null]
    (which [@IsOptional()] lets through) or a string. *)
Inductive Field : Type :=
  | Undefined
  | Null
  | Text (s : string).

(** [if (v)]: [undefined], [null] and the empty string are falsy. *)
Definition truthy (v : Field) : bool :=
  match v with
  | Text s => negb (String.eqb s EmptyString)
  | _ => false
  end.

(** [v !== undefined]. *)
Definition isDefined (v : Field) : bool :=
  match v with
  | Undefined => false
  | _ => true
  end.

(** [v || null]. *)
Definition orNull (v : Field) : option string :=
  match v with
  | Text s => if String.eqb s EmptyString then None else Some s
  | _ => None
  end.

(** Template-literal rendering of an integer. *)
Definition numberToString (z : Z) : string :=
  NilZero.string_of_int (Z.to_int z).

(** [Math.ceil(a / b)] on integers, computed over the rationals. *)
Definition ceilDiv (a b : Z) : Z := Qceiling (inject_Z a / inject_Z b).

End Js.

(** ** Data model (tables of the MySQL schema) *)

Inductive Role : Type := admin | viewer.

Definition Role_eqb (a b : Role) : bool :=
  match a, b with
  | admin, admin | viewer, viewer => true
  | _, _ => false
  end.

Definition roleName (r : Role) : string :=
  match r with admin => "admin" | viewer => "viewer" end.

(** A row of [users]: id INT AUTO_INCREMENT, username UNIQUE NOT NULL,
    password (the bcrypt hash), role ENUM, two timestamps. *)
Record UserRow : Type := mkUserRow {
  u_id : Z;
  u_username : string;
  u_password : string;
  u_role : Role;
  u_created_at : Z;
  u_updated_at : Z
}.

(** A row of [customers] as the statements of [CustomerService] read
    and write it (its [Customer] interface); name and email are NOT
    NULL, the other text columns are NULL when unset.  Which of these
    columns the table really has is recorded in the database
    ([customers_columns]); [c_company] and [c_address] hold nothing on a
    table created without them. *)
Record CustomerRow : Type := mkCustomerRow {
  c_id : Z;
  c_name : string;
  c_email : string;
  c_phone : option string;
  c_company : option string;
  c_address : option string;
  c_created_at : Z;
  c_updated_at : Z
}.

(** A row of the [migrations] ledger: filename VARCHAR(255) UNIQUE. *)
Record MigrationRow : Type := mkMigrationRow {
  m_id : Z;
  m_filename : string;
  m_executed_at : Z
}.

(** The database: each table is [None] until it has been created.
    [indexes] holds the names of the secondary indexes.
    [customers_columns] holds the names of the columns the customers
    table was created with: a statement that names another column is
    refused by the server (see [CustomersTable]). *)
Record Database : Type := mkDatabase {
  migrations : option (list MigrationRow);
  users : option (list UserRow);
  customers : option (list CustomerRow);
  indexes : list string;
  migrations_next_id : Z;
  users_next_id : Z;
  customers_next_id : Z;
  customers_columns : list string
}.

Definition with_migrations (d : Database) (t : option (list MigrationRow)) (next : Z) :=
  mkDatabase t (users d) (customers d) (indexes d)
           next (users_next_id d) (customers_next_id d) (customers_columns d).

Definition with_users (d : Database) (t : option (list UserRow)) (next : Z) :=
  mkDatabase (migrations d) t (customers d) (indexes d)
           (migrations_next_id d) next (customers_next_id d) (customers_columns d).

Definition with_customers (d : Database) (t : option (list CustomerRow)) (next : Z) :=
  mkDatabase (migrations d) (users d) t (indexes d)
           (migrations_next_id d) (users_next_id d) next (customers_columns d).

(** CREATE TABLE customers with the given columns. *)
Definition with_customers_table (d : Database) (columns : list string) :=
  mkDatabase (migrations d) (users d) (Some []) (indexes d)
           (migrations_next_id d) (users_next_id d) (customers_next_id d) columns.

(** ** Externals: bcrypt, JWT signing and the server's reading of the
    statements found in migration scripts *)

Record JwtPayload : Type := mkJwtPayload {
  sub : Z;
  jwt_username : string;
  jwt_role : Role;
  iat : option Z;
  exp : option Z
}.

Class Platform : Type := {
  (** [bcrypt.hash(plain, rounds)] with the salt it drew. *)
  bcrypt_hash : string -> Z -> Z -> string;
  (** [bcrypt.compare(plain, hash)]. *)
  bcrypt_compare : string -> string -> bool;
  (** [jwtService.sign(payload)]. *)
  jwt_sign : JwtPayload -> string;
  (** What the server does with one statement of a migration script;
    [None] when it rejects the statement. *)
  mysql_run : string -> Database -> option Database
}.

(** ** The world the services run in, and the monad of service code *)

(** Rejections of promises: the three HTTP exceptions the services
    construct, and plain errors of the mysql2 driver and of [fs]. *)
Inductive Exception : Type :=
  | UnauthorizedException (message : string)
  | NotFoundException (message : string)
  | ConflictException (message : string)
  | DriverError (message : string)
  | FsError (message : string)
  | TypeError (message : string).

(** Status sent by the framework's exception filter: the status of an
    HTTP exception, 500 for anything else. *)
Definition statusCode (e : Exception) : Z :=
  match e with
  | UnauthorizedException _ => 401
  | NotFoundException _ => 404
  | ConflictException _ => 409
  | DriverError _ => 500
  | FsError _ => 500
  | TypeError _ => 500
  end.

Inductive SqlValue : Type :=
  | VNull
  | VInt (z : Z)
  | VText (s : string).

(** The four entry points of [DatabaseService], and the ping of
    [createPool] / [checkConnection]. *)
Inductive Method : Type :=
  | ExecuteQuery | ExecuteInsert | ExecuteUpdate | ExecuteDelete | Ping.

(** One call reaching the connection pool. *)
Record Event : Type := mkEvent {
  method : Method;
  query : string;
  params : list SqlValue;
  fulfilled : bool
}.

(** [faults] says, call by call, whether the pool fails to reach the
    server ([true]); an exhausted list means no further outage.
    [clock] is the server time, [entropy] the next bcrypt salt. *)
Record World : Type := mkWorld {
  db : Database;
  faults : list bool;
  clock : Z;
  entropy : Z
}.

Definition reachable (w : World) : Prop := Forall (fun b => b = false) (faults w).

Inductive Outcome (A : Type) : Type :=
  | Returned (a : A)
  | Thrown (e : Exception).
Arguments Returned {A} a.
Arguments Thrown {A} e.

Record Run (A : Type) : Type := mkRun {
  outcome : Outcome A;
  world : World;
  issued : list Event
}.
Arguments mkRun {A}.
Arguments outcome {A}.
Arguments world {A}.
Arguments issued {A}.

Definition M (A : Type) : Type := World -> Run A.

Definition ret {A} (a : A) : M A := fun w => mkRun (Returned a) w [].

Definition throw {A} (e : Exception) : M A := fun w => mkRun (Thrown e) w [].

Definition bind {A B} (m : M A) (f : A -> M B) : M B := fun w =>
  let r := m w in
  match outcome r with
  | Returned a =>
    let r' := f a (world r) in
    mkRun (outcome r') (world r') (issued r ++ issued r')
  | Thrown e => mkRun (Thrown e) (world r) (issued r)
  end.

(** [try { m } catch (error) { handler(error) }]. *)
Definition try_catch {A} (m : M A) (handler : Exception -> M A) : M A := fun w =>
  let r := m w in
  match outcome r with
  | Returned a => r
  | Thrown e =>
    let r' := handler e (world r) in
    mkRun (outcome r') (world r') (issued r ++ issued r')
  end.

Declare Scope service_scope.
Delimit Scope service_scope with service.
Notation "x <- m ;; k" := (bind m (fun x => k))
  (at level 61, m at next level, right associativity) : service_scope.
Notation "m ;;; k" := (bind m (fun _ => k))
  (at level 61, right associativity) : service_scope.
Local Open Scope service_scope.

(** [for (const x of xs) { await body(x); }]. *)
Fixpoint forEach {A} (body : A -> M unit) (xs : list A) : M unit :=
  match xs with
  | [] => ret tt
  | x :: rest => body x ;;; forEach body rest
  end.

(** ** DatabaseService (database.service.ts) *)

Module DatabaseService.

Definition advance (w : World) (d : Database) : World :=
  mkWorld d (tl (faults w)) (clock w + 1) (entropy w).

(** [pool.execute(query, params)]: the driver rejects when the server
    cannot be reached or refuses the statement; otherwise the statement
    takes effect.  [sem] is the meaning of [query] with [params] bound,
    given the server time. *)
Definition execute {R} (how : Method) (query : string) (params : list SqlValue)
    (sem : Z -> Database -> option (R * Database)) : M R := fun w =>
  match faults w with
  | true :: _ =>
      mkRun (Thrown (DriverError "connect ECONNREFUSED"))
            (advance w (db w)) [mkEvent how query params false]
  | _ =>
      match sem (clock w) (db w) with
      | Some (r, d') =>
          mkRun (Returned r) (advance w d') [mkEvent how query params true]
      | None =>
          mkRun (Thrown (DriverError "statement rejected by the server"))
                (advance w (db w)) [mkEvent how query params false]
      end
  end.

(** [executeQuery]: logs and rethrows on failure, so the rejection of
    [pool.execute] is the rejection of the call. *)
Definition executeQuery {T} (query : string) (params : list SqlValue)
    (sem : Z -> Database -> option (list T * Database)) : M (list T) :=
  try_catch (execute ExecuteQuery query params sem) (fun error => throw error).

Record InsertResult : Type := mkInsertResult {
  insertId : Z;
  insert_affectedRows : Z
}.

Definition executeInsert (query : string) (params : list SqlValue)
    (sem : Z -> Database -> option (InsertResult * Database)) : M InsertResult :=
  try_catch (execute ExecuteInsert query params sem) (fun error => throw error).

Record UpdateResult : Type := mkUpdateResult {
  update_affectedRows : Z;
  changedRows : Z
}.

Definition executeUpdate (query : string) (params : list SqlValue)
    (sem : Z -> Database -> option (UpdateResult * Database)) : M UpdateResult :=
  try_catch (execute ExecuteUpdate query params sem) (fun error => throw error).

Record DeleteResult : Type := mkDeleteResult {
  delete_affectedRows : Z
}.

Definition executeDelete (query : string) (params : list SqlValue)
    (sem : Z -> Database -> option (DeleteResult * Database)) : M DeleteResult :=
  try_catch (execute ExecuteDelete query params sem) (fun error => throw error).

(** [connection.ping()] on a pooled connection. *)
Definition ping : M unit :=
  execute Ping EmptyString [] (fun _ d => Some (tt, d)).

(** [createPool], run by [onModuleInit]: rethrows when the ping fails. *)
Definition createPool : M unit :=
  try_catch ping (fun error => throw error).

(** [checkConnection]: [false] instead of an exception. *)
Definition checkConnection : M bool :=
  try_catch (ping ;;; ret true) (fun _ => ret false).

End DatabaseService.

(** A read-only statement: the rows, and the database as it was. *)
Definition reading {T} (rows : Database -> option (list T))
  : Z -> Database -> option (list T * Database) :=
  fun _ d => match rows d with
           | Some l => Some (l, d)
           | None => None
           end.

(** ** The part of the file system the migration runner reads *)

Module Fs.

(** A directory of regular files: name and UTF-8 content. *)
Definition Directory : Type := list (string * string).

(** The two places where migration scripts are looked for:
    [path.join(__dirname, 'migrations')] and
    [path.join(process.cwd(), 'src/database/migrations')]. *)
Inductive Location : Type := DirnameMigrations | CwdSrcMigrations.

Record FileSystem : Type := mkFileSystem {
  dirname_migrations : option Directory;
  cwd_src_migrations : option Directory
}.

Definition directory (fs : FileSystem) (at_ : Location) : option Directory :=
  match at_ with
  | DirnameMigrations => dirname_migrations fs
  | CwdSrcMigrations => cwd_src_migrations fs
  end.

Fixpoint lookup (name : string) (dir : Directory) : option string :=
  match dir with
  | [] => None
  | (n, content) :: rest => if String.eqb n name then Some content else lookup name rest
  end.

(** [fs.existsSync(dir)]. *)
Definition existsSync (fs : FileSystem) (at_ : Location) : bool :=
  match directory fs at_ with Some _ => true | None => false end.

(** [fs.existsSync(path.join(dir, filename))]. *)
Definition existsFileSync (fs : FileSystem) (at_ : Location) (filename : string) : bool :=
  match directory fs at_ with
  | Some dir => match lookup filename dir with Some _ => true | None => false end
  | None => false
  end.

(** [fs.readdirSync(dir)]; only called on a directory that exists. *)
Definition readdirSync (fs : FileSystem) (at_ : Location) : list string :=
  match directory fs at_ with
  | Some dir => map fst dir
  | None => []
  end.

(** [fs.readFileSync(path.join(dir, filename), 'utf8')]. *)
Definition readFileSync (fs : FileSystem) (at_ : Location) (filename : string) : M string :=
  match directory fs at_ with
  | Some dir =>
      match lookup filename dir with
      | Some content => ret content
      | None => throw (FsError "ENOENT: no such file or directory")
      end
  | None => throw (FsError "ENOENT: no such file or directory")
  end.

End Fs.

Module Bcrypt.

(** [await bcrypt.hash(plain, rounds)]: draws a fresh salt. *)
Definition hash `{Platform} (plain : string) (rounds : Z) : M string := fun w =>
  mkRun (Returned (bcrypt_hash plain rounds (entropy w)))
        (mkWorld (db w) (faults w) (clock w) (entropy w + 1)) [].

(** [await bcrypt.compare(plain, hashed)]. *)
Definition compare `{Platform} (plain hashed : string) : M bool :=
  ret (bcrypt_compare plain hashed).

End Bcrypt.

(** ** Statements on the [users] and [customers] tables *)

Definition orderByDesc {T} (key : T -> Z) (rows : list T) : list T :=
  let insert := fix insert (x : T) (l : list T) : list T :=
  match l with
  | [] => [x]
  | y :: rest => if key y <? key x then x :: l else y :: insert x rest
  end in
  fold_right insert [] rows.

(** [LIMIT limit OFFSET offset]; the server rejects negative numbers. *)
Definition limitOffset {T} (limit offset : Z) (rows : list T) : option (list T) :=
  if (limit <? 0) || (offset <? 0) then None
  else Some (firstn (Z.to_nat limit) (skipn (Z.to_nat offset) rows)).

Fixpoint distinct (l : list string) : bool :=
  match l with
  | [] => true
  | x :: rest => negb (existsb (String.eqb x) rest) && distinct rest
  end.

Module UsersTable.
Import DatabaseService.

(** SELECT id FROM users WHERE role = ? LIMIT 1 *)
Definition selectByRole (role : Role) (d : Database) : option (list Z) :=
  match users d with
  | Some rows =>
      Some (firstn 1 (map u_id (filter (fun r => Role_eqb (u_role r) role) rows)))
  | None => None
  end.

(** INSERT INTO users (username, password, role) VALUES (?, ?, ?):
    refused when the table is missing or the username is taken (UNIQUE);
    both timestamps default to the current time. *)
Definition insertUser (username password : string) (role : Role) (now : Z)
    (d : Database) : option (InsertResult * Database) :=
  match users d with
  | Some rows =>
      if existsb (fun r => String.eqb (u_username r) username) rows then None
      else
        let id := users_next_id d in
        Some (mkInsertResult id 1,
              with_users d (Some (rows ++ [mkUserRow id username password role now now]))
                         (id + 1))
  | None => None
  end.

Definition whereUsername (username : string) (d : Database) : option (list UserRow) :=
  match users d with
  | Some rows => Some (filter (fun r => String.eqb (u_username r) username) rows)
  | None => None
  end.

Definition whereId (id : Z) (d : Database) : option (list UserRow) :=
  match users d with
  | Some rows => Some (filter (fun r => u_id r =? id) rows)
  | None => None
  end.

(** ... WHERE username = ? AND id != ? *)
Definition whereUsernameExcept (username : string) (id : Z) (d : Database)
    : option (list UserRow) :=
  match users d with
  | Some rows =>
      Some (filter (fun r => String.eqb (u_username r) username && negb (u_id r =? id))
                   rows)
  | None => None
  end.

(** SELECT COUNT( * ) as total FROM users *)
Definition count (d : Database) : option (list Z) :=
  match users d with
  | Some rows => Some [Z.of_nat (List.length rows)]
  | None => None
  end.

(** ... ORDER BY created_at DESC LIMIT limit OFFSET offset *)
Definition page (limit offset : Z) (d : Database) : option (list UserRow) :=
  match users d with
  | Some rows => limitOffset limit offset (orderByDesc u_created_at rows)
  | None => None
  end.

(** The entries pushed on [updateFields] / [updateValues]. *)
Inductive Assignment : Type :=
  | SetUsername (v : string)
  | SetPassword (v : string)
  | SetRole (v : Role)
  | SetUpdatedAtNow.

Definition column (a : Assignment) : string :=
  match a with
  | SetUsername _ => "username = ?"
  | SetPassword _ => "password = ?"
  | SetRole _ => "role = ?"
  | SetUpdatedAtNow => "updated_at = NOW()"
  end.

Definition value (a : Assignment) : list SqlValue :=
  match a with
  | SetUsername v => [VText v]
  | SetPassword v => [VText v]
  | SetRole v => [VText (roleName v)]
  | SetUpdatedAtNow => []
  end.

Definition assign (now : Z) (r : UserRow) (a : Assignment) : UserRow :=
  match a with
  | SetUsername v =>
      mkUserRow (u_id r) v (u_password r) (u_role r) (u_created_at r) (u_updated_at r)
  | SetPassword v =>
      mkUserRow (u_id r) (u_username r) v (u_role r) (u_created_at r) (u_updated_at r)
  | SetRole v =>
      mkUserRow (u_id r) (u_username r) (u_password r) v (u_created_at r) (u_updated_at r)
  | SetUpdatedAtNow =>
      mkUserRow (u_id r) (u_username r) (u_password r) (u_role r) (u_created_at r) now
  end.

(** UPDATE users SET ... WHERE id = ?: refused when the table is
    missing or two rows would share a username. *)
Definition update (fields : list Assignment) (id : Z) (now : Z) (d : Database)
    : option (UpdateResult * Database) :=
  match users d with
  | Some rows =>
      let rows' := map (fun r => if u_id r =? id then fold_left (assign now) fields r
                                 else r) rows in
      let hit := Z.of_nat (List.length (filter (fun r => u_id r =? id) rows)) in
      if distinct (map u_username rows')
      then Some (mkUpdateResult hit hit, with_users d (Some rows') (users_next_id d))
      else None
  | None => None
  end.

(** DELETE FROM users WHERE id = ? *)
Definition delete (id : Z) (now : Z) (d : Database) : option (DeleteResult * Database) :=
  match users d with
  | Some rows =>
      let hit := Z.of_nat (List.length (filter (fun r => u_id r =? id) rows)) in
      Some (mkDeleteResult hit,
            with_users d (Some (filter (fun r => negb (u_id r =? id)) rows))
                       (users_next_id d))
  | None => None
  end.

End UsersTable.

Module CustomersTable.
Import DatabaseService.

(** Every column a statement names must be a column of the table
    (otherwise: Unknown column ... in 'field list'). *)
Definition hasColumns (columns : list string) (d : Database) : bool :=
  forallb (fun c => existsb (String.eqb c) (customers_columns d)) columns.

(** The select list of [findAll] and [findById]. *)
Definition selectList : list string :=
  ["id"; "name"; "email"; "phone"; "company"; "address"; "created_at"; "updated_at"].

(** The column list of the INSERT of [create]. *)
Definition insertList : list string :=
  ["name"; "email"; "phone"; "company"; "address"; "created_at"; "updated_at"].

(** SELECT id, name, email, phone, company, address, created_at,
    updated_at FROM customers WHERE id = ? *)
Definition whereId (id : Z) (d : Database) : option (list CustomerRow) :=
  match customers d with
  | Some rows =>
      if hasColumns selectList d then Some (filter (fun r => c_id r =? id) rows)
      else None
  | None => None
  end.

(** SELECT COUNT( * ) as total FROM customers *)
Definition count (d : Database) : option (list Z) :=
  match customers d with
  | Some rows => Some [Z.of_nat (List.length rows)]
  | None => None
  end.

(** SELECT id, name, email, phone, company, address, created_at,
    updated_at FROM customers ORDER BY created_at DESC LIMIT limit
    OFFSET offset *)
Definition page (limit offset : Z) (d : Database) : option (list CustomerRow) :=
  match customers d with
  | Some rows =>
      if hasColumns selectList d
      then limitOffset limit offset (orderByDesc c_created_at rows)
      else None
  | None => None
  end.

(** INSERT INTO customers (name, email, phone, company, address,
    created_at, updated_at) VALUES (?, ?, ?, ?, ?, NOW(), NOW()) *)
Definition insertCustomer (name email phone : string) (company address : option string)
    (now : Z) (d : Database) : option (InsertResult * Database) :=
  match customers d with
  | Some rows =>
      if hasColumns insertList d then
        let id := customers_next_id d in
        Some (mkInsertResult id 1,
              with_customers d
                (Some (rows ++ [mkCustomerRow id name email (Some phone) company address
                                              now now]))
                (id + 1))
      else None
  | None => None
  end.

(** The entries pushed on [updateFields] / [updateValues]; [None] is
    the SQL NULL. *)
Inductive Assignment : Type :=
  | SetName (v : option string)
  | SetEmail (v : option string)
  | SetPhone (v : option string)
  | SetCompany (v : option string)
  | SetAddress (v : option string)
  | SetUpdatedAtNow.

Definition column (a : Assignment) : string :=
  match a with
  | SetName _ => "name = ?"
  | SetEmail _ => "email = ?"
  | SetPhone _ => "phone = ?"
  | SetCompany _ => "company = ?"
  | SetAddress _ => "address = ?"
  | SetUpdatedAtNow => "updated_at = NOW()"
  end.

(** The column an assignment names. *)
Definition columnName (a : Assignment) : string :=
  match a with
  | SetName _ => "name"
  | SetEmail _ => "email"
  | SetPhone _ => "phone"
  | SetCompany _ => "company"
  | SetAddress _ => "address"
  | SetUpdatedAtNow => "updated_at"
  end.

Definition sqlText (v : option string) : SqlValue :=
  match v with Some s => VText s | None => VNull end.

Definition value (a : Assignment) : list SqlValue :=
  match a with
  | SetName v | SetEmail v | SetPhone v | SetCompany v | SetAddress v => [sqlText v]
  | SetUpdatedAtNow => []
  end.

(** One assignment on one row; [None] when NULL goes to a NOT NULL
    column. *)
Definition assign (now : Z) (r : option CustomerRow) (a : Assignment)
    : option CustomerRow :=
  match r with
  | None => None
  | Some r =>
      match a with
      | SetName None | SetEmail None => None
      | SetName (Some v) =>
          Some (mkCustomerRow (c_id r) v (c_email r) (c_phone r) (c_company r)
                              (c_address r) (c_created_at r) (c_updated_at r))
      | SetEmail (Some v) =>
          Some (mkCustomerRow (c_id r) (c_name r) v (c_phone r) (c_company r)
                              (c_address r) (c_created_at r) (c_updated_at r))
      | SetPhone v =>
          Some (mkCustomerRow (c_id r) (c_name r) (c_email r) v (c_company r)
                              (c_address r) (c_created_at r) (c_updated_at r))
      | SetCompany v =>
          Some (mkCustomerRow (c_id r) (c_name r) (c_email r) (c_phone r) v
                              (c_address r) (c_created_at r) (c_updated_at r))
      | SetAddress v =>
          Some (mkCustomerRow (c_id r) (c_name r) (c_email r) (c_phone r) (c_company r)
                              v (c_created_at r) (c_updated_at r))
      | SetUpdatedAtNow =>
          Some (mkCustomerRow (c_id r) (c_name r) (c_email r) (c_phone r) (c_company r)
                              (c_address r) (c_created_at r) now)
      end
  end.

Fixpoint updateRows (fields : list Assignment) (id : Z) (now : Z)
    (rows : list CustomerRow) : option (list CustomerRow) :=
  match rows with
  | [] => Some []
  | r :: rest =>
      match (if c_id r =? id then fold_left (assign now) fields (Some r) else Some r),
            updateRows fields id now rest with
      | Some r', Some rest' => Some (r' :: rest')
      | _, _ => None
      end
  end.

(** UPDATE customers SET ... WHERE id = ? *)
Definition update (fields : list Assignment) (id : Z) (now : Z) (d : Database)
    : option (UpdateResult * Database) :=
  match customers d with
  | Some rows =>
      let hit := Z.of_nat (List.length (filter (fun r => c_id r =? id) rows)) in
      if hasColumns (map columnName fields ++ ["id"]) d then
        match updateRows fields id now rows with
        | Some rows' =>
            Some (mkUpdateResult hit hit,
                  with_customers d (Some rows') (customers_next_id d))
        | None => None
        end
      else None
  | None => None
  end.

(** DELETE FROM customers WHERE id = ? *)
Definition delete (id : Z) (now : Z) (d : Database) : option (DeleteResult * Database) :=
  match customers d with
  | Some rows =>
      let hit := Z.of_nat (List.length (filter (fun r => c_id r =? id) rows)) in
      if hasColumns ["id"] d then
        Some (mkDeleteResult hit,
              with_customers d (Some (filter (fun r => negb (c_id r =? id)) rows))
                             (customers_next_id d))
      else None
  | None => None
  end.

End CustomersTable.

(** ** MigrationService (migration.service.ts) *)

Module MigrationService.
Import DatabaseService.

Section WithPlatform.
Context {platform : Platform}.

(** CREATE TABLE IF NOT EXISTS migrations (...). *)
Definition createMigrationsTable : M unit :=
  executeQuery (T := unit)
    "CREATE TABLE IF NOT EXISTS migrations ( id INT PRIMARY KEY AUTO_INCREMENT, filename VARCHAR(255) NOT NULL UNIQUE, executed_at TIMESTAMP DEFAULT CURRENT_TIMESTAMP )"
    []
    (fun _ d =>
       match migrations d with
       | Some _ => Some ([], d)
       | None => Some ([], with_migrations d (Some []) (migrations_next_id d))
       end) ;;;
  ret tt.

(** SELECT id FROM migrations WHERE filename = ? *)
Definition selectMigration (filename : string) (d : Database) : option (list Z) :=
  match migrations d with
  | Some rows =>
      Some (map m_id (filter (fun r => String.eqb (m_filename r) filename) rows))
  | None => None
  end.

(** INSERT INTO migrations (filename) VALUES (?): refused when the
    table is missing or the filename is already there (UNIQUE). *)
Definition insertMigration (filename : string) (now : Z) (d : Database)
    : option (InsertResult * Database) :=
  match migrations d with
  | Some rows =>
      if existsb (fun r => String.eqb (m_filename r) filename) rows then None
      else
        let id := migrations_next_id d in
        Some (mkInsertResult id 1,
              with_migrations d (Some (rows ++ [mkMigrationRow id filename now])) (id + 1))
  | None => None
  end.

(** One statement of a script, as the server reads it. *)
Definition scriptStatement (statement : string) (now : Z) (d : Database)
    : option (list unit * Database) :=
  match mysql_run statement d with
  | Some d' => Some ([], d')
  | None => None
  end.

Definition statementsOf (migrationSql : string) : list string :=
  filter (fun stmt => (0 <? String.length stmt)%nat)
         (map Js.trim (Js.split ";" migrationSql)).

Definition runMigration (fs : Fs.FileSystem) (filename : string) : M unit :=
  existing <- executeQuery "SELECT id FROM migrations WHERE filename = ?"
                [VText filename] (reading (selectMigration filename)) ;;
  if (0 <? List.length existing)%nat then ret tt
  else
    try_catch
      (let migrationPath :=
         if Fs.existsFileSync fs Fs.DirnameMigrations filename
         then Fs.DirnameMigrations else Fs.CwdSrcMigrations in
       migrationSql <- Fs.readFileSync fs migrationPath filename ;;
       let statements := statementsOf migrationSql in
       forEach (fun statement =>
                  executeQuery statement [] (scriptStatement statement) ;;; ret tt)
               statements ;;;
       executeInsert "INSERT INTO migrations (filename) VALUES (?)"
         [VText filename] (insertMigration filename) ;;;
       ret tt)
      (fun error => throw error).

Definition runMigrations (fs : Fs.FileSystem) : M unit :=
  try_catch
    (createMigrationsTable ;;;
     let migrationsDir :=
       if negb (Fs.existsSync fs Fs.DirnameMigrations)
       then Fs.CwdSrcMigrations else Fs.DirnameMigrations in
     if negb (Fs.existsSync fs migrationsDir) then ret tt
     else
       let migrationFiles :=
         Js.sort (filter (fun file => Js.endsWith file ".sql")
                         (Fs.readdirSync fs migrationsDir)) in
       forEach (runMigration fs) migrationFiles)
    (fun error => throw error).

Definition seedDefaultAdmin : M unit :=
  try_catch
    (adminCheck <- executeQuery "SELECT id FROM users WHERE role = ? LIMIT 1"
                     [VText "admin"] (reading (UsersTable.selectByRole admin)) ;;
     if (0 <? List.length adminCheck)%nat then ret tt
     else
       hashedPassword <- Bcrypt.hash "Admin@123" 10 ;;
       executeInsert "INSERT INTO users (username, password, role) VALUES (?, ?, ?)"
         [VText "admin"; VText hashedPassword; VText "admin"]
         (UsersTable.insertUser "admin" hashedPassword admin) ;;;
       ret tt)
    (fun error => throw error).

End WithPlatform.

End MigrationService.

(** The text of the count query on a table. *)
Definition countQuery (table : string) : string :=
  String.concat "*" ["SELECT COUNT("; ") as total FROM " ++ table]%string.

(** ** Pagination DTOs (dto/pagination.dto.ts, the same in both modules) *)

Module Pagination.

Record PaginationQueryDto : Type := mkQuery {
  q_page : option Z;
  q_limit : option Z
}.

Record PaginationMetaDto : Type := mkMeta {
  total : Z;
  page : Z;
  limit : Z;
  totalPages : Z;
  hasNext : bool;
  hasPrev : bool
}.

Record Paginated (T : Type) : Type := mkPaginated {
  data : list T;
  pagination : PaginationMetaDto
}.
Arguments mkPaginated {T}.
Arguments data {T}.
Arguments pagination {T}.

(** [const { page = 1, limit = 10 } = paginationQuery || {}]. *)
Definition pageOf (paginationQuery : option PaginationQueryDto) : Z :=
  match paginationQuery with
  | Some q => match q_page q with Some p => p | None => 1 end
  | None => 1
  end.

Definition limitOf (paginationQuery : option PaginationQueryDto) : Z :=
  match paginationQuery with
  | Some q => match q_limit q with Some l => l | None => 10 end
  | None => 10
  end.

(** The block "Calculate pagination metadata" of both [findAll]s. *)
Definition meta (total page limit : Z) : PaginationMetaDto :=
  let totalPages := Js.ceilDiv total limit in
  let hasNext := page <? totalPages in
  let hasPrev := page >? 1 in
  mkMeta total page limit totalPages hasNext hasPrev.

End Pagination.

(** ** AuthService (auth.service.ts, interfaces/user.interface.ts) *)

Module AuthService.
Import DatabaseService.

Record User : Type := mkUser {
  id : Z;
  username : string;
  role : Role
}.

Record UserWithPassword : Type := mkUserWithPassword {
  wp_id : Z;
  wp_username : string;
  wp_role : Role;
  wp_password : string
}.

Record LoginDto : Type := mkLoginDto {
  dto_username : string;
  dto_password : string
}.

Record LoginResponse : Type := mkLoginResponse {
  access_token : string;
  user : User
}.

(** SELECT id, username, password, role FROM users WHERE username = ? *)
Definition selectWithPassword (name : string) (d : Database)
    : option (list UserWithPassword) :=
  option_map
    (map (fun r => mkUserWithPassword (u_id r) (u_username r) (u_role r) (u_password r)))
    (UsersTable.whereUsername name d).

(** SELECT id, username, role FROM users WHERE id = ? *)
Definition selectById (userId : Z) (d : Database) : option (list User) :=
  option_map (map (fun r => mkUser (u_id r) (u_username r) (u_role r)))
             (UsersTable.whereId userId d).

Definition credentialQuery : string :=
  "SELECT id, username, password, role FROM users WHERE username = ?".

Section WithPlatform.
Context {platform : Platform}.

Definition validateUser (name password : string) : M (option User) :=
  try_catch
    (users <- executeQuery credentialQuery
                [VText name] (reading (selectWithPassword name)) ;;
     match users with
     | [] => ret None
     | user :: _ =>
         isPasswordValid <- Bcrypt.compare password (wp_password user) ;;
         if negb isPasswordValid then ret None
         else ret (Some (mkUser (wp_id user) (wp_username user) (wp_role user)))
     end)
    (fun _ => ret None).

Definition login (loginDto : LoginDto) : M LoginResponse :=
  user <- validateUser (dto_username loginDto) (dto_password loginDto) ;;
  match user with
  | None => throw (UnauthorizedException "Invalid credentials")
  | Some user =>
      let payload := mkJwtPayload (id user) (username user) (role user) None None in
      let access_token := jwt_sign payload in
      ret (mkLoginResponse access_token
             (mkUser (id user) (username user) (role user)))
  end.

Definition validateUserById (userId : Z) : M (option User) :=
  try_catch
    (users <- executeQuery "SELECT id, username, role FROM users WHERE id = ?"
                [VInt userId] (reading (selectById userId)) ;;
     ret (hd_error users))
    (fun _ => ret None).

Definition getProfile (userId : Z) : M User :=
  user <- validateUserById userId ;;
  match user with
  | None => throw (UnauthorizedException "User not found")
  | Some user => ret user
  end.

End WithPlatform.

End AuthService.

(** ** UserService (user.service.ts) *)

Module UserService.
Import DatabaseService Pagination.

Record UserWithoutPassword : Type := mkUserWithoutPassword {
  id : Z;
  username : string;
  role : Role;
  created_at : Z;
  updated_at : Z
}.

Record CreateUserDto : Type := mkCreateUserDto {
  create_username : string;
  create_password : string;
  create_role : option Role
}.

Record UpdateUserDto : Type := mkUpdateUserDto {
  update_username : Js.Field;
  update_password : Js.Field;
  update_role : option Role
}.

Definition withoutPassword (r : UserRow) : UserWithoutPassword :=
  mkUserWithoutPassword (u_id r) (u_username r) (u_role r)
                        (u_created_at r) (u_updated_at r).

Definition text (v : Js.Field) : string :=
  match v with Js.Text s => s | _ => EmptyString end.

Section WithPlatform.
Context {platform : Platform}.

Definition findAll (paginationQuery : option PaginationQueryDto)
    : M (Paginated UserWithoutPassword) :=
  let page := pageOf paginationQuery in
  let limit := limitOf paginationQuery in
  let offset := (page - 1) * limit in
  countResult <- executeQuery (countQuery "users") []
                   (reading UsersTable.count) ;;
  match countResult with
  | [] => throw (TypeError "Cannot read properties of undefined (reading 'total')")
  | total :: _ =>
      users <- executeQuery
                 ("SELECT id, username, role, created_at, updated_at FROM users ORDER BY created_at DESC LIMIT "
                  ++ Js.numberToString limit ++ " OFFSET " ++ Js.numberToString offset)%string
                 []
                 (reading (fun d => option_map (map withoutPassword)
                                               (UsersTable.page limit offset d))) ;;
      ret (mkPaginated users (meta total page limit))
  end.

Definition findById (id : Z) : M UserWithoutPassword :=
  users <- executeQuery
             "SELECT id, username, role, created_at, updated_at FROM users WHERE id = ?"
             [VInt id]
             (reading (fun d => option_map (map withoutPassword) (UsersTable.whereId id d))) ;;
  match users with
  | [] => throw (NotFoundException
                   ("User with ID " ++ Js.numberToString id ++ " not found")%string)
  | user :: _ => ret user
  end.

Definition create (createUserDto : CreateUserDto) : M UserWithoutPassword :=
  let username := create_username createUserDto in
  let password := create_password createUserDto in
  let role := create_role createUserDto in
  existingUsers <- executeQuery "SELECT id FROM users WHERE username = ?"
                     [VText username]
                     (reading (fun d => option_map (map u_id)
                                                   (UsersTable.whereUsername username d))) ;;
  if (0 <? List.length existingUsers)%nat
  then throw (ConflictException "Username already exists")
  else
    hashedPassword <- Bcrypt.hash password 10 ;;
    result <- executeInsert
                "INSERT INTO users (username, password, role, created_at, updated_at) VALUES (?, ?, ?, NOW(), NOW())"
                [VText username; VText hashedPassword;
                 match role with Some r => VText (roleName r) | None => VNull end]
                (fun now d =>
                   match role with
                   | Some r => UsersTable.insertUser username hashedPassword r now d
                   | None => None
                   end) ;;
    findById (insertId result).

Definition update (id : Z) (updateUserDto : UpdateUserDto) : M UserWithoutPassword :=
  findById id ;;;
  let updateFields : list UsersTable.Assignment := [] in
  updateFields <-
    (if Js.truthy (update_username updateUserDto)
     then
       let newName := text (update_username updateUserDto) in
       existingUsers <- executeQuery "SELECT id FROM users WHERE username = ? AND id != ?"
                          [VText newName; VInt id]
                          (reading (fun d => option_map (map u_id)
                                      (UsersTable.whereUsernameExcept newName id d))) ;;
       if (0 <? List.length existingUsers)%nat
       then throw (ConflictException "Username already exists")
       else ret (updateFields ++ [UsersTable.SetUsername newName])
     else ret updateFields) ;;
  updateFields <-
    (if Js.truthy (update_password updateUserDto)
     then
       hashedPassword <- Bcrypt.hash (text (update_password updateUserDto)) 10 ;;
       ret (updateFields ++ [UsersTable.SetPassword hashedPassword])
     else ret updateFields) ;;
  let updateFields :=
    match update_role updateUserDto with
    | Some r => updateFields ++ [UsersTable.SetRole r]
    | None => updateFields
    end in
  if (List.length updateFields =? 0)%nat then findById id
  else
    let updateFields := updateFields ++ [UsersTable.SetUpdatedAtNow] in
    let updateValues := flat_map UsersTable.value updateFields ++ [VInt id] in
    let updateQuery :=
      ("UPDATE users SET " ++ String.concat ", " (map UsersTable.column updateFields)
       ++ " WHERE id = ?")%string in
    executeUpdate updateQuery updateValues (UsersTable.update updateFields id) ;;;
    findById id.

Definition delete (id currentUserId : Z) : M unit :=
  if id =? currentUserId
  then throw (ConflictException "Cannot delete your own account")
  else
    findById id ;;;
    result <- executeDelete "DELETE FROM users WHERE id = ?" [VInt id]
                (UsersTable.delete id) ;;
    if delete_affectedRows result =? 0
    then throw (NotFoundException
                  ("User with ID " ++ Js.numberToString id ++ " not found")%string)
    else ret tt.

End WithPlatform.

End UserService.

(** ** CustomerService (customer.service.ts) *)

Module CustomerService.
Import DatabaseService Pagination.

(** The [Customer] interface; rows are returned as stored. *)
Definition Customer : Type := CustomerRow.

Record CreateCustomerDto : Type := mkCreateCustomerDto {
  create_name : string;
  create_email : string;
  create_phone : string;
  create_company : Js.Field;
  create_address : Js.Field
}.

Record UpdateCustomerDto : Type := mkUpdateCustomerDto {
  update_name : Js.Field;
  update_email : Js.Field;
  update_phone : Js.Field;
  update_company : Js.Field;
  update_address : Js.Field
}.

(** The value bound for a field that is not [undefined]. *)
Definition bound (v : Js.Field) : option string :=
  match v with Js.Text s => Some s | _ => None end.

Definition findAll (paginationQuery : option PaginationQueryDto) : M (Paginated Customer) :=
  let page := pageOf paginationQuery in
  let limit := limitOf paginationQuery in
  let offset := (page - 1) * limit in
  countResult <- executeQuery (countQuery "customers") []
                   (reading CustomersTable.count) ;;
  match countResult with
  | [] => throw (TypeError "Cannot read properties of undefined (reading 'total')")
  | total :: _ =>
      customers <- executeQuery
                     ("SELECT id, name, email, phone, company, address, created_at, updated_at FROM customers ORDER BY created_at DESC LIMIT "
                      ++ Js.numberToString limit ++ " OFFSET "
                      ++ Js.numberToString offset)%string
                     [] (reading (CustomersTable.page limit offset)) ;;
      ret (mkPaginated customers (meta total page limit))
  end.

Definition findById (id : Z) : M Customer :=
  customers <- executeQuery
                 "SELECT id, name, email, phone, company, address, created_at, updated_at FROM customers WHERE id = ?"
                 [VInt id] (reading (CustomersTable.whereId id)) ;;
  match customers with
  | [] => throw (NotFoundException
                   ("Customer with ID " ++ Js.numberToString id ++ " not found")%string)
  | customer :: _ => ret customer
  end.

Definition create (createCustomerDto : CreateCustomerDto) : M Customer :=
  let name := create_name createCustomerDto in
  let email := create_email createCustomerDto in
  let phone := create_phone createCustomerDto in
  let company := create_company createCustomerDto in
  let address := create_address createCustomerDto in
  result <- executeInsert
              "INSERT INTO customers (name, email, phone, company, address, created_at, updated_at) VALUES (?, ?, ?, ?, ?, NOW(), NOW())"
              [VText name; VText email; VText phone;
               CustomersTable.sqlText (Js.orNull company);
               CustomersTable.sqlText (Js.orNull address)]
              (CustomersTable.insertCustomer name email phone
                 (Js.orNull company) (Js.orNull address)) ;;
  findById (insertId result).

Definition update (id : Z) (updateCustomerDto : UpdateCustomerDto) : M Customer :=
  findById id ;;;
  let updateFields : list CustomersTable.Assignment := [] in
  let updateFields :=
    if Js.isDefined (update_name updateCustomerDto)
    then updateFields ++ [CustomersTable.SetName (bound (update_name updateCustomerDto))]
    else updateFields in
  let updateFields :=
    if Js.isDefined (update_email updateCustomerDto)
    then updateFields ++ [CustomersTable.SetEmail (bound (update_email updateCustomerDto))]
    else updateFields in
  let updateFields :=
    if Js.isDefined (update_phone updateCustomerDto)
    then updateFields ++ [CustomersTable.SetPhone (bound (update_phone updateCustomerDto))]
    else updateFields in
  let updateFields :=
    if Js.isDefined (update_company updateCustomerDto)
    then updateFields
         ++ [CustomersTable.SetCompany (Js.orNull (update_company updateCustomerDto))]
    else updateFields in
  let updateFields :=
    if Js.isDefined (update_address updateCustomerDto)
    then updateFields
         ++ [CustomersTable.SetAddress (Js.orNull (update_address updateCustomerDto))]
    else updateFields in
  if (List.length updateFields =? 0)%nat then findById id
  else
    let updateFields := updateFields ++ [CustomersTable.SetUpdatedAtNow] in
    let updateValues := flat_map CustomersTable.value updateFields ++ [VInt id] in
    let updateQuery :=
      ("UPDATE customers SET "
       ++ String.concat ", " (map CustomersTable.column updateFields)
       ++ " WHERE id = ?")%string in
    executeUpdate updateQuery updateValues (CustomersTable.update updateFields id) ;;;
    findById id.

Definition delete (id : Z) : M unit :=
  findById id ;;;
  result <- executeDelete "DELETE FROM customers WHERE id = ?" [VInt id]
              (CustomersTable.delete id) ;;
  if delete_affectedRows result =? 0
  then throw (NotFoundException
                ("Customer with ID " ++ Js.numberToString id ++ " not found")%string)
  else ret tt.

End CustomerService.

(** ** HealthService *)

(** [ConfigService.get(key)]. *)
Definition ConfigService : Type := string -> option string.

Definition configMissing (config : ConfigService) (key : string) : bool :=
  match config key with
  | Some v => String.eqb v EmptyString
  | None => true
  end.

Record ReadinessChecks : Type := mkChecks {
  database : string;
  configuration : string
}.

Record ReadinessStatus : Type := mkReadiness {
  status : string;
  timestamp : Z;
  checks : ReadinessChecks
}.

(** health.service.ts as it stands in src/health. *)
Module HealthService.

Definition checkConfiguration (config : ConfigService) : string :=
  let requiredConfig := ["NODE_ENV"; "JWT_SECRET"] in
  if existsb (configMissing config) requiredConfig then "error" else "ok".

Definition getReadinessStatus (config : ConfigService) : M ReadinessStatus := fun w =>
  mkRun (Returned (mkReadiness "ready" (clock w)
                     (mkChecks "ok" (checkConfiguration config))))
        w [].

End HealthService.

(** The revision of health.service.ts that injects [DatabaseService]. *)
Module HealthServiceWithDatabase.

Definition checkDatabase : M string :=
  try_catch
    (isConnected <- DatabaseService.checkConnection ;;
     ret (if isConnected : bool then "ok" else "error"))
    (fun _ => ret "error").

Definition checkConfiguration (config : ConfigService) : string :=
  let requiredConfig :=
    ["NODE_ENV"; "JWT_SECRET"; "MYSQL_HOST"; "MYSQL_USERNAME"; "MYSQL_PASSWORD";
     "MYSQL_NAME"] in
  if existsb (configMissing config) requiredConfig then "error" else "ok".

Definition getReadinessStatus (config : ConfigService) : M ReadinessStatus :=
  databaseStatus <- checkDatabase ;;
  let configStatus := checkConfiguration config in
  fun w =>
    mkRun (Returned
             (mkReadiness
                (if String.eqb databaseStatus "ok" && String.eqb configStatus "ok"
                 then "ready" else "not_ready")
                (clock w)
                (mkChecks databaseStatus configStatus)))
          w [].

End HealthServiceWithDatabase.

(** ** main.ts *)

Module Main.

(** What has become of the process once [bootstrap()] has settled, as
    far as the database decides it: [Listening port] stands for having
    reached [app.listen(port, '0.0.0.0')]; whether [NestFactory.create]
    and the binding of the socket succeed is outside this model. *)
Inductive Process : Type :=
  | Listening (port : string)
  | Exited (code : Z).

(** [process.env.PORT ?? 3000]. *)
Definition portOf (env : ConfigService) : string :=
  match env "PORT" with Some p => p | None => "3000" end.

Section WithPlatform.
Context {platform : Platform}.

(** The body of [bootstrap]: [app.init()] runs [onModuleInit] of
    [DatabaseService]; a failed database initialisation is logged and
    the function goes on to [app.listen]. *)
Definition bootstrap (env : ConfigService) (fs : Fs.FileSystem) : M string :=
  DatabaseService.createPool ;;;
  try_catch
    (MigrationService.runMigrations fs ;;;
     MigrationService.seedDefaultAdmin)
    (fun _ => ret tt) ;;;
  let port := portOf env in
  ret port.

(** [bootstrap().catch((error) => { ...; process.exit(1); })]. *)
Definition main (env : ConfigService) (fs : Fs.FileSystem) (w : World) : Process :=
  match outcome (bootstrap env fs w) with
  | Returned port => Listening port
  | Thrown _ => Exited 1
  end.

End WithPlatform.

End Main.

(** ** A concrete platform and the repository's migration scripts *)

Module Demo.

Definition contains (needle hay : string) : bool :=
  match index 0 needle hay with Some _ => true | None => false end.

(** The identifier following [keyword] in [statement]. *)
Definition wordAfter (keyword statement : string) : option string :=
  match index 0 keyword statement with
  | Some i =>
      let rest := substring (i + String.length keyword)
                            (String.length statement) statement in
      match index 0 " " rest with
      | Some j => Some (substring 0 j rest)
      | None => Some rest
      end
  | None => None
  end.

(** The pieces of a column list: [s] is cut at the commas outside
    any parentheses and ends at the parenthesis that closes the list. *)
Fixpoint columnDefs (depth : nat) (s : string) : list string :=
  match s with
  | EmptyString => [EmptyString]
  | String c rest =>
      if Ascii.eqb c ")" && (depth =? 0)%nat then [EmptyString]
      else if Ascii.eqb c "," && (depth =? 0)%nat
      then EmptyString :: columnDefs 0 rest
      else
        let depth' := if Ascii.eqb c "(" then S depth
                      else if Ascii.eqb c ")" then pred depth else depth in
        match columnDefs depth' rest with
        | piece :: pieces => String c piece :: pieces
        | [] => [String c EmptyString]
        end
  end.

Definition firstWord (s : string) : string :=
  match index 0 " " s with
  | Some j => substring 0 j s
  | None => s
  end.

(** The column names of a CREATE TABLE statement: the word that opens
    each definition between the outer parentheses. *)
Definition columnsOf (statement : string) : list string :=
  match index 0 "(" statement with
  | Some i =>
      map (fun def => firstWord (Js.trim def))
          (columnDefs 0 (substring (S i) (String.length statement) statement))
  | None => []
  end.

(** A reading of the statements that occur in the two scripts:
    CREATE TABLE IF NOT EXISTS creates the table with the columns the
    statement lists and is harmless on an existing table, CREATE INDEX
    is refused when the index name is taken, anything else is
    refused. *)
Definition run (statement : string) (d : Database) : option Database :=
  if contains "CREATE TABLE IF NOT EXISTS users" statement then
    match users d with
    | Some _ => Some d
    | None => Some (with_users d (Some []) (users_next_id d))
    end
  else if contains "CREATE TABLE IF NOT EXISTS customers" statement then
    match customers d with
    | Some _ => Some d
    | None => Some (with_customers_table d (columnsOf statement))
    end
  else
    match wordAfter "CREATE INDEX " statement with
    | Some name =>
        if existsb (String.eqb name) (indexes d) then None
        else Some (mkDatabase (migrations d) (users d) (customers d)
                              (indexes d ++ [name])
                              (migrations_next_id d) (users_next_id d)
                              (customers_next_id d) (customers_columns d))
    | None => None
    end.

(** A stand-in for bcrypt: the salt and the plain text side by side. *)
Definition hash (plain : string) (rounds salt : Z) : string :=
  ("$2b$" ++ Js.numberToString rounds ++ "$" ++ Js.numberToString salt
   ++ "$" ++ plain)%string.

Definition compare (plain hashed : string) : bool :=
  Js.endsWith hashed ("$" ++ plain)%string.

Definition sign (payload : JwtPayload) : string :=
  ("jwt." ++ Js.numberToString (sub payload) ++ "." ++ jwt_username payload
   ++ "." ++ roleName (jwt_role payload))%string.

Definition platform : Platform :=
  {| bcrypt_hash := hash; bcrypt_compare := compare; jwt_sign := sign;
     mysql_run := run |}.

(** The lines of a file, each ended by LF. *)
Definition lines (l : list string) : string :=
  String.concat EmptyString (map (fun line => line ++ String (ascii_of_nat 10) EmptyString)%string l).

Definition script001 : string :=
  lines
    ["-- Create users table";
     "CREATE TABLE IF NOT EXISTS users (";
     "    id INT PRIMARY KEY AUTO_INCREMENT,";
     "    username VARCHAR(255) UNIQUE NOT NULL,";
     "    password VARCHAR(255) NOT NULL,";
     "    role ENUM('admin', 'viewer') NOT NULL,";
     "    created_at TIMESTAMP DEFAULT CURRENT_TIMESTAMP,";
     "    updated_at TIMESTAMP DEFAULT CURRENT_TIMESTAMP ON UPDATE CURRENT_TIMESTAMP";
     ");";
     EmptyString;
     "-- Create index on username for faster lookups";
     "CREATE INDEX idx_users_username ON users(username);";
     EmptyString;
     "-- Create index on role for role-based queries";
     "CREATE INDEX idx_users_role ON users(role);"].

Definition script002 : string :=
  lines
    ["-- Create customers table";
     "CREATE TABLE IF NOT EXISTS customers (";
     "    id INT PRIMARY KEY AUTO_INCREMENT,";
     "    name VARCHAR(255) NOT NULL,";
     "    email VARCHAR(255) NOT NULL,";
     "    phone VARCHAR(255),";
     "    created_at TIMESTAMP DEFAULT CURRENT_TIMESTAMP,";
     "    updated_at TIMESTAMP DEFAULT CURRENT_TIMESTAMP ON UPDATE CURRENT_TIMESTAMP";
     ");";
     EmptyString;
     "-- Create index on email for faster lookups";
     "CREATE INDEX idx_customers_email ON customers(email);";
     EmptyString;
     "-- Create index on name for search functionality";
     "CREATE INDEX idx_customers_name ON customers(name);"].

(** The source tree seen from the project root, listed out of order. *)
Definition sourceTree : Fs.FileSystem :=
  Fs.mkFileSystem None
    (Some [("002-create-customers-table.sql", script002);
           ("README.md", "scripts applied at startup");
           ("001-create-users-table.sql", script001)]).

Definition emptyDatabase : Database := mkDatabase None None None [] 1 1 1 [].

(** A fresh server that stays reachable. *)
Definition fresh : World := mkWorld emptyDatabase [] 1000 7.

Definition env : ConfigService := fun key =>
  if String.eqb key "NODE_ENV" then Some "production"
  else if String.eqb key "JWT_SECRET" then Some "secret"
  else None.

(** The world once [runMigrations] and [seedDefaultAdmin] have run. *)
Definition seeded : World :=
  world ((bind (MigrationService.runMigrations (platform := platform) sourceTree)
               (fun _ => MigrationService.seedDefaultAdmin (platform := platform))) fresh).

Definition johnDoe : CustomerService.CreateCustomerDto :=
  CustomerService.mkCreateCustomerDto "John Doe" "john@x.com" "555-0100"
    Js.Undefined Js.Undefined.

(** The seeded world once somebody has added the two columns the
    scripts leave out (ALTER TABLE customers ADD company ..., ADD
    address ...). *)
Definition widened : World :=
  mkWorld (mkDatabase (migrations (db seeded)) (users (db seeded)) (customers (db seeded))
                      (indexes (db seeded)) (migrations_next_id (db seeded))
                      (users_next_id (db seeded)) (customers_next_id (db seeded))
                      (customers_columns (db seeded) ++ ["company"; "address"]))
          (faults seeded) (clock seeded) (entropy seeded).

(** The widened world after one customer has been created. *)
Definition stocked : World := world (CustomerService.create johnDoe widened).


(** The seeded world at a moment when the server cannot be reached. *)
Definition outage : World :=
  mkWorld (db seeded) [true] (clock seeded) (entropy seeded).

(** A server on which an index of the first script is already there
    although the ledger has never been written. *)
Definition halfMigrated : World :=
  mkWorld (mkDatabase None (Some []) None ["idx_users_username"] 1 1 1 []) [] 1000 7.

(** The fresh server once the migrations have run, before seeding. *)
Definition migrated : World :=
  world (MigrationService.runMigrations (platform := platform) sourceTree fresh).

End Demo.

(** ** Vocabulary of the statements below *)

(** Every call of a run was answered. *)
Definition allFulfilled (events : list Event) : Prop :=
  Forall (fun ev => fulfilled ev = true) events.

(** Some call of a run failed: the server was unreachable or refused
    the statement. *)
Definition databaseFailure (events : list Event) : Prop :=
  Exists (fun ev => fulfilled ev = false) events.

(** A service method lets database failures through: whenever one of
    its calls fails, the caller gets the driver's error. *)
Definition propagates {A} (m : M A) : Prop :=
  forall w, databaseFailure (issued (m w)) ->
            exists msg, outcome (m w) = Thrown (DriverError msg).

(** The invariant behind it: either no call failed so far, or the
    driver's error is on its way out. *)
Definition transparent {A} (m : M A) : Prop :=
  forall w, allFulfilled (issued (m w))
            \/ exists msg, outcome (m w) = Thrown (DriverError msg).

(** Some row of the users table has role admin. *)
Definition hasAdmin (rows : list UserRow) : bool :=
  existsb (fun r => Role_eqb (u_role r) admin) rows.

Definition adminCount (rows : list UserRow) : nat :=
  List.length (filter (fun r => Role_eqb (u_role r) admin) rows).

(** The calls of a run that went through [executeInsert]. *)
Definition inserts (events : list Event) : list Event :=
  filter (fun ev => match method ev with ExecuteInsert => true | _ => false end) events.

(** The single INSERT of the seeder. *)
Definition seedInsert (hashedPassword : string) (ok : bool) : Event :=
  mkEvent ExecuteInsert "INSERT INTO users (username, password, role) VALUES (?, ?, ?)"
          [VText "admin"; VText hashedPassword; VText "admin"] ok.

Definition seedCheck (ok : bool) : Event :=
  mkEvent ExecuteQuery "SELECT id FROM users WHERE role = ? LIMIT 1" [VText "admin"] ok.

(** The world after the check and the hashing, holding database [d]. *)
Definition afterSeedInsert (w : World) (d : Database) : World :=
  mkWorld d (tl (tl (faults w))) (clock w + 1 + 1) (entropy w + 1).

(** The filenames recorded in the ledger, when the table exists. *)
Definition ledgerOf (d : Database) : option (list string) :=
  option_map (map m_filename) (migrations d).

Definition recorded (filename : string) (d : Database) : Prop :=
  exists names, ledgerOf d = Some names /\ In filename names.

(** The ledger of [d'] has kept the table and the entries of [d]. *)
Definition ledgerGrows (d d' : Database) : Prop :=
  forall names, ledgerOf d = Some names ->
                exists names', ledgerOf d' = Some names' /\ incl names names'.

Definition monotone {A} (m : M A) : Prop :=
  forall w, ledgerGrows (db w) (db (world (m w))).

(** Scripts leave the ledger table alone. *)
Definition scriptsSpareLedger {platform : Platform} : Prop :=
  forall statement d d', mysql_run statement d = Some d' -> migrations d' = migrations d.

(** The scripts the runner goes through, in its order. *)
Definition scriptsOf (fs : Fs.FileSystem) : list string :=
  let migrationsDir :=
    if negb (Fs.existsSync fs Fs.DirnameMigrations)
    then Fs.CwdSrcMigrations else Fs.DirnameMigrations in
  if negb (Fs.existsSync fs migrationsDir) then []
  else Js.sort (filter (fun file => Js.endsWith file ".sql")
                       (Fs.readdirSync fs migrationsDir)).

(** The two kinds of call a run makes when nothing is pending. *)
Definition ensureLedger : Event :=
  mkEvent ExecuteQuery
    "CREATE TABLE IF NOT EXISTS migrations ( id INT PRIMARY KEY AUTO_INCREMENT, filename VARCHAR(255) NOT NULL UNIQUE, executed_at TIMESTAMP DEFAULT CURRENT_TIMESTAMP )"
    [] true.

Definition ledgerCheck (filename : string) : Event :=
  mkEvent ExecuteQuery "SELECT id FROM migrations WHERE filename = ?"
          [VText filename] true.

(** The customers table has every column the SELECTs of
    [CustomerService] name. *)
Definition customersWide (d : Database) : Prop :=
  CustomersTable.hasColumns CustomersTable.selectList d = true.

(** ** Consistency of the tables, and what a service method keeps *)

(** The users table as the schema keeps it: usernames pairwise distinct
    (UNIQUE), ids pairwise distinct (PRIMARY KEY) and below the
    AUTO_INCREMENT counter. *)
Definition usersSound (d : Database) : Prop :=
  match users d with
  | Some rows =>
      distinct (map u_username rows) = true
      /\ NoDup (map u_id rows)
      /\ Forall (fun r => u_id r < users_next_id d) rows
  | None => True
  end.

Definition customersSound (d : Database) : Prop :=
  match customers d with
  | Some rows =>
      NoDup (map c_id rows)
      /\ Forall (fun r => c_id r < customers_next_id d) rows
  | None => True
  end.

(** A method keeps a property of the database, however it ends. *)
Definition keeps {A} (I : Database -> Prop) (m : M A) : Prop :=
  forall w, I (db w) -> I (db (world (m w))).

(** A method leaves the database as it found it, however it ends. *)
Definition readOnly {A} (m : M A) : Prop :=
  forall w, db (world (m w)) = db w.

(** A method stops at the first call that fails: the failed call is
    the last one it makes, and the driver's error is what it throws. *)
Definition failFast {A} (m : M A) : Prop :=
  forall w,
    allFulfilled (issued (m w))
    \/ exists before ev msg,
         issued (m w) = before ++ [ev]
         /\ allFulfilled before
         /\ fulfilled ev = false
         /\ outcome (m w) = Thrown (DriverError msg).

(** [bcrypt.compare] accepts what [bcrypt.hash] made of the same text. *)
Definition bcryptSound {platform : Platform} : Prop :=
  forall plain rounds salt,
    bcrypt_compare plain (bcrypt_hash plain rounds salt) = true.

(** The calls of a run by the entry point they went through. *)
Definition callsOf (how : Method) (events : list Event) : list Event :=
  filter (fun ev =>
            match method ev, how with
            | ExecuteQuery, ExecuteQuery | ExecuteInsert, ExecuteInsert
            | ExecuteUpdate, ExecuteUpdate | ExecuteDelete, ExecuteDelete
            | Ping, Ping => true
            | _, _ => false
            end) events.

(** The row that [UserService.create] stores for a DTO in world [w]. *)
Definition createdUser {platform : Platform} (dto : UserService.CreateUserDto)
    (role : Role) (w : World) : UserRow :=
  mkUserRow (users_next_id (db w)) (UserService.create_username dto)
            (bcrypt_hash (UserService.create_password dto) 10 (entropy w))
            role (clock w + 1) (clock w + 1).

(** The seeded world of the examples after a viewer has been added. *)
Definition bobDto : UserService.CreateUserDto :=
  UserService.mkCreateUserDto "bob" "secret1" (Some viewer).

Definition withBob : World :=
  world (UserService.create (platform := Demo.platform) bobDto Demo.seeded).

(** The row that [CustomerService.create] stores for a DTO in world [w]. *)
Definition createdCustomer (dto : CustomerService.CreateCustomerDto) (w : World)
    : CustomerRow :=
  mkCustomerRow (customers_next_id (db w))
                (CustomerService.create_name dto) (CustomerService.create_email dto)
                (Some (CustomerService.create_phone dto))
                (Js.orNull (CustomerService.create_company dto))
                (Js.orNull (CustomerService.create_address dto))
                (clock w) (clock w).

(** A stored customer after a patch applied at time [now]: a field the
    patch leaves undefined keeps its value; name, email and phone take the
    value given; company and address take it too, the empty string
    becoming NULL. *)
Definition patchedCustomer (dto : CustomerService.UpdateCustomerDto) (now : Z)
    (row : CustomerRow) : CustomerRow :=
  mkCustomerRow
    (c_id row)
    (match CustomerService.update_name dto with Js.Text s => s | _ => c_name row end)
    (match CustomerService.update_email dto with Js.Text s => s | _ => c_email row end)
    (match CustomerService.update_phone dto with
     | Js.Undefined => c_phone row
     | Js.Null => None
     | Js.Text s => Some s
     end)
    (match CustomerService.update_company dto with
     | Js.Undefined => c_company row
     | v => Js.orNull v
     end)
    (match CustomerService.update_address dto with
     | Js.Undefined => c_address row
     | v => Js.orNull v
     end)
    (c_created_at row)
    now.

(** Some field of the patch is not [undefined]. *)
Definition definesSomething (dto : CustomerService.UpdateCustomerDto) : bool :=
  Js.isDefined (CustomerService.update_name dto)
  || Js.isDefined (CustomerService.update_email dto)
  || Js.isDefined (CustomerService.update_phone dto)
  || Js.isDefined (CustomerService.update_company dto)
  || Js.isDefined (CustomerService.update_address dto).

(** The assignments [CustomerService.update] collects for a patch. *)
Definition customerFields (dto : CustomerService.UpdateCustomerDto)
    : list CustomersTable.Assignment :=
  (if Js.isDefined (CustomerService.update_name dto)
   then [CustomersTable.SetName (CustomerService.bound (CustomerService.update_name dto))]
   else [])
  ++ (if Js.isDefined (CustomerService.update_email dto)
      then [CustomersTable.SetEmail
              (CustomerService.bound (CustomerService.update_email dto))]
      else [])
  ++ (if Js.isDefined (CustomerService.update_phone dto)
      then [CustomersTable.SetPhone
              (CustomerService.bound (CustomerService.update_phone dto))]
      else [])
  ++ (if Js.isDefined (CustomerService.update_company dto)
      then [CustomersTable.SetCompany (Js.orNull (CustomerService.update_company dto))]
      else [])
  ++ (if Js.isDefined (CustomerService.update_address dto)
      then [CustomersTable.SetAddress (Js.orNull (CustomerService.update_address dto))]
      else [])
  ++ [CustomersTable.SetUpdatedAtNow].

(* The server refused the first statement of a call: the call threw its
   error, that statement is the only one issued, nothing was written. *)
Definition refusedAtOnce {A} (w : World) (run : Run A) : Prop :=
  outcome run = Thrown (DriverError "statement rejected by the server")
  /\ map fulfilled (issued run) = [false]
  /\ db (world run) = db w.

(* The scripts of [files] that the ledger [names] does not list: the
   ones [runMigration] does not skip. *)
Definition pendingIn (names files : list string) : list string :=
  filter (fun f => negb (existsb (String.eqb f) names)) files.


(* What [findAll] hands back as [data] for page [page] of size [limit]. *)
Definition usersPage (w : World) (limit : Z) (page : nat)
    : list UserService.UserWithoutPassword :=
  match outcome (UserService.findAll
                   (Some (Pagination.mkQuery (Some (Z.of_nat page)) (Some limit))) w) with
  | Returned r => Pagination.data r
  | Thrown _ => []
  end.

Definition customersPage (w : World) (limit : Z) (page : nat)
    : list CustomerService.Customer :=
  match outcome (CustomerService.findAll
                   (Some (Pagination.mkQuery (Some (Z.of_nat page)) (Some limit))) w) with
  | Returned r => Pagination.data r
  | Thrown _ => []
  end.

(* The number of pages [findAll] reports for [total] rows. *)
Definition pagesOf (total : nat) (limit : Z) : nat :=
  Z.to_nat (Js.ceilDiv (Z.of_nat total) limit).

Example demo_migrations_sorted :
  map m_filename
    (match migrations (db Demo.seeded) with Some l => l | None => [] end)
  = ["001-create-users-table.sql"; "002-create-customers-table.sql"].
Proof. vm_compute. reflexivity. Qed.

Example demo_statements :
  List.length (MigrationService.statementsOf Demo.script001) = 3%nat.
Proof. vm_compute. reflexivity. Qed.

Example demo_seeded_users :
  option_map (map (fun r => (u_id r, u_username r, u_role r))) (users (db Demo.seeded))
  = Some [(1, "admin", admin)].
Proof. vm_compute. reflexivity. Qed.

Example demo_indexes :
  indexes (db Demo.seeded)
  = ["idx_users_username"; "idx_users_role"; "idx_customers_email"; "idx_customers_name"].
Proof. vm_compute. reflexivity. Qed.

(** The columns of the two tables as the scripts create them: the
    users table has every column [UserService] and [AuthService] name;
    the customers table has neither company nor address. *)
Example demo_users_columns :
  map Demo.columnsOf (firstn 1 (MigrationService.statementsOf Demo.script001))
  = [["id"; "username"; "password"; "role"; "created_at"; "updated_at"]].
Proof. vm_compute. reflexivity. Qed.

Example demo_customers_columns :
  customers_columns (db Demo.seeded)
  = ["id"; "name"; "email"; "phone"; "created_at"; "updated_at"].
Proof. vm_compute. reflexivity. Qed.

(** ** The connection pool: what one call does *)

Section PoolCalls.
Import DatabaseService.

Lemma reachable_advance w d : reachable w -> reachable (advance w d).
Proof.
  unfold reachable, advance. simpl. intros H.
  destruct (faults w); simpl; [constructor | now inversion H].
Qed.

Lemma reachable_no_fault w : reachable w ->
  match faults w with true :: _ => False | _ => True end.
Proof.
  unfold reachable. intros H. destruct (faults w) as [|[|] fs]; auto.
  inversion H; discriminate.
Qed.

(** A call on a reachable server that accepts the statement. *)
Lemma execute_ok {R} how q ps (sem : Z -> Database -> option (R * Database)) w r d' :
  reachable w -> sem (clock w) (db w) = Some (r, d') ->
  execute how q ps sem w = mkRun (Returned r) (advance w d') [mkEvent how q ps true].
Proof.
  intros Hr Hs. apply reachable_no_fault in Hr. unfold execute.
  destruct (faults w) as [|[|] fs]; try contradiction; rewrite Hs; reflexivity.
Qed.

(** A call during an outage. *)
Lemma execute_fault {R} how q ps (sem : Z -> Database -> option (R * Database)) w fs :
  faults w = true :: fs ->
  execute how q ps sem w
  = mkRun (Thrown (DriverError "connect ECONNREFUSED")) (advance w (db w))
          [mkEvent how q ps false].
Proof. intros Hf. unfold execute. rewrite Hf. reflexivity. Qed.

(** The four wrappers rethrow, so each is [execute] with its method. *)
Lemma rethrow_id {A} (m : M A) w :
  try_catch m (fun error => throw error) w = m w.
Proof.
  unfold try_catch, throw.
  destruct (m w) as [[a|e] w' evs]; simpl; [reflexivity|].
  now rewrite app_nil_r.
Qed.

Lemma executeQuery_eq {T} q ps (sem : Z -> Database -> option (list T * Database)) w :
  executeQuery q ps sem w = execute ExecuteQuery q ps sem w.
Proof. unfold executeQuery. apply rethrow_id. Qed.

Lemma executeInsert_eq q ps sem w :
  executeInsert q ps sem w = execute ExecuteInsert q ps sem w.
Proof. unfold executeInsert. apply rethrow_id. Qed.

Lemma executeUpdate_eq q ps sem w :
  executeUpdate q ps sem w = execute ExecuteUpdate q ps sem w.
Proof. unfold executeUpdate. apply rethrow_id. Qed.

Lemma executeDelete_eq q ps sem w :
  executeDelete q ps sem w = execute ExecuteDelete q ps sem w.
Proof. unfold executeDelete. apply rethrow_id. Qed.

(** Every call either returns having issued one fulfilled event, or
    throws a driver error having issued one unfulfilled event. *)
Lemma execute_cases {R} how q ps (sem : Z -> Database -> option (R * Database)) w :
  (exists r d', sem (clock w) (db w) = Some (r, d') /\
     execute how q ps sem w
     = mkRun (Returned r) (advance w d') [mkEvent how q ps true])
  \/ (exists msg,
     execute how q ps sem w
     = mkRun (Thrown (DriverError msg)) (advance w (db w)) [mkEvent how q ps false]).
Proof.
  unfold execute. destruct (faults w) as [|[|] fs].
  - destruct (sem (clock w) (db w)) as [[r d']|]; [left|right]; eauto.
  - right; eauto.
  - destruct (sem (clock w) (db w)) as [[r d']|]; [left|right]; eauto.
Qed.

End PoolCalls.

(** ** Self-deletion *)

(** C5. For every acting identity and target id, when the target is the
    actor's own id, [UserService.delete] throws the Conflict exception
    whatever the actor's role, issues no statement and leaves the world
    (the users table included) as it was. *)
Theorem delete_own_account_conflict
  (actor : AuthService.User) (target : Z) (w : World) :
  target = AuthService.id actor ->
  let r := UserService.delete target (AuthService.id actor) w in
  outcome r = Thrown (ConflictException "Cannot delete your own account")
  /\ statusCode (ConflictException "Cannot delete your own account") = 409
  /\ world r = w
  /\ issued r = [].
Proof.
  intros ->. unfold UserService.delete. rewrite Z.eqb_refl. now cbn.
Qed.

Lemma delete_own_account_conflict_witness :
  let actor := AuthService.mkUser 1 "admin" admin in
  let r := UserService.delete 1 (AuthService.id actor) Demo.seeded in
  outcome r = Thrown (ConflictException "Cannot delete your own account")
  /\ statusCode (ConflictException "Cannot delete your own account") = 409
  /\ world r = Demo.seeded
  /\ issued r = [].
Proof.
  exact (delete_own_account_conflict (AuthService.mkUser 1 "admin" admin) 1
         Demo.seeded eq_refl).
Defined.

(** ** Pagination *)

(** [Math.ceil(a / b)] for a positive divisor, in integer arithmetic. *)
Lemma ceilDiv_pos (a b : Z) : 0 < b -> Js.ceilDiv a b = - ((- a) / b).
Proof.
  intros Hb. unfold Js.ceilDiv, Qceiling, Qfloor.
  destruct b as [|p|p]; try lia.
  unfold Qdiv, Qinv, inject_Z, Qmult, Qopp; simpl Qnum; simpl Qden.
  rewrite Z.mul_1_r. reflexivity.
Qed.

(** It is the least number of pages of size [b] that hold [a] items. *)
Lemma ceilDiv_bounds (a b : Z) :
  0 < b -> (Js.ceilDiv a b - 1) * b < a <= Js.ceilDiv a b * b.
Proof.
  intros Hb. rewrite ceilDiv_pos by assumption.
  pose proof (Z.div_mod (- a) b ltac:(lia)) as Hdm.
  pose proof (Z.mod_pos_bound (- a) b Hb) as Hm.
  nia.
Qed.

Lemma ceilDiv_unique (a b n : Z) :
  0 < b -> (n - 1) * b < a <= n * b -> Js.ceilDiv a b = n.
Proof.
  intros Hb Hn. pose proof (ceilDiv_bounds a b Hb). nia.
Qed.

Section FindAll.
Import DatabaseService Pagination.

Lemma limitOffset_some {T} (limit offset : Z) (rows : list T) :
  0 <= limit -> 0 <= offset -> exists l, limitOffset limit offset rows = Some l.
Proof.
  intros Hl Ho. unfold limitOffset.
  destruct (limit <? 0) eqn:E1; [lia|].
  destruct (offset <? 0) eqn:E2; [lia|]. simpl. eauto.
Qed.

(** On a reachable server with a users table, [UserService.findAll]
    returns the metadata block computed from the row count. *)
Lemma UserService_findAll_returns w rows q :
  reachable w -> users (db w) = Some rows ->
  1 <= pageOf q -> 1 <= limitOf q ->
  exists data,
    outcome (UserService.findAll q w)
    = Returned (mkPaginated data
                  (meta (Z.of_nat (List.length rows)) (pageOf q) (limitOf q))).
Proof.
  intros Hr Hu Hp Hl. unfold UserService.findAll, bind.
  rewrite executeQuery_eq.
  erewrite execute_ok;
    [| assumption | unfold reading, UsersTable.count; rewrite Hu; reflexivity].
  cbn [outcome world issued].
  destruct (limitOffset_some (limitOf q) ((pageOf q - 1) * limitOf q)
              (orderByDesc u_created_at rows)) as [l El]; [lia | nia |].
  rewrite executeQuery_eq.
  erewrite execute_ok;
    [| now apply reachable_advance
     | unfold reading, UsersTable.page; cbn [advance db];
       rewrite Hu, El; reflexivity].
  cbn. eauto.
Qed.

Lemma CustomerService_findAll_returns w rows q :
  reachable w -> customers (db w) = Some rows -> customersWide (db w) ->
  1 <= pageOf q -> 1 <= limitOf q ->
  exists data,
    outcome (CustomerService.findAll q w)
    = Returned (mkPaginated data
                  (meta (Z.of_nat (List.length rows)) (pageOf q) (limitOf q))).
Proof.
  intros Hr Hu Hwide Hp Hl. unfold CustomerService.findAll, bind.
  rewrite executeQuery_eq.
  erewrite execute_ok;
    [| assumption | unfold reading, CustomersTable.count; rewrite Hu; reflexivity].
  cbn [outcome world issued].
  destruct (limitOffset_some (limitOf q) ((pageOf q - 1) * limitOf q)
              (orderByDesc c_created_at rows)) as [l El]; [lia | nia |].
  rewrite executeQuery_eq.
  erewrite execute_ok;
    [| now apply reachable_advance
     | unfold reading, CustomersTable.page; cbn [advance db];
       rewrite Hu, Hwide, El; reflexivity].
  cbn. eauto.
Qed.

(** Whatever the customer list returns carries the metadata block of
    the row count. *)
Lemma CustomerService_findAll_pagination w rows q r :
  customers (db w) = Some rows ->
  outcome (CustomerService.findAll q w) = Returned r ->
  pagination r = meta (Z.of_nat (List.length rows)) (pageOf q) (limitOf q).
Proof.
  intros Hu. unfold CustomerService.findAll, bind.
  rewrite executeQuery_eq.
  match goal with
  | |- context [execute ExecuteQuery ?q0 ?ps ?sem w] =>
      destruct (execute_cases ExecuteQuery q0 ps sem w)
        as [(found & d' & Hs & ->) | (msg & ->)]
  end; cbn [outcome world issued]; [| discriminate].
  unfold reading, CustomersTable.count in Hs. rewrite Hu in Hs.
  injection Hs as <- <-.
  rewrite executeQuery_eq.
  match goal with
  | |- context [execute ExecuteQuery ?q0 ?ps ?sem ?w0] =>
      destruct (execute_cases ExecuteQuery q0 ps sem w0)
        as [(found & d' & Hs & ->) | (msg & ->)]
  end; cbn [outcome world issued ret]; [| discriminate].
  intros H. injection H as <-. reflexivity.
Qed.

(** C6. For every total T >= 0, limit L in [1,100] and page P >= 1 the
    metadata block of the list operations has totalPages = ceil(T/L)
    (the least n with T <= n*L), hasNext exactly when P < totalPages and
    hasPrev exactly when P > 1; and on a reachable server both
    [findAll]s return that block for the row count of their table (the
    customer list when its table has the columns its SELECT names;
    whatever it returns carries that block). *)
Theorem pagination_metadata (T L P : Z) :
  0 <= T -> 1 <= L <= 100 -> 1 <= P ->
  let m := meta T P L in
  (total m = T /\ page m = P /\ limit m = L)
  /\ (totalPages m - 1) * L < T <= totalPages m * L
  /\ (forall n, T <= n * L -> totalPages m <= n)
  /\ (hasNext m = true <-> P < totalPages m)
  /\ (hasPrev m = true <-> P > 1)
  /\ (forall w rows, reachable w -> users (db w) = Some rows ->
        Z.of_nat (List.length rows) = T ->
        exists data,
          outcome (UserService.findAll (Some (mkQuery (Some P) (Some L))) w)
          = Returned (mkPaginated data m))
  /\ (forall w rows, reachable w -> customers (db w) = Some rows ->
        Z.of_nat (List.length rows) = T ->
        (customersWide (db w) ->
         exists data,
           outcome (CustomerService.findAll (Some (mkQuery (Some P) (Some L))) w)
           = Returned (mkPaginated data m))
        /\ (forall r,
              outcome (CustomerService.findAll (Some (mkQuery (Some P) (Some L))) w)
              = Returned r ->
              pagination r = m)).
Proof.
  intros HT HL HP m.
  assert (Hb : (totalPages m - 1) * L < T <= totalPages m * L).
  { unfold m, meta; cbn [totalPages]. apply ceilDiv_bounds. lia. }
  repeat split; try (apply Hb).
  - intros n Hn. nia.
  - unfold m, meta; cbn [hasNext totalPages]. apply Z.ltb_lt.
  - unfold m, meta; cbn [hasNext totalPages]. apply Z.ltb_lt.
  - unfold m, meta; cbn [hasPrev]. intros H. apply Z.gtb_lt in H. lia.
  - unfold m, meta; cbn [hasPrev]. intros H. apply Z.gtb_lt. lia.
  - intros w rows Hr Hu Hlen.
    destruct (UserService_findAll_returns w rows (Some (mkQuery (Some P) (Some L))))
      as [data Hd]; cbn [pageOf limitOf q_page q_limit]; try assumption; try lia.
    exists data. rewrite Hd. cbn [pageOf limitOf q_page q_limit]. now rewrite Hlen.
  - intros Hwide.
    destruct (CustomerService_findAll_returns w rows (Some (mkQuery (Some P) (Some L))))
      as [data Hd]; cbn [pageOf limitOf q_page q_limit]; try assumption; try lia.
    exists data. rewrite Hd. cbn [pageOf limitOf q_page q_limit].
    match goal with Hlen : Z.of_nat _ = T |- _ => now rewrite Hlen end.
  - intros r Hret.
    match goal with
    | Hu : customers _ = Some _, Hlen : Z.of_nat _ = T |- _ =>
        rewrite (CustomerService_findAll_pagination _ _ _ _ Hu Hret);
          cbn [pageOf limitOf q_page q_limit]; now rewrite Hlen
    end.
Qed.

End FindAll.

Lemma pagination_metadata_witness :
  let m := Pagination.meta 25 2 5 in
  (Pagination.totalPages m - 1) * 5 < 25 <= Pagination.totalPages m * 5
  /\ (Pagination.hasNext m = true <-> 2 < Pagination.totalPages m)
  /\ (Pagination.hasPrev m = true <-> 2 > 1).
Proof.
  pose proof (pagination_metadata 25 5 2 ltac:(lia) ltac:(lia) ltac:(lia)) as H.
  cbv zeta in H.
  destruct H as (_ & Hb & _ & Hn & Hp & _).
  exact (conj Hb (conj Hn Hp)).
Defined.

(** ** Updates with an empty patch *)

Section EmptyPatch.
Import DatabaseService.

Lemma UserService_findById_found w id row rest :
  reachable w -> UsersTable.whereId id (db w) = Some (row :: rest) ->
  UserService.findById id w
  = mkRun (Returned (UserService.withoutPassword row)) (advance w (db w))
      [mkEvent ExecuteQuery
         "SELECT id, username, role, created_at, updated_at FROM users WHERE id = ?"
         [VInt id] true].
Proof.
  intros Hr Hrow. unfold UserService.findById, bind.
  rewrite executeQuery_eq.
  erewrite execute_ok; [| assumption | unfold reading; rewrite Hrow; reflexivity].
  reflexivity.
Qed.

Lemma CustomerService_findById_found w id row rest :
  reachable w -> CustomersTable.whereId id (db w) = Some (row :: rest) ->
  CustomerService.findById id w
  = mkRun (Returned row) (advance w (db w))
      [mkEvent ExecuteQuery
         "SELECT id, name, email, phone, company, address, created_at, updated_at FROM customers WHERE id = ?"
         [VInt id] true].
Proof.
  intros Hr Hrow. unfold CustomerService.findById, bind.
  rewrite executeQuery_eq.
  erewrite execute_ok; [| assumption | unfold reading; rewrite Hrow; reflexivity].
  reflexivity.
Qed.

(** For an existing user id on a reachable server, an update whose
    patch has no defined field returns the stored record after two
    SELECTs and leaves the database as it was. *)
Lemma UserService_update_nothing {platform : Platform} w id row rest :
  reachable w -> UsersTable.whereId id (db w) = Some (row :: rest) ->
  let r := UserService.update id
             (UserService.mkUpdateUserDto Js.Undefined Js.Undefined None) w in
  outcome r = Returned (UserService.withoutPassword row)
  /\ db (world r) = db w
  /\ map method (issued r) = [ExecuteQuery; ExecuteQuery].
Proof.
  intros Hr Hrow. unfold UserService.update, bind.
  rewrite (UserService_findById_found w id row rest Hr Hrow).
  cbn -[UserService.findById].
  rewrite (UserService_findById_found (advance w (db w)) id row rest);
    [| now apply reachable_advance | exact Hrow].
  cbn. auto.
Qed.

Lemma CustomerService_update_nothing w id row rest :
  reachable w -> CustomersTable.whereId id (db w) = Some (row :: rest) ->
  let r := CustomerService.update id
             (CustomerService.mkUpdateCustomerDto
                Js.Undefined Js.Undefined Js.Undefined Js.Undefined Js.Undefined) w in
  outcome r = Returned row
  /\ db (world r) = db w
  /\ map method (issued r) = [ExecuteQuery; ExecuteQuery].
Proof.
  intros Hr Hrow. unfold CustomerService.update, bind.
  rewrite (CustomerService_findById_found w id row rest Hr Hrow).
  cbn -[CustomerService.findById].
  rewrite (CustomerService_findById_found (advance w (db w)) id row rest);
    [| now apply reachable_advance | exact Hrow].
  cbn. auto.
Qed.

End EmptyPatch.


(** ** Login *)

Section Login.
Import DatabaseService AuthService.
Context {platform : Platform}.

Lemma reading_some {T} (rows : Database -> option (list T)) now d l d' :
  reading rows now d = Some (l, d') -> rows d = Some l /\ d' = d.
Proof.
  unfold reading. destruct (rows d); intros H; inversion H; auto.
Qed.

(** [validateUser] never throws: whatever happens it settles with a
    user or with [null], after exactly one call to the pool. *)
Lemma validateUser_run name password w :
  exists result ok,
    validateUser name password w
    = mkRun (Returned result) (advance w (db w))
            [mkEvent ExecuteQuery credentialQuery [VText name] ok]
    /\ (ok = false -> result = None)
    /\ (ok = true ->
        exists found, selectWithPassword name (db w) = Some found /\
          result = match found with
                   | [] => None
                   | user :: _ =>
                       if bcrypt_compare password (wp_password user)
                       then Some (mkUser (wp_id user) (wp_username user) (wp_role user))
                       else None
                   end).
Proof.
  unfold validateUser, try_catch, bind. rewrite executeQuery_eq.
  destruct (execute_cases ExecuteQuery credentialQuery [VText name]
              (reading (selectWithPassword name)) w)
    as [(found & d' & Hs & Hrun) | (msg & Hrun)];
    unfold credentialQuery in *; rewrite Hrun; cbn [outcome world issued].
  - apply reading_some in Hs. destruct Hs as [Hsel ->].
    destruct found as [|user rest].
    + exists None, true. cbn. repeat split; try discriminate.
      intros _. exists []. auto.
    + unfold Bcrypt.compare, ret. cbn [outcome world issued].
      destruct (bcrypt_compare password (wp_password user)) eqn:Hc;
        cbn [negb outcome world issued app].
      * exists (Some (mkUser (wp_id user) (wp_username user) (wp_role user))), true.
        repeat split; try discriminate.
        intros _. exists (user :: rest). rewrite Hc. auto.
      * exists None, true. repeat split; try discriminate.
        intros _. exists (user :: rest). rewrite Hc. auto.
  - exists None, false. cbn. repeat split; discriminate.
Qed.

(** The only exception [login] ever throws. *)
Lemma login_throws_only_invalid_credentials loginDto w e :
  outcome (login loginDto w) = Thrown e ->
  e = UnauthorizedException "Invalid credentials".
Proof.
  unfold login, bind.
  destruct (validateUser_run (dto_username loginDto) (dto_password loginDto) w)
    as (result & ok & -> & _). cbn [outcome world issued].
  destruct result; cbn; intros H; inversion H; reflexivity.
Qed.

Lemma login_of_validateUser loginDto w result ok :
  validateUser (dto_username loginDto) (dto_password loginDto) w
  = mkRun (Returned result) (advance w (db w))
          [mkEvent ExecuteQuery credentialQuery [VText (dto_username loginDto)] ok] ->
  outcome (login loginDto w)
  = match result with
    | None => Thrown (UnauthorizedException "Invalid credentials")
    | Some user =>
        Returned (mkLoginResponse
                    (jwt_sign (mkJwtPayload (id user) (username user) (role user)
                                            None None))
                    (mkUser (id user) (username user) (role user)))
    end.
Proof.
  intros Hv. unfold login, bind. rewrite Hv. cbn [outcome world issued].
  destruct result; reflexivity.
Qed.

Lemma selectWithPassword_rows name d rows :
  users d = Some rows ->
  selectWithPassword name d
  = Some (map (fun r => mkUserWithPassword (u_id r) (u_username r) (u_role r)
                                           (u_password r))
              (filter (fun r => String.eqb (u_username r) name) rows)).
Proof.
  intros Hu. unfold selectWithPassword, UsersTable.whereUsername. now rewrite Hu.
Qed.

(** C1. Whenever the username matches no user row, or matches a row
    whose stored hash does not verify the supplied password, [login]
    throws [UnauthorizedException('Invalid credentials')]: the same
    exception, with the same message and status 401, in both cases. *)
Theorem login_failure_is_uniform (loginDto : LoginDto) (w : World) (rows : list UserRow) :
  users (db w) = Some rows ->
  (filter (fun r => String.eqb (u_username r) (dto_username loginDto)) rows = []
   \/ exists row rest,
        filter (fun r => String.eqb (u_username r) (dto_username loginDto)) rows
        = row :: rest
        /\ bcrypt_compare (dto_password loginDto) (u_password row) = false) ->
  outcome (login loginDto w) = Thrown (UnauthorizedException "Invalid credentials")
  /\ statusCode (UnauthorizedException "Invalid credentials") = 401.
Proof.
  intros Hu Hbad. split; [| reflexivity].
  destruct (validateUser_run (dto_username loginDto) (dto_password loginDto) w)
    as (result & ok & Hrun & Hko & Hok).
  rewrite (login_of_validateUser _ _ _ _ Hrun).
  assert (result = None) as ->; [| reflexivity].
  destruct ok; [| now apply Hko].
  destruct (Hok eq_refl) as (found & Hsel & ->).
  rewrite (selectWithPassword_rows _ _ _ Hu) in Hsel. inversion Hsel; subst found.
  destruct Hbad as [-> | (row & rest & -> & Hc)]; cbn; [reflexivity|].
  now rewrite Hc.
Qed.

Lemma distinct_filter_none name rows :
  existsb (String.eqb name) (map u_username rows) = false ->
  filter (fun r => String.eqb (u_username r) name) rows = [].
Proof.
  induction rows as [|r rest IH]; cbn; [reflexivity|].
  intros H. apply orb_false_iff in H. destruct H as [H1 H2].
  rewrite String.eqb_sym, H1. auto.
Qed.

(** Under the UNIQUE constraint a username selects its row alone. *)
Lemma distinct_filter_one row rows :
  distinct (map u_username rows) = true -> In row rows ->
  filter (fun r => String.eqb (u_username r) (u_username row)) rows = [row].
Proof.
  induction rows as [|r rest IH]; cbn; [contradiction|].
  intros Hd Hin. apply andb_true_iff in Hd. destruct Hd as [Hfresh Hd].
  apply negb_true_iff in Hfresh.
  destruct Hin as [-> | Hin].
  - rewrite String.eqb_refl. f_equal. now apply distinct_filter_none.
  - destruct (String.eqb (u_username r) (u_username row)) eqn:E.
    + apply String.eqb_eq in E.
      assert (existsb (String.eqb (u_username r)) (map u_username rest) = true) as Hx.
      { apply existsb_exists. exists (u_username row). split.
        - now apply in_map.
        - now apply String.eqb_eq. }
      congruence.
    + auto.
Qed.

(** On a reachable server the lookup is answered from the table. *)
Lemma validateUser_reachable name password w rows :
  reachable w -> users (db w) = Some rows ->
  validateUser name password w
  = mkRun (Returned
             (match filter (fun r => String.eqb (u_username r) name) rows with
              | [] => None
              | row :: _ =>
                  if bcrypt_compare password (u_password row)
                  then Some (mkUser (u_id row) (u_username row) (u_role row))
                  else None
              end))
          (advance w (db w))
          [mkEvent ExecuteQuery credentialQuery [VText name] true].
Proof.
  intros Hr Hu. unfold validateUser, try_catch, bind. rewrite executeQuery_eq.
  erewrite execute_ok;
    [| assumption
     | unfold reading; rewrite (selectWithPassword_rows _ _ _ Hu); reflexivity].
  cbn [outcome world issued].
  destruct (filter _ rows) as [|row rest]; cbn; [reflexivity|].
  destruct (bcrypt_compare password (u_password row)); reflexivity.
Qed.

(** C2. On a reachable server, for every user row (of a users table
    that respects the UNIQUE constraint on username) whose stored hash
    verifies the supplied password, [login] returns: the access token is
    the signature of exactly the payload {sub: id, username, role}, and the
    user object is exactly {id, username, role}; the stored hash enters
    neither. *)
Theorem login_success (loginDto : LoginDto) (w : World) (rows : list UserRow)
    (row : UserRow) :
  reachable w ->
  users (db w) = Some rows ->
  distinct (map u_username rows) = true ->
  In row rows ->
  u_username row = dto_username loginDto ->
  bcrypt_compare (dto_password loginDto) (u_password row) = true ->
  outcome (login loginDto w)
  = Returned (mkLoginResponse
                (jwt_sign (mkJwtPayload (u_id row) (u_username row) (u_role row)
                                        None None))
                (mkUser (u_id row) (u_username row) (u_role row))).
Proof.
  intros Hr Hu Hd Hin Hname Hc.
  rewrite (login_of_validateUser _ _ _ _
             (validateUser_reachable _ (dto_password loginDto) _ _ Hr Hu)).
  rewrite <- Hname, (distinct_filter_one row rows Hd Hin), Hc. reflexivity.
Qed.

End Login.

Lemma login_failure_is_uniform_witness :
  outcome (AuthService.login (platform := Demo.platform)
             (AuthService.mkLoginDto "nonexistent" "password123") Demo.seeded)
  = Thrown (UnauthorizedException "Invalid credentials")
  /\ outcome (AuthService.login (platform := Demo.platform)
                (AuthService.mkLoginDto "admin" "wrongpassword") Demo.seeded)
     = Thrown (UnauthorizedException "Invalid credentials").
Proof.
  pose (stored := mkUserRow 1 "admin" "$2b$10$7$Admin@123" admin 1012 1012).
  split.
  - apply (login_failure_is_uniform (platform := Demo.platform)
             (AuthService.mkLoginDto "nonexistent" "password123") Demo.seeded [stored]).
    + vm_compute. reflexivity.
    + left. vm_compute. reflexivity.
  - apply (login_failure_is_uniform (platform := Demo.platform)
             (AuthService.mkLoginDto "admin" "wrongpassword") Demo.seeded [stored]).
    + vm_compute. reflexivity.
    + right. exists stored, []. split; vm_compute; reflexivity.
Defined.

Lemma login_success_witness :
  outcome (AuthService.login (platform := Demo.platform)
             (AuthService.mkLoginDto "admin" "Admin@123") Demo.seeded)
  = Returned (AuthService.mkLoginResponse "jwt.1.admin.admin"
                (AuthService.mkUser 1 "admin" admin)).
Proof.
  pose (stored := mkUserRow 1 "admin" "$2b$10$7$Admin@123" admin 1012 1012).
  apply (login_success (platform := Demo.platform)
           (AuthService.mkLoginDto "admin" "Admin@123") Demo.seeded [stored] stored).
  - unfold reachable. vm_compute. constructor.
  - vm_compute. reflexivity.
  - vm_compute. reflexivity.
  - left. reflexivity.
  - reflexivity.
  - vm_compute. reflexivity.
Defined.

(** ** Database failures at request time *)

Section Failures.
Import DatabaseService.

Lemma transparent_propagates {A} (m : M A) : transparent m -> propagates m.
Proof.
  intros Ht w Hfail. destruct (Ht w) as [Hall | Hthrown]; [| exact Hthrown].
  exfalso. unfold databaseFailure in Hfail. unfold allFulfilled in Hall.
  apply Exists_exists in Hfail. destruct Hfail as (ev & Hin & Hev).
  rewrite Forall_forall in Hall. specialize (Hall ev Hin). congruence.
Qed.

Lemma transparent_ret {A} (a : A) : transparent (ret a).
Proof. intros w. left. constructor. Qed.

Lemma transparent_throw {A} (e : Exception) : transparent (throw (A := A) e).
Proof. intros w. left. constructor. Qed.

Lemma transparent_bind {A B} (m : M A) (f : A -> M B) :
  transparent m -> (forall a, transparent (f a)) -> transparent (bind m f).
Proof.
  intros Hm Hf w. unfold bind.
  destruct (Hm w) as [Hall | (msg & Hthrown)].
  - destruct (outcome (m w)) as [a|e]; cbn [outcome issued].
    + destruct (Hf a (world (m w))) as [Hall' | Hthrown'].
      * left. apply Forall_app. split; assumption.
      * right. exact Hthrown'.
    + left. exact Hall.
  - rewrite Hthrown. right. exists msg. reflexivity.
Qed.

Lemma transparent_execute {R} how q ps (sem : Z -> Database -> option (R * Database)) :
  transparent (execute how q ps sem).
Proof.
  intros w.
  destruct (execute_cases how q ps sem w) as [(r & d' & _ & ->) | (msg & ->)].
  - left. repeat constructor.
  - right. exists msg. reflexivity.
Qed.

Lemma transparent_executeQuery {T} q ps
    (sem : Z -> Database -> option (list T * Database)) :
  transparent (executeQuery q ps sem).
Proof. intros w. rewrite executeQuery_eq. apply transparent_execute. Qed.

Lemma transparent_executeInsert q ps sem : transparent (executeInsert q ps sem).
Proof. intros w. rewrite executeInsert_eq. apply transparent_execute. Qed.

Lemma transparent_executeUpdate q ps sem : transparent (executeUpdate q ps sem).
Proof. intros w. rewrite executeUpdate_eq. apply transparent_execute. Qed.

Lemma transparent_executeDelete q ps sem : transparent (executeDelete q ps sem).
Proof. intros w. rewrite executeDelete_eq. apply transparent_execute. Qed.

Lemma transparent_hash {platform : Platform} plain rounds :
  transparent (Bcrypt.hash plain rounds).
Proof. intros w. left. constructor. Qed.

Ltac transparency :=
  repeat first
    [ progress intros
    | apply transparent_ret
    | apply transparent_throw
    | apply transparent_executeQuery
    | apply transparent_executeInsert
    | apply transparent_executeUpdate
    | apply transparent_executeDelete
    | apply transparent_hash
    | apply transparent_bind
    | match goal with
      | |- transparent (if ?b then _ else _) => destruct b
      | |- transparent (match ?x with _ => _ end) => destruct x
      end ].

Lemma UserService_findById_transparent id : transparent (UserService.findById id).
Proof. unfold UserService.findById. transparency. Qed.

Lemma CustomerService_findById_transparent id :
  transparent (CustomerService.findById id).
Proof. unfold CustomerService.findById. transparency. Qed.

Lemma UserService_findAll_transparent q : transparent (UserService.findAll q).
Proof. unfold UserService.findAll. cbv zeta. transparency. Qed.

Lemma CustomerService_findAll_transparent q : transparent (CustomerService.findAll q).
Proof. unfold CustomerService.findAll. cbv zeta. transparency. Qed.

Lemma UserService_create_transparent {platform : Platform} dto :
  transparent (UserService.create dto).
Proof. unfold UserService.create. cbv zeta. transparency. Qed.

Lemma CustomerService_create_transparent dto : transparent (CustomerService.create dto).
Proof. unfold CustomerService.create. cbv zeta. transparency. Qed.

Lemma UserService_update_transparent {platform : Platform} id dto :
  transparent (UserService.update id dto).
Proof. unfold UserService.update. cbv zeta. transparency. Qed.

Lemma CustomerService_update_transparent id dto :
  transparent (CustomerService.update id dto).
Proof. unfold CustomerService.update. cbv zeta. transparency. Qed.

Lemma UserService_delete_transparent id currentUserId :
  transparent (UserService.delete id currentUserId).
Proof. unfold UserService.delete. transparency. Qed.

Lemma CustomerService_delete_transparent id : transparent (CustomerService.delete id).
Proof. unfold CustomerService.delete. transparency. Qed.

End Failures.

(** C8 as stated fails on [login]: during an outage the lookup of
    [validateUser] is rejected, the rejection is swallowed, and the
    caller gets 401 Invalid credentials although the credentials are
    right. *)
Lemma login_during_outage_is_401 :
  databaseFailure
    (issued (AuthService.login (platform := Demo.platform)
               (AuthService.mkLoginDto "admin" "Admin@123") Demo.outage))
  /\ outcome (AuthService.login (platform := Demo.platform)
                (AuthService.mkLoginDto "admin" "Admin@123") Demo.outage)
     = Thrown (UnauthorizedException "Invalid credentials")
  /\ statusCode (UnauthorizedException "Invalid credentials") = 401
  /\ ~ propagates (AuthService.login (platform := Demo.platform)
                     (AuthService.mkLoginDto "admin" "Admin@123")).
Proof.
  assert (Hfail : databaseFailure
                    (issued (AuthService.login (platform := Demo.platform)
                               (AuthService.mkLoginDto "admin" "Admin@123")
                               Demo.outage))).
  { vm_compute. apply Exists_cons_hd. reflexivity. }
  split; [exact Hfail | split; [vm_compute; reflexivity | split; [reflexivity |]]].
  intros Hp. destruct (Hp Demo.outage Hfail) as (msg & Hmsg).
  vm_compute in Hmsg. discriminate.
Qed.

Section RequestTimeFailures.
Context {platform : Platform}.

Lemma issued_login loginDto w :
  exists ok,
    issued (AuthService.login loginDto w)
    = [mkEvent ExecuteQuery AuthService.credentialQuery
         [VText (AuthService.dto_username loginDto)] ok]
    /\ (ok = false ->
        outcome (AuthService.login loginDto w)
        = Thrown (UnauthorizedException "Invalid credentials")).
Proof.
  destruct (validateUser_run (AuthService.dto_username loginDto)
              (AuthService.dto_password loginDto) w)
    as (result & ok & Hrun & Hko & _).
  exists ok. split.
  - unfold AuthService.login, bind. rewrite Hrun. cbn [outcome world issued].
    destruct result; reflexivity.
  - intros Hok. rewrite (login_of_validateUser _ _ _ _ Hrun).
    now rewrite (Hko Hok).
Qed.

(** C8, amended. A database failure during any operation of the user
    and customer services (findAll, findById, create, update, delete)
    reaches the caller as the driver's error, which the framework answers
    with status 500; a database failure during [login] is swallowed by
    [validateUser] and reaches the caller as 401 Invalid credentials. *)
Theorem database_failure_at_request_time :
  ((forall q, propagates (UserService.findAll q))
   /\ (forall id, propagates (UserService.findById id))
   /\ (forall dto, propagates (UserService.create dto))
   /\ (forall id dto, propagates (UserService.update id dto))
   /\ (forall id currentUserId, propagates (UserService.delete id currentUserId))
   /\ (forall q, propagates (CustomerService.findAll q))
   /\ (forall id, propagates (CustomerService.findById id))
   /\ (forall dto, propagates (CustomerService.create dto))
   /\ (forall id dto, propagates (CustomerService.update id dto))
   /\ (forall id, propagates (CustomerService.delete id)))
  /\ (forall msg, statusCode (DriverError msg) = 500)
  /\ (forall loginDto w,
        databaseFailure (issued (AuthService.login loginDto w)) ->
        outcome (AuthService.login loginDto w)
        = Thrown (UnauthorizedException "Invalid credentials")).
Proof.
  split; [| split].
  - repeat split; intros; apply transparent_propagates.
    + apply UserService_findAll_transparent.
    + apply UserService_findById_transparent.
    + apply UserService_create_transparent.
    + apply UserService_update_transparent.
    + apply UserService_delete_transparent.
    + apply CustomerService_findAll_transparent.
    + apply CustomerService_findById_transparent.
    + apply CustomerService_create_transparent.
    + apply CustomerService_update_transparent.
    + apply CustomerService_delete_transparent.
  - reflexivity.
  - intros loginDto w Hfail.
    destruct (issued_login loginDto w) as (ok & Hev & Hko).
    apply Hko. rewrite Hev in Hfail. unfold databaseFailure in Hfail.
    inversion Hfail as [ev l Hhd | ev l Htl]; subst.
    + exact Hhd.
    + inversion Htl.
Qed.

End RequestTimeFailures.

Lemma database_failure_at_request_time_witness :
  (exists msg,
      outcome (CustomerService.findAll None Demo.outage) = Thrown (DriverError msg))
  /\ outcome (AuthService.login (platform := Demo.platform)
                (AuthService.mkLoginDto "admin" "Admin@123") Demo.outage)
     = Thrown (UnauthorizedException "Invalid credentials").
Proof.
  destruct (database_failure_at_request_time (platform := Demo.platform))
    as (Hops & _ & Hlogin).
  destruct Hops as (_ & _ & _ & _ & _ & Hcustomers & _).
  split.
  - apply (Hcustomers None Demo.outage).
    vm_compute. apply Exists_cons_hd. reflexivity.
  - apply (Hlogin (AuthService.mkLoginDto "admin" "Admin@123") Demo.outage).
    vm_compute. apply Exists_cons_hd. reflexivity.
Defined.

(** ** Startup *)

Section Startup.
Import DatabaseService.
Context {platform : Platform}.

Lemma transparent_rethrow {A} (m : M A) :
  transparent m -> transparent (try_catch m (fun error => throw error)).
Proof. intros Hm w. rewrite rethrow_id. apply Hm. Qed.

Lemma transparent_forEach {A} (body : A -> M unit) (xs : list A) :
  (forall x, transparent (body x)) -> transparent (forEach body xs).
Proof.
  intros Hb. induction xs as [|x rest IH]; cbn [forEach].
  - apply transparent_ret.
  - apply transparent_bind; [apply Hb | intros _; exact IH].
Qed.

Lemma transparent_readFileSync fs at_ filename :
  transparent (Fs.readFileSync fs at_ filename).
Proof.
  unfold Fs.readFileSync. destruct (Fs.directory fs at_) as [dir|].
  - destruct (Fs.lookup filename dir); [apply transparent_ret | apply transparent_throw].
  - apply transparent_throw.
Qed.

Lemma runMigration_transparent fs filename :
  transparent (MigrationService.runMigration fs filename).
Proof.
  unfold MigrationService.runMigration.
  apply transparent_bind; [apply transparent_executeQuery | intros existing].
  destruct (0 <? List.length existing)%nat; [apply transparent_ret|].
  apply transparent_rethrow. cbv zeta.
  apply transparent_bind; [apply transparent_readFileSync | intros migrationSql].
  apply transparent_bind.
  - apply transparent_forEach. intros statement.
    apply transparent_bind; [apply transparent_executeQuery | intros _].
    apply transparent_ret.
  - intros _. apply transparent_bind; [apply transparent_executeInsert | intros _].
    apply transparent_ret.
Qed.

(** A failing statement makes the runner throw the driver's error. *)
Lemma runMigrations_transparent fs : transparent (MigrationService.runMigrations fs).
Proof.
  unfold MigrationService.runMigrations. apply transparent_rethrow.
  apply transparent_bind.
  - unfold MigrationService.createMigrationsTable.
    apply transparent_bind; [apply transparent_executeQuery | intros _].
    apply transparent_ret.
  - intros _. cbv zeta.
    destruct (negb (Fs.existsSync fs _)); [apply transparent_ret|].
    apply transparent_forEach. intros file. apply runMigration_transparent.
Qed.

(** Whatever the database initialisation does, [bootstrap] goes on. *)
Lemma swallowed {A} (m : M A) (a : A) w :
  exists a', outcome (try_catch m (fun _ => ret a) w) = Returned a'.
Proof.
  unfold try_catch. destruct (m w) as [[a'|e] w' evs]; cbn; eauto.
Qed.

Lemma main_listens env fs w :
  outcome (createPool w) = Returned tt ->
  Main.main env fs w = Main.Listening (Main.portOf env).
Proof.
  intros Hpool. unfold Main.main, Main.bootstrap, bind. rewrite Hpool.
  cbn [outcome world issued].
  destruct (swallowed (MigrationService.runMigrations fs;;;
                       MigrationService.seedDefaultAdmin) tt (world (createPool w)))
    as (u & Hu).
  unfold bind in Hu. rewrite Hu. reflexivity.
Qed.

Lemma main_exits env fs w e :
  outcome (createPool w) = Thrown e -> Main.main env fs w = Main.Exited 1.
Proof.
  intros Hpool. unfold Main.main, Main.bootstrap, bind. now rewrite Hpool.
Qed.

(** C7, amended. When a migration statement fails during startup, the
    runner rethrows the driver's error, but [bootstrap] catches it, sends
    nothing more to the database (the seeding is skipped) and goes on to
    listen: once the connection pool has been created the process does
    not exit, it serves on the configured port. *)
Theorem failed_migration_is_not_fatal (env : ConfigService) (fs : Fs.FileSystem)
    (w : World) :
  outcome (createPool w) = Returned tt ->
  databaseFailure (issued (MigrationService.runMigrations fs (world (createPool w)))) ->
  (exists msg,
      outcome (MigrationService.runMigrations fs (world (createPool w)))
      = Thrown (DriverError msg))
  /\ issued (Main.bootstrap env fs w)
     = issued (createPool w)
       ++ issued (MigrationService.runMigrations fs (world (createPool w)))
  /\ Main.main env fs w = Main.Listening (Main.portOf env).
Proof.
  intros Hpool Hfail.
  destruct (transparent_propagates _ (runMigrations_transparent fs) _ Hfail)
    as (msg & Hthrown).
  split; [eauto | split; [| now apply main_listens]].
  unfold Main.bootstrap, bind, try_catch. rewrite Hpool. cbn [outcome world issued].
  rewrite Hthrown. cbn [outcome world issued ret].
  now rewrite !app_nil_r.
Qed.

End Startup.

(** C7 as stated fails: the second statement of the first script is
    rejected, the runner throws, and the process listens all the same. *)
Lemma failed_migration_still_listens :
  outcome (MigrationService.runMigrations (platform := Demo.platform)
             Demo.sourceTree (world (DatabaseService.createPool Demo.halfMigrated)))
  = Thrown (DriverError "statement rejected by the server")
  /\ Main.main (platform := Demo.platform) Demo.env Demo.sourceTree Demo.halfMigrated
     = Main.Listening "3000"
  /\ Main.main (platform := Demo.platform) Demo.env Demo.sourceTree Demo.halfMigrated
     <> Main.Exited 1.
Proof.
  split; [vm_compute; reflexivity | split; [vm_compute; reflexivity |]].
  vm_compute. discriminate.
Qed.

Lemma failed_migration_is_not_fatal_witness :
  (exists msg,
      outcome (MigrationService.runMigrations (platform := Demo.platform)
                 Demo.sourceTree (world (DatabaseService.createPool Demo.halfMigrated)))
      = Thrown (DriverError msg))
  /\ Main.main (platform := Demo.platform) Demo.env Demo.sourceTree Demo.halfMigrated
     = Main.Listening (Main.portOf Demo.env).
Proof.
  destruct (failed_migration_is_not_fatal (platform := Demo.platform)
              Demo.env Demo.sourceTree Demo.halfMigrated) as (Hthrown & _ & Hlisten).
  - vm_compute. reflexivity.
  - vm_compute. do 3 apply Exists_cons_tl. apply Exists_cons_hd. reflexivity.
  - exact (conj Hthrown Hlisten).
Defined.

(** ** Readiness *)

(** The readiness report of health.service.ts does not look at the
    database: its database check reads ok in every world. *)
Lemma readiness_database_always_ok (config : ConfigService) (w : World) :
  outcome (HealthService.getReadinessStatus config w)
  = Returned (mkReadiness "ready" (clock w)
                (mkChecks "ok" (HealthService.checkConfiguration config))).
Proof. reflexivity. Qed.

(** C9 (the code falls short of it). With the server unreachable,
    [checkConnection] answers false, yet the readiness report says
    database ok and status ready. *)
Theorem readiness_reports_ok_during_outage :
  outcome (DatabaseService.checkConnection Demo.outage) = Returned false
  /\ outcome (HealthService.getReadinessStatus Demo.env Demo.outage)
     = Returned (mkReadiness "ready" (clock Demo.outage) (mkChecks "ok" "ok")).
Proof. split; vm_compute; reflexivity. Qed.

(** The revision that asks [DatabaseService] does report the outage. *)
Lemma readiness_with_database_check (config : ConfigService) (w : World) fs :
  faults w = true :: fs ->
  exists r,
    outcome (HealthServiceWithDatabase.getReadinessStatus config w) = Returned r
    /\ database (checks r) = "error"
    /\ status r = "not_ready".
Proof.
  intros Hf.
  unfold HealthServiceWithDatabase.getReadinessStatus,
    HealthServiceWithDatabase.checkDatabase, DatabaseService.checkConnection,
    DatabaseService.ping, try_catch, bind.
  rewrite (execute_fault _ _ _ _ _ _ Hf). cbn. eauto.
Qed.

(** ** Seeding the default admin *)

Section Seeder.
Import DatabaseService.
Context {platform : Platform}.

Lemma selectByRole_hasAdmin rows found :
  Some (firstn 1 (map u_id (filter (fun r => Role_eqb (u_role r) admin) rows)))
  = Some found ->
  (0 <? List.length found)%nat = hasAdmin rows.
Proof.
  intros H. injection H as <-.
  unfold hasAdmin. induction rows as [|r rest IH]; [reflexivity|].
  cbn [filter existsb]. destruct (Role_eqb (u_role r) admin); [reflexivity | exact IH].
Qed.

(** The four ways a run of the seeder can go. *)
Lemma seedDefaultAdmin_run w :
  let r := MigrationService.seedDefaultAdmin w in
  let hashed := bcrypt_hash "Admin@123" 10 (entropy w) in
  (exists msg,
      r = mkRun (Thrown (DriverError msg)) (advance w (db w)) [seedCheck false])
  \/ (exists rows,
      users (db w) = Some rows /\ hasAdmin rows = true
      /\ r = mkRun (Returned tt) (advance w (db w)) [seedCheck true])
  \/ (exists rows msg,
      users (db w) = Some rows /\ hasAdmin rows = false
      /\ r = mkRun (Thrown (DriverError msg)) (afterSeedInsert w (db w))
                   [seedCheck true; seedInsert hashed false])
  \/ (exists rows,
      users (db w) = Some rows /\ hasAdmin rows = false
      /\ existsb (fun r => String.eqb (u_username r) "admin") rows = false
      /\ r = mkRun (Returned tt)
                   (afterSeedInsert w
                      (with_users (db w)
                         (Some (rows ++ [mkUserRow (users_next_id (db w)) "admin" hashed
                                                   admin (clock w + 1) (clock w + 1)]))
                         (users_next_id (db w) + 1)))
                   [seedCheck true; seedInsert hashed true]).
Proof.
  cbv zeta. unfold MigrationService.seedDefaultAdmin. rewrite rethrow_id.
  unfold bind. rewrite executeQuery_eq.
  destruct (execute_cases ExecuteQuery "SELECT id FROM users WHERE role = ? LIMIT 1"
              [VText "admin"] (reading (UsersTable.selectByRole admin)) w)
    as [(found & d' & Hs & ->) | (msg & ->)]; cbn [outcome world issued].
  2:{ left. exists msg. reflexivity. }
  apply reading_some in Hs. destruct Hs as [Hsel ->].
  unfold UsersTable.selectByRole in Hsel.
  destruct (users (db w)) as [rows|] eqn:Hu; [| discriminate].
  rewrite (selectByRole_hasAdmin rows found Hsel).
  destruct (hasAdmin rows) eqn:Hadmin.
  - right. left. exists rows. cbn. auto.
  - right. right. unfold Bcrypt.hash. cbn [outcome world issued advance entropy].
    rewrite executeInsert_eq.
    match goal with
    | |- context [execute ExecuteInsert ?q ?ps ?sem ?w'] =>
        destruct (execute_cases ExecuteInsert q ps sem w')
          as [(res & d' & Hs & ->) | (msg & ->)]
    end; cbn [outcome world issued advance db faults clock entropy app].
    + right. exists rows. unfold advance in Hs. cbn [db clock] in Hs.
      unfold UsersTable.insertUser in Hs. rewrite Hu in Hs.
      destruct (existsb _ rows) eqn:Htaken; [discriminate|].
      injection Hs as <- <-. repeat split; try assumption; reflexivity.
    + left. exists rows, msg. repeat split; try assumption; reflexivity.
Qed.

Lemma inserts_check ok : inserts [seedCheck ok] = [].
Proof. reflexivity. Qed.

Lemma inserts_check_insert ok hashed ok' :
  inserts [seedCheck ok; seedInsert hashed ok'] = [seedInsert hashed ok'].
Proof. reflexivity. Qed.

(** One run either leaves the users table alone or, when it had no
    admin and the run completes, appends the default admin. *)
Lemma seedDefaultAdmin_step w rows :
  users (db w) = Some rows ->
  let r := MigrationService.seedDefaultAdmin w in
  let hashed := bcrypt_hash "Admin@123" 10 (entropy w) in
  (users (db (world r)) = Some rows
   /\ (outcome r = Returned tt -> hasAdmin rows = true)
   /\ (inserts (issued r) = []
       \/ hasAdmin rows = false /\ inserts (issued r) = [seedInsert hashed false]))
  \/ (hasAdmin rows = false
      /\ outcome r = Returned tt
      /\ users (db (world r))
         = Some (rows ++ [mkUserRow (users_next_id (db w)) "admin" hashed admin
                                    (clock w + 1) (clock w + 1)])
      /\ inserts (issued r) = [seedInsert hashed true]).
Proof.
  intros Hu. cbv zeta.
  destruct (seedDefaultAdmin_run w)
    as [(msg & ->) | [(rows0 & Hu0 & Hadmin & ->)
                     | [(rows0 & msg & Hu0 & Hadmin & ->)
                       | (rows0 & Hu0 & Hadmin & Hfree & ->)]]];
    cbn [outcome world issued advance afterSeedInsert db];
    try (rewrite Hu in Hu0; injection Hu0 as <-).
  - left. rewrite inserts_check. repeat split; auto. discriminate.
  - left. rewrite inserts_check. repeat split; auto.
  - left. rewrite inserts_check_insert. repeat split; auto. discriminate.
  - right. rewrite inserts_check_insert. repeat split; auto.
Qed.

Lemma hasAdmin_adminCount rows : hasAdmin rows = false -> adminCount rows = 0%nat.
Proof.
  unfold hasAdmin, adminCount. induction rows as [|r rest IH]; [reflexivity|].
  cbn [existsb filter]. destruct (Role_eqb (u_role r) admin); [discriminate | exact IH].
Qed.

Lemma hasAdmin_app rows row :
  u_role row = admin -> hasAdmin (rows ++ [row]) = true.
Proof.
  intros Hrole. unfold hasAdmin. rewrite existsb_app. cbn. rewrite Hrole.
  cbn. apply orb_true_r.
Qed.

Lemma adminCount_app rows row :
  u_role row = admin -> adminCount (rows ++ [row]) = S (adminCount rows).
Proof.
  intros Hrole. unfold adminCount. rewrite filter_app, length_app. cbn.
  rewrite Hrole. cbn. lia.
Qed.

(** On a reachable server the seeder completes, provided the default
    username is free whenever an admin has to be created. *)
Lemma seedDefaultAdmin_completes w rows :
  reachable w -> users (db w) = Some rows ->
  (hasAdmin rows = true
   \/ existsb (fun r => String.eqb (u_username r) "admin") rows = false) ->
  outcome (MigrationService.seedDefaultAdmin w) = Returned tt.
Proof.
  intros Hr Hu Hcan.
  destruct (seedDefaultAdmin_run w)
    as [(msg & Hrun) | [(rows0 & Hu0 & Hadmin & ->)
                       | [(rows0 & msg & Hu0 & Hadmin & Hrun)
                         | (rows0 & Hu0 & Hadmin & Hfree & ->)]]];
    try reflexivity; exfalso.
  - (* the check cannot fail *)
    revert Hrun. unfold MigrationService.seedDefaultAdmin. rewrite rethrow_id.
    unfold bind. rewrite executeQuery_eq.
    erewrite execute_ok;
      [| assumption
       | unfold reading, UsersTable.selectByRole; rewrite Hu; reflexivity].
    cbn [outcome world issued].
    destruct (0 <? _)%nat; cbn; [discriminate|].
    intros H. apply (f_equal issued) in H. cbn in H. discriminate.
  - (* neither can the insert *)
    rewrite Hu in Hu0. injection Hu0 as <-.
    destruct Hcan as [Hcan | Hfree]; [congruence|].
    revert Hrun. unfold MigrationService.seedDefaultAdmin. rewrite rethrow_id.
    unfold bind. rewrite executeQuery_eq.
    erewrite execute_ok;
      [| assumption
       | unfold reading, UsersTable.selectByRole; rewrite Hu; reflexivity].
    cbn [outcome world issued].
    rewrite (selectByRole_hasAdmin rows _ eq_refl), Hadmin.
    unfold Bcrypt.hash. cbn [outcome world issued]. rewrite executeInsert_eq.
    erewrite execute_ok.
    + cbn. discriminate.
    + exact (reachable_advance w (db w) Hr).
    + cbn [db clock advance]. unfold UsersTable.insertUser.
      rewrite Hu, Hfree. reflexivity.
Qed.

(** C4. The seeder is idempotent.  If a row with role admin exists it
    inserts nothing; otherwise its only insert is the one of the default
    admin (username admin, a hash of Admin@123, role admin), and when the
    run completes the table has gained exactly that row.  After a run
    that completes an admin exists and a second run inserts nothing; two
    runs in succession never leave more than one admin where there was
    none; and on a reachable server the run does complete (the default
    username being free when an admin has to be created). *)
Theorem seedDefaultAdmin_idempotent (w : World) (rows : list UserRow) :
  users (db w) = Some rows ->
  let first := MigrationService.seedDefaultAdmin w in
  let second := MigrationService.seedDefaultAdmin (world first) in
  let hashed := bcrypt_hash "Admin@123" 10 (entropy w) in
  (hasAdmin rows = true ->
     users (db (world first)) = Some rows /\ inserts (issued first) = [])
  /\ (hasAdmin rows = false ->
      (exists ok, inserts (issued first) = [] \/ inserts (issued first) = [seedInsert hashed ok])
      /\ (outcome first = Returned tt ->
          users (db (world first))
          = Some (rows ++ [mkUserRow (users_next_id (db w)) "admin" hashed admin
                                     (clock w + 1) (clock w + 1)])))
  /\ (outcome first = Returned tt ->
      exists rows',
        users (db (world first)) = Some rows'
        /\ hasAdmin rows' = true
        /\ users (db (world second)) = Some rows'
        /\ inserts (issued second) = [])
  /\ (exists rows2,
        users (db (world second)) = Some rows2
        /\ (adminCount rows2 <= Nat.max 1 (adminCount rows))%nat)
  /\ (reachable w ->
      (hasAdmin rows = true
       \/ existsb (fun r => String.eqb (u_username r) "admin") rows = false) ->
      outcome first = Returned tt).
Proof.
  intros Hu first second hashed.
  (* an admin in the table makes any run a no-op *)
  assert (Hnoop : forall w0 rows0, users (db w0) = Some rows0 -> hasAdmin rows0 = true ->
            users (db (world (MigrationService.seedDefaultAdmin w0))) = Some rows0
            /\ inserts (issued (MigrationService.seedDefaultAdmin w0)) = []).
  { intros w0 rows0 Hu0 Ha0.
    destruct (seedDefaultAdmin_step w0 rows0 Hu0)
      as [(Hsame & _ & [Hnone | (Hno & _)]) | (Hno & _)]; try congruence. auto. }
  pose proof (seedDefaultAdmin_step w rows Hu) as Hstep. cbv zeta in Hstep.
  fold first in Hstep. fold hashed in Hstep.
  repeat apply conj.
  - intros Hadmin. now apply Hnoop.
  - intros Hadmin.
    destruct Hstep as [(Hsame & Hret & [Hnone | (_ & Hone)]) | (_ & Hret & Hnew & Hone)].
    + split; [exists true; now left |]. intros Hdone. apply Hret in Hdone. congruence.
    + split; [exists false; now right |]. intros Hdone. apply Hret in Hdone. congruence.
    + split; [exists true; now right |]. intros _. exact Hnew.
  - intros Hdone.
    destruct Hstep as [(Hsame & Hret & _) | (_ & _ & Hnew & _)].
    + exists rows. specialize (Hret Hdone).
      destruct (Hnoop (world first) rows Hsame Hret) as [H1 H2]. auto.
    + eexists. split; [exact Hnew |].
      assert (Hown : hasAdmin (rows ++ [mkUserRow (users_next_id (db w)) "admin" hashed
                                           admin (clock w + 1) (clock w + 1)]) = true)
        by (now apply hasAdmin_app).
      destruct (Hnoop (world first) _ Hnew Hown) as [H1 H2]. auto.
  - assert (Hfirst : exists rows1, users (db (world first)) = Some rows1
                       /\ (adminCount rows1 <= Nat.max 1 (adminCount rows))%nat
                       /\ (hasAdmin rows1 = false -> adminCount rows1 = 0%nat)).
    { destruct Hstep as [(Hsame & _) | (Hno & _ & Hnew & _)].
      - exists rows. split; [exact Hsame | split; [lia | apply hasAdmin_adminCount]].
      - eexists. split; [exact Hnew |].
        rewrite adminCount_app by reflexivity.
        rewrite (hasAdmin_adminCount rows Hno). split; [cbn; lia |].
        rewrite hasAdmin_app by reflexivity. discriminate. }
    destruct Hfirst as (rows1 & Hu1 & Hle & Hzero).
    pose proof (seedDefaultAdmin_step (world first) rows1 Hu1) as Hstep2.
    cbv zeta in Hstep2. fold second in Hstep2.
    destruct Hstep2 as [(Hsame & _) | (Hno & _ & Hnew & _)].
    + exists rows1. auto.
    + eexists. split; [exact Hnew |].
      rewrite adminCount_app by reflexivity. rewrite (Hzero Hno). lia.
  - intros Hr Hcan. now apply (seedDefaultAdmin_completes w rows).
Qed.

End Seeder.

Lemma seedDefaultAdmin_idempotent_witness :
  outcome (MigrationService.seedDefaultAdmin (platform := Demo.platform) Demo.migrated)
  = Returned tt
  /\ users (db (world (MigrationService.seedDefaultAdmin (platform := Demo.platform)
                         Demo.migrated)))
     = Some [mkUserRow 1 "admin" "$2b$10$7$Admin@123" admin 1012 1012]
  /\ users (db (world (MigrationService.seedDefaultAdmin (platform := Demo.platform)
                         (world (MigrationService.seedDefaultAdmin
                                   (platform := Demo.platform) Demo.migrated)))))
     = Some [mkUserRow 1 "admin" "$2b$10$7$Admin@123" admin 1012 1012].
Proof.
  destruct (seedDefaultAdmin_idempotent (platform := Demo.platform) Demo.migrated []
              ltac:(vm_compute; reflexivity))
    as (_ & Hnew & Hagain & _ & Hcompletes).
  assert (Hdone : outcome (MigrationService.seedDefaultAdmin
                             (platform := Demo.platform) Demo.migrated) = Returned tt).
  { apply Hcompletes.
    - unfold reachable. vm_compute. constructor.
    - right. reflexivity. }
  destruct (Hnew eq_refl) as [_ Hrow]. specialize (Hrow Hdone).
  destruct (Hagain Hdone) as (rows' & Hfirst & _ & Hsecond & _).
  split; [exact Hdone | split].
  - rewrite Hrow. vm_compute. reflexivity.
  - rewrite Hsecond, <- Hfirst, Hrow. vm_compute. reflexivity.
Defined.

(** ** The migration runner *)

Section Runner.
Import DatabaseService.
Context {platform : Platform}.

Lemma ledgerGrows_refl d : ledgerGrows d d.
Proof. intros names H. exists names. split; [exact H | apply incl_refl]. Qed.

Lemma ledgerGrows_trans d1 d2 d3 :
  ledgerGrows d1 d2 -> ledgerGrows d2 d3 -> ledgerGrows d1 d3.
Proof.
  intros H12 H23 names H1.
  destruct (H12 names H1) as (names2 & H2 & Hi12).
  destruct (H23 names2 H2) as (names3 & H3 & Hi23).
  exists names3. split; [exact H3 | eapply incl_tran; eassumption].
Qed.

Lemma ledgerGrows_same d d' : migrations d' = migrations d -> ledgerGrows d d'.
Proof.
  intros Heq names H. exists names. unfold ledgerOf in *. rewrite Heq.
  split; [exact H | apply incl_refl].
Qed.

Lemma recorded_grows filename d d' :
  ledgerGrows d d' -> recorded filename d -> recorded filename d'.
Proof.
  intros Hg (names & Hn & Hin). destruct (Hg names Hn) as (names' & Hn' & Hincl).
  exists names'. split; [exact Hn' | now apply Hincl].
Qed.

Lemma monotone_ret {A} (a : A) : monotone (ret a).
Proof. intros w. apply ledgerGrows_refl. Qed.

Lemma monotone_throw {A} (e : Exception) : monotone (throw (A := A) e).
Proof. intros w. apply ledgerGrows_refl. Qed.

Lemma monotone_bind {A B} (m : M A) (f : A -> M B) :
  monotone m -> (forall a, monotone (f a)) -> monotone (bind m f).
Proof.
  intros Hm Hf w. unfold bind. destruct (outcome (m w)) as [a|e]; cbn [world].
  - eapply ledgerGrows_trans; [apply Hm | apply Hf].
  - apply Hm.
Qed.

Lemma monotone_rethrow {A} (m : M A) :
  monotone m -> monotone (try_catch m (fun error => throw error)).
Proof. intros Hm w. rewrite rethrow_id. apply Hm. Qed.

Lemma monotone_forEach {A} (body : A -> M unit) (xs : list A) :
  (forall x, monotone (body x)) -> monotone (forEach body xs).
Proof.
  intros Hb. induction xs as [|x rest IH]; cbn [forEach].
  - apply monotone_ret.
  - apply monotone_bind; [apply Hb | intros _; exact IH].
Qed.

Lemma monotone_execute {R} how q ps (sem : Z -> Database -> option (R * Database)) :
  (forall now d r d', sem now d = Some (r, d') -> ledgerGrows d d') ->
  monotone (execute how q ps sem).
Proof.
  intros Hsem w.
  destruct (execute_cases how q ps sem w) as [(r & d' & Hs & ->) | (msg & ->)];
    cbn [world advance db].
  - eapply Hsem; eassumption.
  - apply ledgerGrows_refl.
Qed.

Lemma monotone_readFileSync fs at_ filename :
  monotone (Fs.readFileSync fs at_ filename).
Proof.
  unfold Fs.readFileSync. destruct (Fs.directory fs at_) as [dir|].
  - destruct (Fs.lookup filename dir); [apply monotone_ret | apply monotone_throw].
  - apply monotone_throw.
Qed.

Lemma insertMigration_grows filename now d r d' :
  MigrationService.insertMigration filename now d = Some (r, d') ->
  ledgerGrows d d' /\ recorded filename d'.
Proof.
  unfold MigrationService.insertMigration.
  destruct (migrations d) as [rows|] eqn:Hm; [| discriminate].
  destruct (existsb _ rows); [discriminate|].
  intros H. injection H as <- <-. split.
  - intros names Hn. unfold ledgerOf in *. rewrite Hm in Hn. cbn in *.
    injection Hn as <-. eexists. split; [reflexivity|].
    rewrite map_app. apply incl_appl, incl_refl.
  - eexists. unfold ledgerOf. cbn. split; [reflexivity|].
    rewrite map_app. apply in_or_app. right. cbn. now left.
Qed.

Lemma runMigration_monotone fs filename :
  scriptsSpareLedger -> monotone (MigrationService.runMigration fs filename).
Proof.
  intros Hspare. unfold MigrationService.runMigration.
  apply monotone_bind.
  - intros w. rewrite executeQuery_eq. revert w. apply monotone_execute.
    intros now d r d' Hs. apply reading_some in Hs. destruct Hs as [_ ->].
    apply ledgerGrows_refl.
  - intros existing. destruct (0 <? List.length existing)%nat; [apply monotone_ret|].
    apply monotone_rethrow. cbv zeta.
    apply monotone_bind; [apply monotone_readFileSync | intros migrationSql].
    apply monotone_bind.
    + apply monotone_forEach. intros statement.
      apply monotone_bind; [| intros _; apply monotone_ret].
      intros w. rewrite executeQuery_eq. revert w. apply monotone_execute.
      intros now d r d'. unfold MigrationService.scriptStatement.
      destruct (mysql_run statement d) as [d1|] eqn:Hrun; [| discriminate].
      intros H. injection H as _ <-. apply ledgerGrows_same. eapply Hspare, Hrun.
    + intros _. apply monotone_bind; [| intros _; apply monotone_ret].
      intros w. rewrite executeInsert_eq. revert w. apply monotone_execute.
      intros now d r d' Hs. eapply insertMigration_grows, Hs.
Qed.

(** A sequence that returns has returned at each step. *)
Lemma bind_returned {A B} (m : M A) (f : A -> M B) w b :
  outcome (bind m f w) = Returned b ->
  exists a, outcome (m w) = Returned a
            /\ outcome (f a (world (m w))) = Returned b
            /\ world (bind m f w) = world (f a (world (m w))).
Proof.
  unfold bind. destruct (outcome (m w)) as [a|e]; cbn [outcome world].
  - intros H. exists a. auto.
  - discriminate.
Qed.

Lemma executeQuery_returned {T} q ps (rows : Database -> option (list T)) w l :
  outcome (executeQuery q ps (reading rows) w) = Returned l ->
  rows (db w) = Some l /\ world (executeQuery q ps (reading rows) w) = advance w (db w).
Proof.
  rewrite executeQuery_eq.
  destruct (execute_cases ExecuteQuery q ps (reading rows) w)
    as [(r & d' & Hs & ->) | (msg & ->)]; cbn [outcome world]; [| discriminate].
  intros H. injection H as <-. apply reading_some in Hs. destruct Hs as [Hrows ->].
  auto.
Qed.

Lemma selectMigration_recorded filename d found :
  MigrationService.selectMigration filename d = Some found ->
  (0 <? List.length found)%nat = true -> recorded filename d.
Proof.
  unfold MigrationService.selectMigration, recorded, ledgerOf.
  destruct (migrations d) as [rows|]; [| discriminate].
  intros H Hlen. injection H as <-. exists (map m_filename rows). split; [reflexivity|].
  rewrite length_map in Hlen.
  destruct (filter _ rows) as [|row rest] eqn:Hf; [discriminate|].
  assert (Hin : In row (filter (fun r => String.eqb (m_filename r) filename) rows))
    by (rewrite Hf; now left).
  apply filter_In in Hin. destruct Hin as [Hin Heq].
  apply String.eqb_eq in Heq. rewrite <- Heq. now apply in_map.
Qed.

Lemma recorded_selectMigration filename d :
  recorded filename d ->
  exists found, MigrationService.selectMigration filename d = Some found
                /\ (0 <? List.length found)%nat = true.
Proof.
  unfold MigrationService.selectMigration, recorded, ledgerOf.
  intros (names & Hn & Hin). destruct (migrations d) as [rows|]; [| discriminate].
  cbn in Hn. injection Hn as <-. eexists. split; [reflexivity|].
  rewrite length_map. apply in_map_iff in Hin. destruct Hin as (row & Hname & Hin).
  assert (Hf : In row (filter (fun r => String.eqb (m_filename r) filename) rows)).
  { apply filter_In. split; [exact Hin | now apply String.eqb_eq]. }
  destruct (filter _ rows); [contradiction | reflexivity].
Qed.

(** A script that the runner has got through is in the ledger. *)
Lemma runMigration_records fs filename w :
  outcome (MigrationService.runMigration fs filename w) = Returned tt ->
  recorded filename (db (world (MigrationService.runMigration fs filename w))).
Proof.
  unfold MigrationService.runMigration. intros H.
  apply bind_returned in H. destruct H as (existing & Hq & Hrest & Hw).
  rewrite Hw. clear Hw.
  apply executeQuery_returned in Hq. destruct Hq as [Hsel Hw1].
  remember (world (executeQuery _ _ _ w)) as w1 eqn:E. clear E. subst w1.
  destruct (0 <? List.length existing)%nat eqn:Hlen.
  - cbn [ret world advance db]. eapply selectMigration_recorded; eassumption.
  - rewrite rethrow_id in *. cbv zeta in *.
    apply bind_returned in Hrest. destruct Hrest as (sql & _ & Hrest & Hw).
    rewrite Hw. clear Hw.
    remember (world (Fs.readFileSync _ _ _ _)) as w2 eqn:E. clear E.
    apply bind_returned in Hrest. destruct Hrest as (u & _ & Hrest & Hw).
    rewrite Hw. clear Hw.
    remember (world (forEach _ _ w2)) as w3 eqn:E. clear E.
    apply bind_returned in Hrest. destruct Hrest as (res & Hins & _ & Hw).
    rewrite Hw. clear Hw.
    cbn [ret world]. rewrite executeInsert_eq in *.
    match goal with
    | |- context [execute ExecuteInsert ?q ?ps ?sem ?w'] =>
        destruct (execute_cases ExecuteInsert q ps sem w')
          as [(r & d' & Hs & Hrun) | (msg & Hrun)]
    end; rewrite Hrun in *; cbn [outcome world advance db] in *; [| discriminate].
    eapply insertMigration_grows, Hs.
Qed.

Lemma forEach_records fs files w :
  scriptsSpareLedger ->
  outcome (forEach (MigrationService.runMigration fs) files w) = Returned tt ->
  ledgerGrows (db w) (db (world (forEach (MigrationService.runMigration fs) files w)))
  /\ forall filename, In filename files ->
       recorded filename
         (db (world (forEach (MigrationService.runMigration fs) files w))).
Proof.
  intros Hspare. revert w. induction files as [|file rest IH]; intros w H.
  - cbn. split; [apply ledgerGrows_refl | contradiction].
  - cbn [forEach] in *. apply bind_returned in H.
    destruct H as ([] & Hfile & Hrest & Hw). rewrite Hw. clear Hw.
    destruct (IH _ Hrest) as [Hgrow Hall]. split.
    + eapply ledgerGrows_trans; [| exact Hgrow].
      apply (runMigration_monotone fs file Hspare).
    + intros filename [<- | Hin]; [| now apply Hall].
      eapply recorded_grows; [exact Hgrow |]. now apply runMigration_records.
Qed.

(** With every script in the ledger the loop only looks each one up. *)
Lemma forEach_skips fs files w :
  reachable w -> (forall filename, In filename files -> recorded filename (db w)) ->
  let r := forEach (MigrationService.runMigration fs) files w in
  outcome r = Returned tt
  /\ db (world r) = db w
  /\ issued r = map ledgerCheck files.
Proof.
  revert w. induction files as [|file rest IH]; intros w Hr Hall; cbv zeta.
  - cbn. auto.
  - cbn [forEach map]. unfold bind.
    destruct (recorded_selectMigration file (db w) (Hall file (or_introl eq_refl)))
      as (found & Hsel & Hlen).
    assert (Hone : MigrationService.runMigration fs file w
                   = mkRun (Returned tt) (advance w (db w)) [ledgerCheck file]).
    { unfold MigrationService.runMigration, bind. rewrite executeQuery_eq.
      erewrite execute_ok; [| assumption | unfold reading; rewrite Hsel; reflexivity].
      cbn [outcome world issued]. rewrite Hlen. reflexivity. }
    rewrite Hone. cbn [outcome world issued].
    destruct (IH (advance w (db w))) as (Ho & Hd & He).
    + now apply reachable_advance.
    + intros filename Hin. cbn [advance db]. apply Hall. now right.
    + cbv zeta in Ho, Hd, He. rewrite Ho, Hd, He. cbn. auto.
Qed.

Lemma runMigrations_eq fs w :
  MigrationService.runMigrations fs w
  = bind MigrationService.createMigrationsTable
         (fun _ => forEach (MigrationService.runMigration fs) (scriptsOf fs)) w.
Proof.
  unfold MigrationService.runMigrations. rewrite rethrow_id.
  unfold scriptsOf, bind. cbv zeta.
  destruct (outcome (MigrationService.createMigrationsTable w)); [| reflexivity].
  destruct (negb (Fs.existsSync fs _)); reflexivity.
Qed.

Lemma createMigrationsTable_monotone : monotone MigrationService.createMigrationsTable.
Proof.
  unfold MigrationService.createMigrationsTable.
  apply monotone_bind; [| intros _; apply monotone_ret].
  intros w. rewrite executeQuery_eq. revert w. apply monotone_execute.
  intros now d r d'. destruct (migrations d) as [rows|] eqn:Hm; intros H.
  - injection H as _ <-. apply ledgerGrows_refl.
  - intros names Hn. unfold ledgerOf in Hn. rewrite Hm in Hn. discriminate.
Qed.

Lemma createMigrationsTable_returned w :
  outcome (MigrationService.createMigrationsTable w) = Returned tt ->
  exists names,
    ledgerOf (db (world (MigrationService.createMigrationsTable w))) = Some names.
Proof.
  unfold MigrationService.createMigrationsTable. intros H.
  apply bind_returned in H. destruct H as (l & Hq & _ & Hw). rewrite Hw. clear Hw.
  cbn [ret world]. rewrite executeQuery_eq in *.
  match goal with
  | |- context [execute ExecuteQuery ?q ?ps ?sem w] =>
      destruct (execute_cases ExecuteQuery q ps sem w)
        as [(r & d' & Hs & Hrun) | (msg & Hrun)]
  end; rewrite Hrun in *; cbn [outcome world advance db] in *; [| discriminate].
  unfold ledgerOf. destruct (migrations (db w)) as [rows|] eqn:Hm.
  - injection Hs as _ <-. rewrite Hm. cbn. eauto.
  - injection Hs as _ <-. cbn. eauto.
Qed.

Lemma createMigrationsTable_noop w names :
  reachable w -> ledgerOf (db w) = Some names ->
  MigrationService.createMigrationsTable w
  = mkRun (Returned tt) (advance w (db w)) [ensureLedger].
Proof.
  intros Hr Hn. unfold MigrationService.createMigrationsTable, bind.
  rewrite executeQuery_eq. unfold ledgerOf in Hn.
  destruct (migrations (db w)) as [rows|] eqn:Hm; [| discriminate].
  erewrite execute_ok; [| assumption | rewrite Hm; reflexivity].
  reflexivity.
Qed.

Lemma inserts_checks files : inserts (ensureLedger :: map ledgerCheck files) = [].
Proof. cbn. induction files as [|file rest IH]; [reflexivity | exact IH]. Qed.

(** C3. The migration runner is idempotent.  After a run that
    completed, a second run on the server as the first one left it
    (reachable, scripts that leave the ledger table alone) returns
    without error, leaves the database, ledger included, exactly as it
    was, and sends nothing but the CREATE TABLE IF NOT EXISTS of the
    ledger and one ledger lookup per script: no statement of any script
    and no INSERT, every script having its ledger entry. *)
Theorem runMigrations_idempotent (fs : Fs.FileSystem) (w : World) :
  scriptsSpareLedger ->
  outcome (MigrationService.runMigrations fs w) = Returned tt ->
  reachable (world (MigrationService.runMigrations fs w)) ->
  let first := MigrationService.runMigrations fs w in
  let second := MigrationService.runMigrations fs (world first) in
  outcome second = Returned tt
  /\ db (world second) = db (world first)
  /\ issued second = ensureLedger :: map ledgerCheck (scriptsOf fs)
  /\ inserts (issued second) = []
  /\ (forall filename, In filename (scriptsOf fs) ->
        recorded filename (db (world first))).
Proof.
  intros Hspare Hdone Hreach first second.
  assert (Hledger : (exists names, ledgerOf (db (world first)) = Some names)
                    /\ forall filename, In filename (scriptsOf fs) ->
                         recorded filename (db (world first))).
  { unfold first. rewrite runMigrations_eq in *.
    apply bind_returned in Hdone. destruct Hdone as ([] & Hcreate & Hloop & Hw).
    rewrite Hw. clear Hw.
    destruct (createMigrationsTable_returned w Hcreate) as (names & Hnames).
    destruct (forEach_records fs (scriptsOf fs) _ Hspare Hloop) as [Hgrow Hall].
    split; [| exact Hall].
    destruct (Hgrow names Hnames) as (names' & Hn' & _). eauto. }
  destruct Hledger as [(names & Hnames) Hall].
  assert (Hsecond : outcome second = Returned tt
                    /\ db (world second) = db (world first)
                    /\ issued second = ensureLedger :: map ledgerCheck (scriptsOf fs)).
  { unfold second. rewrite runMigrations_eq. unfold bind.
    rewrite (createMigrationsTable_noop (world first) names Hreach Hnames).
    cbn [outcome world issued].
    destruct (forEach_skips fs (scriptsOf fs) (advance (world first) (db (world first))))
      as (Ho & Hd & He).
    - now apply reachable_advance.
    - intros filename Hin. cbn [advance db]. now apply Hall.
    - cbv zeta in Ho, Hd, He. rewrite Ho, Hd, He. cbn. auto. }
  destruct Hsecond as (Ho & Hd & He).
  repeat split; try assumption.
  rewrite He. apply inserts_checks.
Qed.

End Runner.

Lemma demo_scripts_spare_ledger : scriptsSpareLedger (platform := Demo.platform).
Proof.
  intros statement d d'. cbn [mysql_run Demo.platform]. unfold Demo.run.
  destruct (Demo.contains _ statement).
  - destruct (users d); intros H; injection H as <-; reflexivity.
  - destruct (Demo.contains _ statement).
    + destruct (customers d); intros H; injection H as <-; reflexivity.
    + destruct (Demo.wordAfter _ statement); [| discriminate].
      destruct (existsb _ _); [discriminate|].
      intros H; injection H as <-; reflexivity.
Qed.

Lemma runMigrations_idempotent_witness :
  outcome (MigrationService.runMigrations (platform := Demo.platform) Demo.sourceTree
             Demo.migrated) = Returned tt
  /\ db (world (MigrationService.runMigrations (platform := Demo.platform)
                  Demo.sourceTree Demo.migrated)) = db Demo.migrated
  /\ issued (MigrationService.runMigrations (platform := Demo.platform)
               Demo.sourceTree Demo.migrated)
     = [ensureLedger; ledgerCheck "001-create-users-table.sql";
        ledgerCheck "002-create-customers-table.sql"].
Proof.
  destruct (runMigrations_idempotent (platform := Demo.platform) Demo.sourceTree
              Demo.fresh demo_scripts_spare_ledger
              ltac:(vm_compute; reflexivity)
              ltac:(unfold reachable; vm_compute; constructor))
    as (Ho & Hd & He & _).
  exact (conj Ho (conj Hd He)).
Defined.

(** ** Runs on a reachable server, call by call *)

Section Steps.
Import DatabaseService.

Lemma bind_run {A B} (m : M A) (f : A -> M B) w a w1 evs :
  m w = mkRun (Returned a) w1 evs ->
  bind m f w = mkRun (outcome (f a w1)) (world (f a w1)) (evs ++ issued (f a w1)).
Proof. intros H. unfold bind. rewrite H. reflexivity. Qed.

Lemma bind_thrown {A B} (m : M A) (f : A -> M B) w e w1 evs :
  m w = mkRun (Thrown e) w1 evs -> bind m f w = mkRun (Thrown e) w1 evs.
Proof. intros H. unfold bind. rewrite H. reflexivity. Qed.

Lemma run_eta {A} (r : Run A) : r = mkRun (outcome r) (world r) (issued r).
Proof. destruct r; reflexivity. Qed.

Lemma executeQuery_run {T} q ps (rows : Database -> option (list T)) w l :
  reachable w -> rows (db w) = Some l ->
  executeQuery q ps (reading rows) w
  = mkRun (Returned l) (advance w (db w)) [mkEvent ExecuteQuery q ps true].
Proof.
  intros Hr Hrows. rewrite executeQuery_eq.
  apply execute_ok; [assumption | unfold reading; now rewrite Hrows].
Qed.

Lemma executeInsert_run q ps sem w r d' :
  reachable w -> sem (clock w) (db w) = Some (r, d') ->
  executeInsert q ps sem w
  = mkRun (Returned r) (advance w d') [mkEvent ExecuteInsert q ps true].
Proof. intros Hr Hs. rewrite executeInsert_eq. now apply execute_ok. Qed.

Lemma executeUpdate_run q ps sem w r d' :
  reachable w -> sem (clock w) (db w) = Some (r, d') ->
  executeUpdate q ps sem w
  = mkRun (Returned r) (advance w d') [mkEvent ExecuteUpdate q ps true].
Proof. intros Hr Hs. rewrite executeUpdate_eq. now apply execute_ok. Qed.

Lemma executeDelete_run q ps sem w r d' :
  reachable w -> sem (clock w) (db w) = Some (r, d') ->
  executeDelete q ps sem w
  = mkRun (Returned r) (advance w d') [mkEvent ExecuteDelete q ps true].
Proof. intros Hr Hs. rewrite executeDelete_eq. now apply execute_ok. Qed.

(** Hashing draws a salt and touches nothing else. *)
Lemma hash_run {platform : Platform} plain rounds w :
  Bcrypt.hash plain rounds w
  = mkRun (Returned (bcrypt_hash plain rounds (entropy w)))
          (mkWorld (db w) (faults w) (clock w) (entropy w + 1)) [].
Proof. reflexivity. Qed.

Lemma reachable_faults w w' : faults w' = faults w -> reachable w -> reachable w'.
Proof. unfold reachable. now intros ->. Qed.

Lemma UserService_findById_missing w id :
  reachable w -> UsersTable.whereId id (db w) = Some [] ->
  UserService.findById id w
  = mkRun (Thrown (NotFoundException
                     ("User with ID " ++ Js.numberToString id ++ " not found")%string))
          (advance w (db w))
          [mkEvent ExecuteQuery
             "SELECT id, username, role, created_at, updated_at FROM users WHERE id = ?"
             [VInt id] true].
Proof.
  intros Hr Hrow. unfold UserService.findById.
  erewrite bind_run;
    [| apply executeQuery_run; [assumption | rewrite Hrow; reflexivity]].
  reflexivity.
Qed.

Lemma CustomerService_findById_missing w id :
  reachable w -> CustomersTable.whereId id (db w) = Some [] ->
  CustomerService.findById id w
  = mkRun (Thrown (NotFoundException
                     ("Customer with ID " ++ Js.numberToString id ++ " not found")%string))
          (advance w (db w))
          [mkEvent ExecuteQuery
             "SELECT id, name, email, phone, company, address, created_at, updated_at FROM customers WHERE id = ?"
             [VInt id] true].
Proof.
  intros Hr Hrow. unfold CustomerService.findById.
  erewrite bind_run;
    [| apply executeQuery_run; [assumption | exact Hrow]].
  reflexivity.
Qed.

End Steps.

(** ** Looking up an id that has no row *)

(** X1. On a reachable server, [findById] of an id that no row of the
    table carries throws NotFoundException (404) with the message
    "User with ID <id> not found" (resp. "Customer with ID <id> not
    found"), after one SELECT and without touching the database; for
    customers this needs a table that has every column the SELECT names
    (company and address among them). *)
Theorem findById_of_unknown_id (w : World) (id : Z) :
  reachable w ->
  (forall rows,
     users (db w) = Some rows ->
     filter (fun r => u_id r =? id) rows = [] ->
     outcome (UserService.findById id w)
     = Thrown (NotFoundException
                 ("User with ID " ++ Js.numberToString id ++ " not found")%string)
     /\ db (world (UserService.findById id w)) = db w
     /\ List.length (issued (UserService.findById id w)) = 1%nat)
  /\ (forall rows,
     customers (db w) = Some rows ->
     customersWide (db w) ->
     filter (fun r => c_id r =? id) rows = [] ->
     outcome (CustomerService.findById id w)
     = Thrown (NotFoundException
                 ("Customer with ID " ++ Js.numberToString id ++ " not found")%string)
     /\ db (world (CustomerService.findById id w)) = db w
     /\ List.length (issued (CustomerService.findById id w)) = 1%nat)
  /\ (forall message, statusCode (NotFoundException message) = 404).
Proof.
  intros Hr. split; [| split].
  - intros rows Hu Hnone.
    rewrite (UserService_findById_missing w id Hr);
      [cbn; auto | unfold UsersTable.whereId; now rewrite Hu, Hnone].
  - intros rows Hc Hwide Hnone.
    rewrite (CustomerService_findById_missing w id Hr);
      [cbn; auto | unfold CustomersTable.whereId; now rewrite Hc, Hwide, Hnone].
  - reflexivity.
Qed.

Lemma findById_of_unknown_id_witness :
  outcome (UserService.findById 42 Demo.stocked)
  = Thrown (NotFoundException "User with ID 42 not found")
  /\ outcome (CustomerService.findById 42 Demo.stocked)
     = Thrown (NotFoundException "Customer with ID 42 not found").
Proof.
  destruct (findById_of_unknown_id Demo.stocked 42
              ltac:(unfold reachable; vm_compute; constructor)) as (Hu & Hc & _).
  destruct (Hu _ ltac:(vm_compute; reflexivity) eq_refl) as (Hu1 & _).
  destruct (Hc _ ltac:(vm_compute; reflexivity) ltac:(vm_compute; reflexivity) eq_refl)
    as (Hc1 & _).
  split; [rewrite Hu1 | rewrite Hc1]; vm_compute; reflexivity.
Defined.

(** ** Creating users *)

Section TableFacts.

Lemma some_row_iff {T} (f : T -> bool) (g : T -> Z) (rows : list T) :
  (0 <? List.length (map g (filter f rows)))%nat = existsb f rows.
Proof.
  induction rows as [|r rest IH]; [reflexivity|].
  cbn [filter existsb]. destruct (f r); [reflexivity | exact IH].
Qed.

Lemma distinct_snoc (l : list string) (x : string) :
  distinct l = true -> existsb (String.eqb x) l = false -> distinct (l ++ [x]) = true.
Proof.
  induction l as [|y rest IH]; cbn; [reflexivity|].
  intros Hd Hx. apply andb_true_iff in Hd. destruct Hd as [Hy Hd].
  apply orb_false_iff in Hx. destruct Hx as [Hxy Hx].
  rewrite existsb_app. cbn [existsb].
  rewrite (String.eqb_sym y x), Hxy. cbn [orb]. rewrite orb_false_r, Hy.
  cbn. now apply IH.
Qed.

Lemma existsb_username name (rows : list UserRow) :
  existsb (String.eqb name) (map u_username rows)
  = existsb (fun r => String.eqb (u_username r) name) rows.
Proof.
  induction rows as [|r rest IH]; [reflexivity|].
  cbn. now rewrite IH, String.eqb_sym.
Qed.

Lemma filter_none {T} (f : T -> bool) (rows : list T) :
  (forall r, In r rows -> f r = false) -> filter f rows = [].
Proof.
  induction rows as [|r rest IH]; [reflexivity|].
  intros H. cbn. rewrite (H r (or_introl eq_refl)). apply IH.
  intros r' Hin. apply H. now right.
Qed.

Lemma below_next_unused (rows : list UserRow) next :
  Forall (fun r => u_id r < next) rows ->
  filter (fun r => u_id r =? next) rows = [].
Proof.
  intros H. apply filter_none. intros r Hin.
  rewrite Forall_forall in H. specialize (H r Hin). apply Z.eqb_neq. lia.
Qed.

Lemma usersSound_insert d rows name password role now :
  users d = Some rows -> usersSound d ->
  existsb (fun r => String.eqb (u_username r) name) rows = false ->
  usersSound
    (with_users d
       (Some (rows ++ [mkUserRow (users_next_id d) name password role now now]))
       (users_next_id d + 1)).
Proof.
  unfold usersSound. intros Hu Hs Hfree. rewrite Hu in Hs.
  destruct Hs as (Hd & Hn & Hb). cbn [users with_users users_next_id].
  repeat split.
  - rewrite map_app. cbn. apply distinct_snoc; [exact Hd |].
    now rewrite existsb_username.
  - rewrite map_app. cbn. apply NoDup_app.
    + exact Hn.
    + repeat constructor. intros [].
    + intros x Hx [<- | []]. apply in_map_iff in Hx. destruct Hx as (r & Hr & Hin).
      rewrite Forall_forall in Hb. specialize (Hb r Hin). lia.
  - apply Forall_app. split.
    + eapply Forall_impl; [| exact Hb]. cbn. intros r Hr. lia.
    + repeat constructor. cbn. lia.
Qed.

End TableFacts.

Section CreateUser.
Import DatabaseService.
Context {platform : Platform}.

Lemma UserService_create_conflict dto w rows :
  reachable w -> users (db w) = Some rows ->
  existsb (fun r => String.eqb (u_username r) (UserService.create_username dto)) rows
  = true ->
  UserService.create dto w
  = mkRun (Thrown (ConflictException "Username already exists")) (advance w (db w))
          [mkEvent ExecuteQuery "SELECT id FROM users WHERE username = ?"
             [VText (UserService.create_username dto)] true].
Proof.
  intros Hr Hu Htaken. unfold UserService.create. cbv zeta.
  erewrite bind_run;
    [| apply executeQuery_run;
       [assumption | unfold UsersTable.whereUsername; rewrite Hu; reflexivity]].
  rewrite some_row_iff, Htaken. reflexivity.
Qed.

Lemma UserService_create_run dto w rows role :
  reachable w -> users (db w) = Some rows -> usersSound (db w) ->
  existsb (fun r => String.eqb (u_username r) (UserService.create_username dto)) rows
  = false ->
  UserService.create_role dto = Some role ->
  let run := UserService.create dto w in
  let row := createdUser dto role w in
  outcome run = Returned (UserService.withoutPassword row)
  /\ db (world run)
     = with_users (db w) (Some (rows ++ [row])) (users_next_id (db w) + 1)
  /\ faults (world run) = tl (tl (tl (faults w)))
  /\ map method (issued run) = [ExecuteQuery; ExecuteInsert; ExecuteQuery].
Proof.
  intros Hr Hu Hs Hfree Hrole. cbv zeta. unfold UserService.create. cbv zeta.
  erewrite bind_run;
    [| apply executeQuery_run;
       [assumption | unfold UsersTable.whereUsername; rewrite Hu; reflexivity]].
  rewrite some_row_iff, Hfree. cbn [outcome world issued].
  erewrite bind_run; [| apply hash_run].
  cbn [outcome world issued advance entropy].
  rewrite Hrole.
  set (w2 := mkWorld _ _ _ _).
  assert (Hr2 : reachable w2) by (exact (reachable_advance w (db w) Hr)).
  erewrite bind_run;
    [| apply executeInsert_run;
       [exact Hr2
       | unfold w2, advance; cbn [db clock]; cbv beta iota;
         unfold UsersTable.insertUser; rewrite Hu, Hfree; reflexivity]].
  cbn [outcome world issued insertId].
  set (d' := with_users _ _ _).
  assert (Hfind : UsersTable.whereId (users_next_id (db w)) d'
                  = Some [createdUser dto role w]).
  { unfold UsersTable.whereId, d'. cbn [users with_users].
    rewrite filter_app. unfold usersSound in Hs. rewrite Hu in Hs.
    destruct Hs as (_ & _ & Hb). rewrite (below_next_unused rows _ Hb).
    cbn. rewrite Z.eqb_refl. reflexivity. }
  rewrite (UserService_findById_found (advance w2 d') (users_next_id (db w))
             (createdUser dto role w) []);
    [| now apply reachable_advance | exact Hfind].
  cbn. auto.
Qed.

Lemma reachable_tl w w' : faults w' = tl (faults w) -> reachable w -> reachable w'.
Proof.
  unfold reachable. intros -> H. destruct (faults w); [constructor | now inversion H].
Qed.

Lemma whereId_created dto role w rows :
  users (db w) = Some rows -> usersSound (db w) ->
  UsersTable.whereId (users_next_id (db w))
    (with_users (db w) (Some (rows ++ [createdUser dto role w]))
                (users_next_id (db w) + 1))
  = Some [createdUser dto role w].
Proof.
  intros Hu Hs. unfold UsersTable.whereId. cbn [users with_users].
  rewrite filter_app. unfold usersSound in Hs. rewrite Hu in Hs.
  destruct Hs as (_ & _ & Hb). rewrite (below_next_unused rows _ Hb).
  cbn. rewrite Z.eqb_refl. reflexivity.
Qed.

(** X2. Creating a user whose username is already taken throws
    ConflictException "Username already exists" (409) after the one
    lookup: nothing is hashed, nothing is inserted, the database is as
    it was. *)
Theorem create_user_with_taken_username
    (dto : UserService.CreateUserDto) (w : World) (rows : list UserRow) :
  reachable w ->
  users (db w) = Some rows ->
  existsb (fun r => String.eqb (u_username r) (UserService.create_username dto)) rows
  = true ->
  let run := UserService.create dto w in
  outcome run = Thrown (ConflictException "Username already exists")
  /\ statusCode (ConflictException "Username already exists") = 409
  /\ db (world run) = db w
  /\ entropy (world run) = entropy w
  /\ inserts (issued run) = [].
Proof.
  intros Hr Hu Htaken. cbv zeta.
  rewrite (UserService_create_conflict dto w rows Hr Hu Htaken). cbn. auto.
Qed.

(** X3. Creating a user with a free username and a role stores exactly
    one new row (next AUTO_INCREMENT id, the username, the bcrypt hash
    of the password with 10 rounds, the role, both timestamps at the time
    of the insert), returns that row without the password, keeps the
    table sound, and a following [findById] of the new id returns the
    same record. *)
Theorem create_user_round_trip
    (dto : UserService.CreateUserDto) (w : World) (rows : list UserRow) (role : Role) :
  reachable w ->
  users (db w) = Some rows ->
  usersSound (db w) ->
  existsb (fun r => String.eqb (u_username r) (UserService.create_username dto)) rows
  = false ->
  UserService.create_role dto = Some role ->
  let run := UserService.create dto w in
  let row := createdUser dto role w in
  outcome run = Returned (UserService.withoutPassword row)
  /\ users (db (world run)) = Some (rows ++ [row])
  /\ usersSound (db (world run))
  /\ outcome (UserService.findById (u_id row) (world run))
     = Returned (UserService.withoutPassword row).
Proof.
  intros Hr Hu Hs Hfree Hrole. cbv zeta.
  destruct (UserService_create_run dto w rows role Hr Hu Hs Hfree Hrole)
    as (Ho & Hd & Hf & _).
  repeat apply conj.
  - exact Ho.
  - rewrite Hd. reflexivity.
  - rewrite Hd. now apply usersSound_insert.
  - rewrite (UserService_findById_found (world (UserService.create dto w))
               (users_next_id (db w)) (createdUser dto role w) []).
    + reflexivity.
    + unfold reachable. rewrite Hf. unfold reachable in Hr.
      destruct (faults w) as [|b1 [|b2 [|b3 fs]]]; cbn; try constructor.
      inversion Hr as [|? ? _ Hr1]; inversion Hr1 as [|? ? _ Hr2];
        now inversion Hr2.
    + rewrite Hd. now apply whereId_created.
Qed.

(** X4. With a sound bcrypt, the credentials given to [create] log in
    straight away: [login] with the same username and password returns
    a token signed over the new id, username and role. *)
Theorem created_user_can_log_in
    (dto : UserService.CreateUserDto) (w : World) (rows : list UserRow) (role : Role) :
  bcryptSound ->
  reachable w ->
  users (db w) = Some rows ->
  usersSound (db w) ->
  existsb (fun r => String.eqb (u_username r) (UserService.create_username dto)) rows
  = false ->
  UserService.create_role dto = Some role ->
  outcome (AuthService.login
             (AuthService.mkLoginDto (UserService.create_username dto)
                                     (UserService.create_password dto))
             (world (UserService.create dto w)))
  = Returned (AuthService.mkLoginResponse
                (jwt_sign (mkJwtPayload (users_next_id (db w))
                                        (UserService.create_username dto) role None None))
                (AuthService.mkUser (users_next_id (db w))
                                    (UserService.create_username dto) role)).
Proof.
  intros Hb Hr Hu Hs Hfree Hrole.
  destruct (UserService_create_run dto w rows role Hr Hu Hs Hfree Hrole)
    as (_ & Hd & Hf & _).
  assert (Hr' : reachable (world (UserService.create dto w))).
  { unfold reachable. rewrite Hf. unfold reachable in Hr.
    destruct (faults w) as [|b1 [|b2 [|b3 fs]]]; cbn; try constructor.
    inversion Hr as [|? ? _ Hr1]; inversion Hr1 as [|? ? _ Hr2]; now inversion Hr2. }
  assert (Hu' : users (db (world (UserService.create dto w)))
                = Some (rows ++ [createdUser dto role w]))
    by (rewrite Hd; reflexivity).
  rewrite (login_of_validateUser _ _ _ _
             (validateUser_reachable _ _ _ _ Hr' Hu')).
  cbn [AuthService.dto_username AuthService.dto_password].
  assert (Hsound : usersSound (db (world (UserService.create dto w))))
    by (rewrite Hd; now apply usersSound_insert).
  unfold usersSound in Hsound. rewrite Hu' in Hsound. destruct Hsound as (Hdist & _).
  change (UserService.create_username dto) with (u_username (createdUser dto role w)) at 1.
  rewrite (distinct_filter_one (createdUser dto role w) _ Hdist)
    by (apply in_or_app; right; now left).
  cbn [u_password createdUser]. rewrite Hb. reflexivity.
Qed.

End CreateUser.

Lemma create_user_with_taken_username_witness :
  outcome (UserService.create (platform := Demo.platform)
             (UserService.mkCreateUserDto "admin" "whatever" (Some viewer)) Demo.seeded)
  = Thrown (ConflictException "Username already exists")
  /\ db (world (UserService.create (platform := Demo.platform)
                  (UserService.mkCreateUserDto "admin" "whatever" (Some viewer))
                  Demo.seeded))
     = db Demo.seeded.
Proof.
  destruct (create_user_with_taken_username (platform := Demo.platform)
              (UserService.mkCreateUserDto "admin" "whatever" (Some viewer)) Demo.seeded
              [mkUserRow 1 "admin" "$2b$10$7$Admin@123" admin 1012 1012]
              ltac:(unfold reachable; vm_compute; constructor)
              ltac:(vm_compute; reflexivity)
              ltac:(vm_compute; reflexivity)) as (Ho & _ & Hd & _).
  exact (conj Ho Hd).
Defined.

(** The stand-in platform of the examples has a sound bcrypt. *)
Lemma substring_whole (s : string) : substring 0 (String.length s) s = s.
Proof. induction s as [|c s IH]; cbn; [reflexivity | now rewrite IH]. Qed.

Lemma substring_after (a b : string) :
  substring (String.length a) (String.length b) (a ++ b)%string = b.
Proof. induction a as [|c a IH]; cbn; [apply substring_whole | exact IH]. Qed.

Lemma length_append (a b : string) :
  String.length (a ++ b)%string = (String.length a + String.length b)%nat.
Proof. induction a as [|c a IH]; cbn; [reflexivity | now rewrite IH]. Qed.

Lemma endsWith_append (a b : string) : Js.endsWith (a ++ b)%string b = true.
Proof.
  unfold Js.endsWith. rewrite length_append.
  replace (String.length a + String.length b - String.length b)%nat
    with (String.length a) by lia.
  rewrite substring_after, String.eqb_refl.
  apply andb_true_iff. split; [apply Nat.leb_le; lia | reflexivity].
Qed.

Lemma append_assoc (a b c : string) : ((a ++ b) ++ c = a ++ (b ++ c))%string.
Proof. induction a as [|x a IH]; cbn; [reflexivity | now rewrite IH]. Qed.

Lemma demo_bcrypt_sound : bcryptSound (platform := Demo.platform).
Proof.
  intros plain rounds salt. cbn [bcrypt_compare bcrypt_hash Demo.platform].
  unfold Demo.compare, Demo.hash.
  rewrite <- !append_assoc. rewrite append_assoc. apply endsWith_append.
Qed.

Lemma demo_seeded_sound : usersSound (db Demo.seeded).
Proof.
  unfold usersSound.
  replace (users (db Demo.seeded))
    with (Some [mkUserRow 1 "admin" "$2b$10$7$Admin@123" admin 1012 1012])
    by (vm_compute; reflexivity).
  split; [reflexivity | split].
  - constructor; [intros [] | constructor].
  - constructor; [vm_compute; reflexivity | constructor].
Qed.

Lemma create_user_round_trip_witness :
  outcome (UserService.create (platform := Demo.platform)
             (UserService.mkCreateUserDto "bob" "secret1" (Some viewer)) Demo.seeded)
  = Returned (UserService.mkUserWithoutPassword 2 "bob" viewer 1014 1014)
  /\ outcome (UserService.findById 2
                (world (UserService.create (platform := Demo.platform)
                          (UserService.mkCreateUserDto "bob" "secret1" (Some viewer))
                          Demo.seeded)))
     = Returned (UserService.mkUserWithoutPassword 2 "bob" viewer 1014 1014).
Proof.
  destruct (create_user_round_trip (platform := Demo.platform)
              (UserService.mkCreateUserDto "bob" "secret1" (Some viewer)) Demo.seeded
              [mkUserRow 1 "admin" "$2b$10$7$Admin@123" admin 1012 1012] viewer
              ltac:(unfold reachable; vm_compute; constructor)
              ltac:(vm_compute; reflexivity)
              demo_seeded_sound
              ltac:(vm_compute; reflexivity)
              eq_refl) as (Ho & _ & _ & Hf).
  split.
  - rewrite Ho. vm_compute. reflexivity.
  - refine (eq_trans Hf _). vm_compute. reflexivity.
Defined.

Lemma created_user_can_log_in_witness :
  outcome (AuthService.login (platform := Demo.platform)
             (AuthService.mkLoginDto "bob" "secret1")
             (world (UserService.create (platform := Demo.platform)
                       (UserService.mkCreateUserDto "bob" "secret1" (Some viewer))
                       Demo.seeded)))
  = Returned (AuthService.mkLoginResponse "jwt.2.bob.viewer"
                (AuthService.mkUser 2 "bob" viewer)).
Proof.
  refine (eq_trans
            (created_user_can_log_in (platform := Demo.platform)
               (UserService.mkCreateUserDto "bob" "secret1" (Some viewer)) Demo.seeded
               [mkUserRow 1 "admin" "$2b$10$7$Admin@123" admin 1012 1012] viewer
               demo_bcrypt_sound _ _ demo_seeded_sound _ eq_refl) _).
  - unfold reachable. vm_compute. constructor.
  - vm_compute. reflexivity.
  - vm_compute. reflexivity.
  - vm_compute. reflexivity.
Defined.

(** ** The profile of a session *)

Section Profile.
Import DatabaseService.
Context {platform : Platform}.

(** [validateUserById] never throws and makes exactly one call. *)
Lemma validateUserById_run userId w :
  exists result ok,
    AuthService.validateUserById userId w
    = mkRun (Returned result) (advance w (db w))
            [mkEvent ExecuteQuery "SELECT id, username, role FROM users WHERE id = ?"
               [VInt userId] ok]
    /\ (ok = false -> result = None)
    /\ (ok = true ->
        exists found, AuthService.selectById userId (db w) = Some found
                      /\ result = hd_error found).
Proof.
  unfold AuthService.validateUserById, try_catch, bind. rewrite executeQuery_eq.
  destruct (execute_cases ExecuteQuery "SELECT id, username, role FROM users WHERE id = ?"
              [VInt userId] (reading (AuthService.selectById userId)) w)
    as [(found & d' & Hs & Hrun) | (msg & Hrun)];
    rewrite Hrun; cbn [outcome world issued].
  - apply reading_some in Hs. destruct Hs as [Hsel ->].
    exists (hd_error found), true. cbn. repeat split; try discriminate.
    intros _. exists found. auto.
  - exists None, false. cbn. repeat split; discriminate.
Qed.

(** Without a row carrying the id, [getProfile] is refused. *)
Lemma getProfile_missing userId w rows :
  users (db w) = Some rows ->
  filter (fun r => u_id r =? userId) rows = [] ->
  outcome (AuthService.getProfile userId w)
  = Thrown (UnauthorizedException "User not found").
Proof.
  intros Hu Hnone.
  destruct (validateUserById_run userId w) as (result & ok & Hrun & Hko & Hok).
  unfold AuthService.getProfile. erewrite bind_run; [| exact Hrun].
  assert (result = None) as ->; [| reflexivity].
  destruct ok; [| now apply Hko].
  destruct (Hok eq_refl) as (found & Hsel & ->).
  unfold AuthService.selectById, UsersTable.whereId in Hsel. rewrite Hu in Hsel.
  cbn in Hsel. injection Hsel as <-. now rewrite Hnone.
Qed.

(** X5. [getProfile] answers with the id, username and role of the row
    carrying the id; in every other case (no such row, users table
    missing, server unreachable) it throws the one exception
    UnauthorizedException "User not found" (401), and it never writes. *)
Theorem getProfile_behaviour (userId : Z) (w : World) :
  (forall e, outcome (AuthService.getProfile userId w) = Thrown e ->
             e = UnauthorizedException "User not found")
  /\ db (world (AuthService.getProfile userId w)) = db w
  /\ (forall rows row rest,
        reachable w -> users (db w) = Some rows ->
        filter (fun r => u_id r =? userId) rows = row :: rest ->
        outcome (AuthService.getProfile userId w)
        = Returned (AuthService.mkUser (u_id row) (u_username row) (u_role row)))
  /\ (forall rows,
        users (db w) = Some rows ->
        filter (fun r => u_id r =? userId) rows = [] ->
        outcome (AuthService.getProfile userId w)
        = Thrown (UnauthorizedException "User not found"))
  /\ (databaseFailure (issued (AuthService.getProfile userId w)) ->
        outcome (AuthService.getProfile userId w)
        = Thrown (UnauthorizedException "User not found")).
Proof.
  destruct (validateUserById_run userId w) as (result & ok & Hrun & Hko & Hok).
  assert (Hget : AuthService.getProfile userId w
                 = mkRun (match result with
                          | None => Thrown (UnauthorizedException "User not found")
                          | Some user => Returned user
                          end)
                         (advance w (db w))
                         [mkEvent ExecuteQuery
                            "SELECT id, username, role FROM users WHERE id = ?"
                            [VInt userId] ok]).
  { unfold AuthService.getProfile. erewrite bind_run; [| exact Hrun].
    destruct result; reflexivity. }
  rewrite Hget. cbn [outcome world issued advance db].
  repeat apply conj.
  - destruct result; intros e H; inversion H; reflexivity.
  - reflexivity.
  - intros rows row rest Hr Hu Hrow.
    assert (ok = true) as ->.
    { pose proof Hrun as Hrun'. revert Hrun'.
      unfold AuthService.validateUserById, try_catch.
      erewrite bind_run;
        [| apply executeQuery_run;
           [assumption
           | unfold AuthService.selectById, UsersTable.whereId; rewrite Hu; reflexivity]].
      cbn. intros H. now injection H. }
    destruct (Hok eq_refl) as (found & Hsel & ->).
    unfold AuthService.selectById, UsersTable.whereId in Hsel. rewrite Hu in Hsel.
    cbn in Hsel. injection Hsel as <-. rewrite Hrow. reflexivity.
  - intros rows Hu Hnone. destruct ok.
    + destruct (Hok eq_refl) as (found & Hsel & ->).
      unfold AuthService.selectById, UsersTable.whereId in Hsel. rewrite Hu in Hsel.
      cbn in Hsel. injection Hsel as <-. rewrite Hnone. reflexivity.
    + now rewrite (Hko eq_refl).
  - intros Hfail. unfold databaseFailure in Hfail.
    inversion Hfail as [ev l Hhd | ev l Htl]; subst; [| inversion Htl].
    cbn in Hhd. now rewrite (Hko Hhd).
Qed.

End Profile.

Lemma getProfile_behaviour_witness :
  outcome (AuthService.getProfile 1 Demo.seeded)
  = Returned (AuthService.mkUser 1 "admin" admin)
  /\ outcome (AuthService.getProfile 2 Demo.seeded)
     = Thrown (UnauthorizedException "User not found")
  /\ outcome (AuthService.getProfile 1 Demo.outage)
     = Thrown (UnauthorizedException "User not found").
Proof.
  pose (stored := mkUserRow 1 "admin" "$2b$10$7$Admin@123" admin 1012 1012).
  split; [| split].
  - destruct (getProfile_behaviour 1 Demo.seeded) as (_ & _ & Hfound & _).
    apply (Hfound [stored] stored []).
    + unfold reachable. vm_compute. constructor.
    + vm_compute. reflexivity.
    + reflexivity.
  - destruct (getProfile_behaviour 2 Demo.seeded) as (_ & _ & _ & Hnone & _).
    apply (Hnone [stored]); vm_compute; reflexivity.
  - destruct (getProfile_behaviour 1 Demo.outage) as (_ & _ & _ & _ & Hfail).
    apply Hfail. vm_compute. apply Exists_cons_hd. reflexivity.
Defined.

(** ** Deleting users *)

Section DeleteUser.
Import DatabaseService.

Lemma filter_filter_none {T} (f : T -> bool) (rows : list T) :
  filter f (filter (fun r => negb (f r)) rows) = [].
Proof.
  apply filter_none. intros r Hin. apply filter_In in Hin.
  destruct Hin as [_ H]. now apply negb_true_iff in H.
Qed.

Lemma some_row_length {T} (f : T -> bool) (rows : list T) row rest :
  filter f rows = row :: rest ->
  (Z.of_nat (List.length (filter f rows)) =? 0) = false.
Proof. intros ->. cbn [List.length]. apply Z.eqb_neq. lia. Qed.

Lemma UserService_delete_run id currentUserId w rows row rest :
  reachable w -> users (db w) = Some rows ->
  filter (fun r => u_id r =? id) rows = row :: rest ->
  id <> currentUserId ->
  let run := UserService.delete id currentUserId w in
  outcome run = Returned tt
  /\ db (world run)
     = with_users (db w) (Some (filter (fun r => negb (u_id r =? id)) rows))
                  (users_next_id (db w))
  /\ faults (world run) = tl (tl (faults w))
  /\ map method (issued run) = [ExecuteQuery; ExecuteDelete].
Proof.
  intros Hr Hu Hrow Hneq. cbv zeta. unfold UserService.delete.
  destruct (Z.eqb_spec id currentUserId) as [Heq | _]; [contradiction|].
  rewrite (bind_run _ _ _ _ _ _
             (UserService_findById_found w id row rest Hr
                ltac:(unfold UsersTable.whereId; rewrite Hu, Hrow; reflexivity))).
  cbn [outcome world issued].
  erewrite bind_run;
    [| apply executeDelete_run;
       [now apply reachable_advance
       | cbn [advance db clock]; unfold UsersTable.delete; rewrite Hu; reflexivity]].
  cbn [outcome world issued delete_affectedRows].
  rewrite (some_row_length _ rows row rest Hrow). cbn. auto.
Qed.

(** X6. Deleting another user's id that has a row returns normally
    after one SELECT and one DELETE; the row is gone and every other row
    is still there; from then on [findById] of the id throws NotFound and
    [getProfile] of the id throws 401 "User not found", so a token issued
    to the deleted user no longer resolves to a profile. *)
Theorem delete_user_then_lookup
    (id currentUserId : Z) (w : World) (rows : list UserRow) (row : UserRow)
    (rest : list UserRow) :
  reachable w ->
  users (db w) = Some rows ->
  filter (fun r => u_id r =? id) rows = row :: rest ->
  id <> currentUserId ->
  let run := UserService.delete id currentUserId w in
  outcome run = Returned tt
  /\ map method (issued run) = [ExecuteQuery; ExecuteDelete]
  /\ (exists rows',
        users (db (world run)) = Some rows'
        /\ forall r, In r rows' <-> In r rows /\ u_id r <> id)
  /\ outcome (UserService.findById id (world run))
     = Thrown (NotFoundException
                 ("User with ID " ++ Js.numberToString id ++ " not found")%string)
  /\ outcome (AuthService.getProfile id (world run))
     = Thrown (UnauthorizedException "User not found").
Proof.
  intros Hr Hu Hrow Hneq. cbv zeta.
  destruct (UserService_delete_run id currentUserId w rows row rest Hr Hu Hrow Hneq)
    as (Ho & Hd & Hf & He).
  assert (Hu' : users (db (world (UserService.delete id currentUserId w)))
                = Some (filter (fun r => negb (u_id r =? id)) rows))
    by (rewrite Hd; reflexivity).
  assert (Hr' : reachable (world (UserService.delete id currentUserId w))).
  { unfold reachable. rewrite Hf. unfold reachable in Hr.
    destruct (faults w) as [|b1 [|b2 fs]]; cbn; try constructor.
    inversion Hr as [|? ? _ Hr1]; now inversion Hr1. }
  repeat apply conj; try assumption.
  - eexists. split; [exact Hu' |]. intros r. rewrite filter_In.
    split; intros [Hin Hid]; split; try assumption.
    + apply negb_true_iff, Z.eqb_neq in Hid. exact Hid.
    + apply negb_true_iff, Z.eqb_neq. exact Hid.
  - rewrite (UserService_findById_missing _ id Hr'); [reflexivity |].
    unfold UsersTable.whereId. rewrite Hu'. now rewrite filter_filter_none.
  - apply (getProfile_missing id _ _ Hu'). apply filter_filter_none.
Qed.

(** X7. Deleting an id that has no row (and is not the caller's own)
    throws NotFoundException naming the id; the existence check is the
    only call made, no DELETE is sent and the database is as it was. *)
Theorem delete_unknown_user (id currentUserId : Z) (w : World) (rows : list UserRow) :
  reachable w ->
  users (db w) = Some rows ->
  filter (fun r => u_id r =? id) rows = [] ->
  id <> currentUserId ->
  let run := UserService.delete id currentUserId w in
  outcome run
  = Thrown (NotFoundException
              ("User with ID " ++ Js.numberToString id ++ " not found")%string)
  /\ map method (issued run) = [ExecuteQuery]
  /\ db (world run) = db w.
Proof.
  intros Hr Hu Hnone Hneq. cbv zeta. unfold UserService.delete.
  destruct (Z.eqb_spec id currentUserId) as [Heq | _]; [contradiction|].
  rewrite (bind_thrown _ _ _ _ _ _
             (UserService_findById_missing w id Hr
                ltac:(unfold UsersTable.whereId; rewrite Hu, Hnone; reflexivity))).
  cbn. auto.
Qed.

End DeleteUser.

Lemma delete_user_then_lookup_witness :
  outcome (UserService.delete 1 7 Demo.seeded) = Returned tt
  /\ outcome (AuthService.getProfile 1 (world (UserService.delete 1 7 Demo.seeded)))
     = Thrown (UnauthorizedException "User not found").
Proof.
  destruct (delete_user_then_lookup 1 7 Demo.seeded
              [mkUserRow 1 "admin" "$2b$10$7$Admin@123" admin 1012 1012]
              (mkUserRow 1 "admin" "$2b$10$7$Admin@123" admin 1012 1012) []
              ltac:(unfold reachable; vm_compute; constructor)
              ltac:(vm_compute; reflexivity)
              eq_refl
              ltac:(discriminate)) as (Ho & _ & _ & _ & Hp).
  exact (conj Ho Hp).
Defined.

Lemma delete_unknown_user_witness :
  outcome (UserService.delete 9 1 Demo.seeded)
  = Thrown (NotFoundException "User with ID 9 not found")
  /\ db (world (UserService.delete 9 1 Demo.seeded)) = db Demo.seeded.
Proof.
  destruct (delete_unknown_user 9 1 Demo.seeded
              [mkUserRow 1 "admin" "$2b$10$7$Admin@123" admin 1012 1012]
              ltac:(unfold reachable; vm_compute; constructor)
              ltac:(vm_compute; reflexivity)
              eq_refl
              ltac:(discriminate)) as (Ho & _ & Hd).
  split; [rewrite Ho; vm_compute; reflexivity | exact Hd].
Defined.

(** ** Updating users *)

Section UpdateUser.
Import DatabaseService.
Context {platform : Platform}.

(** X8. Renaming a user to a username that another user holds throws
    ConflictException "Username already exists" (409) after the two
    lookups: no password is hashed, no UPDATE is sent, the database is as
    it was, whatever else the patch contains. *)
Theorem update_user_with_taken_username
    (id : Z) (dto : UserService.UpdateUserDto) (newName : string) (w : World)
    (rows : list UserRow) (row : UserRow) (rest : list UserRow) (other : UserRow) :
  reachable w ->
  users (db w) = Some rows ->
  filter (fun r => u_id r =? id) rows = row :: rest ->
  UserService.update_username dto = Js.Text newName ->
  newName <> EmptyString ->
  In other rows -> u_username other = newName -> u_id other <> id ->
  let run := UserService.update id dto w in
  outcome run = Thrown (ConflictException "Username already exists")
  /\ map method (issued run) = [ExecuteQuery; ExecuteQuery]
  /\ db (world run) = db w
  /\ entropy (world run) = entropy w.
Proof.
  intros Hr Hu Hrow Hname Hne Hin Hother Hid. cbv zeta. unfold UserService.update.
  rewrite (bind_run _ _ _ _ _ _
             (UserService_findById_found w id row rest Hr
                ltac:(unfold UsersTable.whereId; rewrite Hu, Hrow; reflexivity))).
  cbn [outcome world issued]. cbv zeta. rewrite Hname.
  assert (Htruthy : Js.truthy (Js.Text newName) = true).
  { cbn. destruct (String.eqb_spec newName EmptyString); [contradiction | reflexivity]. }
  rewrite Htruthy. cbn [UserService.text].
  assert (Hex : existsb (fun r => String.eqb (u_username r) newName
                                  && negb (u_id r =? id)) rows = true).
  { apply existsb_exists. exists other. split; [exact Hin |].
    apply andb_true_iff. split.
    - now apply String.eqb_eq.
    - apply negb_true_iff, Z.eqb_neq. exact Hid. }
  match goal with
  | |- context [bind (bind ?q ?k) ?f (advance w (db w))] =>
      assert (Hinner : bind q k (advance w (db w))
                       = mkRun (Thrown (ConflictException "Username already exists"))
                               (advance (advance w (db w)) (db w))
                               [mkEvent ExecuteQuery
                                  "SELECT id FROM users WHERE username = ? AND id != ?"
                                  [VText newName; VInt id] true]);
      [| rewrite (bind_thrown _ f _ _ _ _ Hinner); cbn; auto]
  end.
  erewrite bind_run;
    [| apply executeQuery_run;
       [now apply reachable_advance
       | cbn [advance db]; unfold UsersTable.whereUsernameExcept; rewrite Hu;
         reflexivity]].
  rewrite some_row_iff, Hex. reflexivity.
Qed.

Lemma password_patch_keeps_names id hashed now (rows : list UserRow) :
  map u_username
      (map (fun r => if u_id r =? id
                     then fold_left (UsersTable.assign now)
                            [UsersTable.SetPassword hashed; UsersTable.SetUpdatedAtNow] r
                     else r) rows)
  = map u_username rows.
Proof.
  induction rows as [|r rest IH]; [reflexivity|].
  cbn [map]. rewrite IH. destruct (u_id r =? id); reflexivity.
Qed.

Lemma password_patch_row id hashed now (rows : list UserRow) row :
  In row rows -> u_id row = id ->
  In (mkUserRow (u_id row) (u_username row) hashed (u_role row) (u_created_at row) now)
     (map (fun r => if u_id r =? id
                    then fold_left (UsersTable.assign now)
                           [UsersTable.SetPassword hashed; UsersTable.SetUpdatedAtNow] r
                    else r) rows).
Proof.
  intros Hin Hid. apply in_map_iff. exists row. split; [| exact Hin].
  destruct (Z.eqb_spec (u_id row) id); [reflexivity | contradiction].
Qed.

Lemma password_patch_first id hashed now (rows : list UserRow) row rest :
  filter (fun r => u_id r =? id) rows = row :: rest ->
  exists rest',
    filter (fun r => u_id r =? id)
      (map (fun r => if u_id r =? id
                     then fold_left (UsersTable.assign now)
                            [UsersTable.SetPassword hashed; UsersTable.SetUpdatedAtNow] r
                     else r) rows)
    = mkUserRow (u_id row) (u_username row) hashed (u_role row) (u_created_at row) now
      :: rest'.
Proof.
  revert row rest. induction rows as [|r rows IH]; intros row rest; [discriminate|].
  cbn [filter map]. destruct (u_id r =? id) eqn:E.
  - intros H. injection H as <- _. cbn [fold_left UsersTable.assign u_id].
    rewrite E. eauto.
  - rewrite E. apply IH.
Qed.

(** X9. A patch that carries only a password stores the bcrypt hash of
    it (10 rounds) and the time of the update, leaves id, username, role
    and created_at of the row as they were, and returns the row without
    the password; with a sound bcrypt the user then logs in with the new
    password. *)
Theorem change_password_then_log_in
    (id : Z) (password : string) (w : World) (rows : list UserRow) (row : UserRow)
    (rest : list UserRow) :
  bcryptSound ->
  reachable w ->
  users (db w) = Some rows ->
  usersSound (db w) ->
  filter (fun r => u_id r =? id) rows = row :: rest ->
  password <> EmptyString ->
  let dto := UserService.mkUpdateUserDto Js.Undefined (Js.Text password) None in
  let run := UserService.update id dto w in
  let stored := mkUserRow (u_id row) (u_username row)
                          (bcrypt_hash password 10 (entropy w)) (u_role row)
                          (u_created_at row) (clock w + 1) in
  outcome run = Returned (UserService.withoutPassword stored)
  /\ map method (issued run) = [ExecuteQuery; ExecuteUpdate; ExecuteQuery]
  /\ (exists rows', users (db (world run)) = Some rows' /\ In stored rows'
                    /\ map u_username rows' = map u_username rows)
  /\ outcome (AuthService.login (AuthService.mkLoginDto (u_username row) password)
                (world run))
     = Returned (AuthService.mkLoginResponse
                   (jwt_sign (mkJwtPayload (u_id row) (u_username row) (u_role row)
                                           None None))
                   (AuthService.mkUser (u_id row) (u_username row) (u_role row))).
Proof.
  intros Hb Hr Hu Hs Hrow Hne. cbv zeta.
  assert (Hin : In row rows /\ u_id row = id).
  { assert (H : In row (filter (fun r => u_id r =? id) rows))
      by (rewrite Hrow; now left).
    apply filter_In in H. destruct H as [H1 H2]. split; [exact H1 |].
    now apply Z.eqb_eq. }
  destruct Hin as [Hin Hid].
  set (hashed := bcrypt_hash password 10 (entropy w)).
  set (rows' := map (fun r => if u_id r =? id
                              then fold_left (UsersTable.assign (clock w + 1))
                                     [UsersTable.SetPassword hashed;
                                      UsersTable.SetUpdatedAtNow] r
                              else r) rows).
  set (d' := with_users (db w) (Some rows') (users_next_id (db w))).
  assert (Hdist : distinct (map u_username rows) = true).
  { unfold usersSound in Hs. rewrite Hu in Hs. now destruct Hs. }
  assert (Hrun : UserService.update id
                   (UserService.mkUpdateUserDto Js.Undefined (Js.Text password) None) w
                 = mkRun (Returned (UserService.withoutPassword
                                      (mkUserRow (u_id row) (u_username row) hashed
                                                 (u_role row) (u_created_at row)
                                                 (clock w + 1))))
                         (advance (advance (mkWorld (db w) (tl (faults w)) (clock w + 1)
                                                    (entropy w + 1)) d') d')
                         (issued (UserService.update id
                                    (UserService.mkUpdateUserDto Js.Undefined
                                       (Js.Text password) None) w))
                   /\ map method (issued (UserService.update id
                                    (UserService.mkUpdateUserDto Js.Undefined
                                       (Js.Text password) None) w))
                      = [ExecuteQuery; ExecuteUpdate; ExecuteQuery]).
  { unfold UserService.update.
    rewrite (bind_run _ _ _ _ _ _
               (UserService_findById_found w id row rest Hr
                  ltac:(unfold UsersTable.whereId; rewrite Hu, Hrow; reflexivity))).
    cbn [outcome world issued]. cbv zeta.
    cbn [UserService.update_username UserService.update_password
         UserService.update_role Js.truthy].
    assert (Htruthy : negb (String.eqb password EmptyString) = true).
    { destruct (String.eqb_spec password EmptyString); [contradiction | reflexivity]. }
    rewrite Htruthy.
    erewrite bind_run; [| reflexivity].
    cbn [outcome world issued].
    erewrite bind_run; [| erewrite bind_run; [| apply hash_run]; reflexivity].
    cbn [outcome world issued app List.length Nat.eqb UserService.text advance
         entropy db faults clock ret].
    fold hashed.
    destruct (password_patch_first id hashed (clock w + 1) rows row rest Hrow)
      as (rest' & Hfirst).
    erewrite bind_run;
      [| apply executeUpdate_run;
         [exact (reachable_advance w (db w) Hr)
         | cbn [db clock]; unfold UsersTable.update; rewrite Hu;
           rewrite password_patch_keeps_names, Hdist; reflexivity]].
    cbn [outcome world issued].
    fold rows'. fold d'.
    rewrite (UserService_findById_found _ id
               (mkUserRow (u_id row) (u_username row) hashed (u_role row)
                          (u_created_at row) (clock w + 1)) rest');
      [| apply reachable_advance; exact (reachable_advance w (db w) Hr)
       | unfold UsersTable.whereId; cbn [advance db d' users with_users];
         unfold rows'; rewrite Hfirst; reflexivity].
    cbn. auto. }
  destruct Hrun as [Hrun Hev]. rewrite Hrun. cbn [outcome world issued].
  repeat apply conj.
  - reflexivity.
  - exact Hev.
  - exists rows'. cbn [advance db d' users with_users]. repeat split.
    + unfold rows'. now apply password_patch_row.
    + apply password_patch_keeps_names.
  - set (w' := advance _ d').
    assert (Hr' : reachable w').
    { unfold w'. apply reachable_advance, reachable_advance.
      exact (reachable_advance w (db w) Hr). }
    assert (Hu' : users (db w') = Some rows') by reflexivity.
    rewrite (login_of_validateUser _ _ _ _
               (validateUser_reachable _ _ _ _ Hr' Hu')).
    cbn [AuthService.dto_username AuthService.dto_password].
    assert (Hdist' : distinct (map u_username rows') = true).
    { unfold rows'. now rewrite password_patch_keeps_names. }
    pose proof (password_patch_row id hashed (clock w + 1) rows row Hin Hid) as Hin'.
    fold rows' in Hin'.
    pose proof (distinct_filter_one _ rows' Hdist' Hin') as Hone.
    cbn [u_username] in Hone. rewrite Hone. cbn [u_password].
    unfold hashed. rewrite Hb. reflexivity.
Qed.

End UpdateUser.

Lemma withBob_users :
  users (db withBob)
  = Some [mkUserRow 1 "admin" "$2b$10$7$Admin@123" admin 1012 1012;
          mkUserRow 2 "bob" "$2b$10$8$secret1" viewer 1014 1014].
Proof. vm_compute. reflexivity. Qed.

Lemma withBob_reachable : reachable withBob.
Proof. unfold reachable. vm_compute. constructor. Qed.

Lemma withBob_sound : usersSound (db withBob).
Proof.
  unfold usersSound. rewrite withBob_users.
  split; [reflexivity | split].
  - constructor; [| constructor; [intros [] | constructor]].
    intros [H | []]. discriminate.
  - repeat constructor; vm_compute; reflexivity.
Qed.

Lemma update_user_with_taken_username_witness :
  outcome (UserService.update (platform := Demo.platform) 2
             (UserService.mkUpdateUserDto (Js.Text "admin") (Js.Text "another1") None)
             withBob)
  = Thrown (ConflictException "Username already exists")
  /\ db (world (UserService.update (platform := Demo.platform) 2
                  (UserService.mkUpdateUserDto (Js.Text "admin") (Js.Text "another1")
                                               None)
                  withBob))
     = db withBob.
Proof.
  destruct (update_user_with_taken_username (platform := Demo.platform) 2
              (UserService.mkUpdateUserDto (Js.Text "admin") (Js.Text "another1") None)
              "admin" withBob _
              (mkUserRow 2 "bob" "$2b$10$8$secret1" viewer 1014 1014) []
              (mkUserRow 1 "admin" "$2b$10$7$Admin@123" admin 1012 1012)
              withBob_reachable withBob_users eq_refl eq_refl
              ltac:(discriminate) ltac:(now left) eq_refl ltac:(discriminate))
    as (Ho & _ & Hd & _).
  exact (conj Ho Hd).
Defined.

Lemma change_password_then_log_in_witness :
  outcome (AuthService.login (platform := Demo.platform)
             (AuthService.mkLoginDto "bob" "changed1")
             (world (UserService.update (platform := Demo.platform) 2
                       (UserService.mkUpdateUserDto Js.Undefined (Js.Text "changed1")
                                                    None)
                       withBob)))
  = Returned (AuthService.mkLoginResponse "jwt.2.bob.viewer"
                (AuthService.mkUser 2 "bob" viewer)).
Proof.
  destruct (change_password_then_log_in (platform := Demo.platform) 2 "changed1"
              withBob _
              (mkUserRow 2 "bob" "$2b$10$8$secret1" viewer 1014 1014) []
              demo_bcrypt_sound withBob_reachable withBob_users withBob_sound
              eq_refl ltac:(discriminate)) as (_ & _ & _ & Hlogin).
  exact Hlogin.
Defined.

(** ** Customers *)

Section Customers.
Import DatabaseService.

(** On a table that has the eight columns, each statement of
    [CustomerService] is answered. *)
Lemma hasColumns_incl columns columns' d :
  incl columns columns' ->
  CustomersTable.hasColumns columns' d = true ->
  CustomersTable.hasColumns columns d = true.
Proof.
  unfold CustomersTable.hasColumns. rewrite !forallb_forall.
  intros Hincl H c Hin. apply H, Hincl, Hin.
Qed.

Lemma whereId_wide d rows id :
  customers d = Some rows -> customersWide d ->
  CustomersTable.whereId id d = Some (filter (fun r => c_id r =? id) rows).
Proof.
  intros Hc Hwide. unfold CustomersTable.whereId. now rewrite Hc, Hwide.
Qed.

Lemma page_wide d rows limit offset :
  customers d = Some rows -> customersWide d ->
  CustomersTable.page limit offset d
  = limitOffset limit offset (orderByDesc c_created_at rows).
Proof.
  intros Hc Hwide. unfold CustomersTable.page. now rewrite Hc, Hwide.
Qed.

Lemma insertCustomer_wide d rows name email phone company address now :
  customers d = Some rows -> customersWide d ->
  CustomersTable.insertCustomer name email phone company address now d
  = Some (mkInsertResult (customers_next_id d) 1,
          with_customers d
            (Some (rows ++ [mkCustomerRow (customers_next_id d) name email (Some phone)
                                          company address now now]))
            (customers_next_id d + 1)).
Proof.
  intros Hc Hwide. unfold CustomersTable.insertCustomer. rewrite Hc.
  rewrite (hasColumns_incl CustomersTable.insertList CustomersTable.selectList d);
    [reflexivity | | exact Hwide].
  intros c Hin. unfold CustomersTable.insertList, CustomersTable.selectList in *.
  simpl In in *. tauto.
Qed.

Lemma update_wide fields id now d rows :
  customers d = Some rows -> customersWide d ->
  CustomersTable.update fields id now d
  = match CustomersTable.updateRows fields id now rows with
    | Some rows' =>
        Some (mkUpdateResult
                (Z.of_nat (List.length (filter (fun r => c_id r =? id) rows)))
                (Z.of_nat (List.length (filter (fun r => c_id r =? id) rows))),
              with_customers d (Some rows') (customers_next_id d))
    | None => None
    end.
Proof.
  intros Hc Hwide. unfold CustomersTable.update. rewrite Hc. cbv zeta.
  rewrite (hasColumns_incl _ CustomersTable.selectList d); [reflexivity | | exact Hwide].
  intros c Hin. apply in_app_or in Hin. unfold CustomersTable.selectList.
  destruct Hin as [Hin | Hin].
  - apply in_map_iff in Hin. destruct Hin as (a & <- & _).
    destruct a; simpl; tauto.
  - simpl In in *. tauto.
Qed.

Lemma delete_wide id now d rows :
  customers d = Some rows -> customersWide d ->
  CustomersTable.delete id now d
  = Some (mkDeleteResult (Z.of_nat (List.length (filter (fun r => c_id r =? id) rows))),
          with_customers d (Some (filter (fun r => negb (c_id r =? id)) rows))
                         (customers_next_id d)).
Proof.
  intros Hc Hwide. unfold CustomersTable.delete. rewrite Hc. cbv zeta.
  rewrite (hasColumns_incl ["id"] CustomersTable.selectList d);
    [reflexivity | | exact Hwide].
  intros c Hin. unfold CustomersTable.selectList. simpl In in *. tauto.
Qed.

(** No statement of the service changes the columns of the table. *)
Lemma customersWide_with_customers d t next :
  customersWide d -> customersWide (with_customers d t next).
Proof. intros H. exact H. Qed.

Lemma customers_below_next_unused (rows : list CustomerRow) next :
  Forall (fun r => c_id r < next) rows ->
  filter (fun r => c_id r =? next) rows = [].
Proof.
  intros H. apply filter_none. intros r Hin.
  rewrite Forall_forall in H. specialize (H r Hin). apply Z.eqb_neq. lia.
Qed.

Lemma customersSound_insert d rows row :
  customers d = Some rows -> customersSound d -> c_id row = customers_next_id d ->
  customersSound (with_customers d (Some (rows ++ [row])) (customers_next_id d + 1)).
Proof.
  unfold customersSound. intros Hc Hs Hid. rewrite Hc in Hs.
  destruct Hs as (Hn & Hb). cbn [customers with_customers customers_next_id].
  split.
  - rewrite map_app. cbn. apply NoDup_app.
    + exact Hn.
    + repeat constructor. intros [].
    + intros x Hx [<- | []]. apply in_map_iff in Hx. destruct Hx as (r & Hr & Hin).
      rewrite Forall_forall in Hb. specialize (Hb r Hin). lia.
  - apply Forall_app. split.
    + eapply Forall_impl; [| exact Hb]. cbn. intros r Hr. lia.
    + repeat constructor. lia.
Qed.

(** X10. Creating a customer stores exactly one new row: the next
    AUTO_INCREMENT id, the name, email and phone given, company and
    address as given or NULL when absent, null or the empty string, both
    timestamps at the time of the insert.  The row is what [create]
    returns and what a following [findById] of the new id returns.
    All this on a customers table that has the eight columns the
    statements name, company and address among them. *)
Theorem create_customer_round_trip
    (dto : CustomerService.CreateCustomerDto) (w : World) (rows : list CustomerRow) :
  reachable w ->
  customers (db w) = Some rows ->
  customersWide (db w) ->
  customersSound (db w) ->
  let run := CustomerService.create dto w in
  let row := createdCustomer dto w in
  outcome run = Returned row
  /\ map method (issued run) = [ExecuteInsert; ExecuteQuery]
  /\ customers (db (world run)) = Some (rows ++ [row])
  /\ customersSound (db (world run))
  /\ outcome (CustomerService.findById (c_id row) (world run)) = Returned row
  /\ (CustomerService.create_company dto = Js.Undefined
      \/ CustomerService.create_company dto = Js.Null
      \/ CustomerService.create_company dto = Js.Text EmptyString ->
      c_company row = None)
  /\ (forall s, CustomerService.create_company dto = Js.Text s -> s <> EmptyString ->
                c_company row = Some s).
Proof.
  intros Hr Hc Hwide Hs. cbv zeta.
  set (row := createdCustomer dto w).
  set (d' := with_customers (db w) (Some (rows ++ [row])) (customers_next_id (db w) + 1)).
  assert (Hfind : CustomersTable.whereId (customers_next_id (db w)) d' = Some [row]).
  { rewrite (whereId_wide d' (rows ++ [row]));
      [| reflexivity | exact (customersWide_with_customers _ _ _ Hwide)].
    rewrite filter_app. unfold customersSound in Hs. rewrite Hc in Hs.
    destruct Hs as (_ & Hb). rewrite (customers_below_next_unused rows _ Hb).
    cbn. rewrite Z.eqb_refl. reflexivity. }
  assert (Hrun : CustomerService.create dto w
                 = mkRun (Returned row) (advance (advance w d') d')
                         (issued (CustomerService.create dto w))
                   /\ map method (issued (CustomerService.create dto w))
                      = [ExecuteInsert; ExecuteQuery]).
  { unfold CustomerService.create. cbv zeta.
    erewrite bind_run;
      [| apply executeInsert_run;
         [assumption | exact (insertCustomer_wide _ rows _ _ _ _ _ _ Hc Hwide)]].
    cbn [outcome world issued insertId]. fold row. fold d'.
    rewrite (CustomerService_findById_found (advance w d') _ row []);
      [| now apply reachable_advance | exact Hfind].
    cbn. auto. }
  destruct Hrun as [Hrun Hev]. rewrite Hrun. cbn [outcome world issued advance db].
  split; [| split; [| split; [| split; [| split; [| split]]]]].
  - reflexivity.
  - exact Hev.
  - reflexivity.
  - unfold d'. now apply customersSound_insert.
  - rewrite (CustomerService_findById_found _ (customers_next_id (db w)) row []).
    + reflexivity.
    + now apply reachable_advance, reachable_advance.
    + exact Hfind.
  - unfold row, createdCustomer. cbn [c_company]. intros [-> | [-> | ->]]; reflexivity.
  - unfold row, createdCustomer. cbn [c_company]. intros s -> Hne. cbn.
    destruct (String.eqb_spec s EmptyString); [contradiction | reflexivity].
Qed.

End Customers.

Lemma create_customer_round_trip_witness :
  outcome (CustomerService.create Demo.johnDoe Demo.widened)
  = Returned (mkCustomerRow 1 "John Doe" "john@x.com" (Some "555-0100") None None
                            1013 1013)
  /\ outcome (CustomerService.findById 1
                (world (CustomerService.create Demo.johnDoe Demo.widened)))
     = Returned (mkCustomerRow 1 "John Doe" "john@x.com" (Some "555-0100") None None
                               1013 1013).
Proof.
  destruct (create_customer_round_trip Demo.johnDoe Demo.widened []
              ltac:(unfold reachable; vm_compute; constructor)
              ltac:(vm_compute; reflexivity)
              ltac:(vm_compute; reflexivity)
              ltac:(unfold customersSound;
                    replace (customers (db Demo.widened)) with (Some (@nil CustomerRow))
                      by (vm_compute; reflexivity);
                    split; constructor))
    as (Ho & _ & _ & _ & Hf & _).
  split.
  - refine (eq_trans Ho _). vm_compute. reflexivity.
  - refine (eq_trans Hf _). vm_compute. reflexivity.
Defined.

Section UpdateCustomer.
Import DatabaseService.

(** What [update] does once some field of the patch is defined. *)
Lemma CustomerService_update_defined id dto :
  definesSomething dto = true ->
  exists q ps,
    CustomerService.update id dto
    = bind (CustomerService.findById id)
           (fun _ => bind (executeUpdate q ps
                             (CustomersTable.update (customerFields dto) id))
                          (fun _ => CustomerService.findById id)).
Proof.
  destruct dto as [n e p c a]. unfold definesSomething, customerFields,
    CustomerService.update.
  cbn [CustomerService.update_name CustomerService.update_email
       CustomerService.update_phone CustomerService.update_company
       CustomerService.update_address].
  destruct n, e, p, c, a; cbn; intros H; try discriminate;
    eexists; eexists; reflexivity.
Qed.

Lemma customerFields_fold dto now row :
  CustomerService.update_name dto <> Js.Null ->
  CustomerService.update_email dto <> Js.Null ->
  fold_left (CustomersTable.assign now) (customerFields dto) (Some row)
  = Some (patchedCustomer dto now row).
Proof.
  destruct dto as [n e p c a]. unfold customerFields, patchedCustomer.
  cbn [CustomerService.update_name CustomerService.update_email
       CustomerService.update_phone CustomerService.update_company
       CustomerService.update_address].
  intros Hn He.
  destruct n; try contradiction; destruct e; try contradiction;
    destruct p, c, a; reflexivity.
Qed.

Lemma updateRows_patched fields id now (g : CustomerRow -> CustomerRow) rows :
  (forall r, fold_left (CustomersTable.assign now) fields (Some r) = Some (g r)) ->
  CustomersTable.updateRows fields id now rows
  = Some (map (fun r => if c_id r =? id then g r else r) rows).
Proof.
  intros Hg. induction rows as [|r rest IH]; [reflexivity|].
  cbn [CustomersTable.updateRows map]. rewrite IH.
  destruct (c_id r =? id); [rewrite Hg |]; reflexivity.
Qed.

Lemma filter_patched id (g : CustomerRow -> CustomerRow) rows :
  (forall r, c_id (g r) = c_id r) ->
  filter (fun r => c_id r =? id) (map (fun r => if c_id r =? id then g r else r) rows)
  = map g (filter (fun r => c_id r =? id) rows).
Proof.
  intros Hg. induction rows as [|r rest IH]; [reflexivity|].
  cbn [map filter]. destruct (c_id r =? id) eqn:E.
  - rewrite Hg, E. cbn [map]. now rewrite IH.
  - rewrite E. exact IH.
Qed.

(** X11. A patch with at least one defined field (name and email not
    null) is applied to the row of the id and to nothing else: the
    fields the patch leaves undefined keep their stored values, the
    others take the values given (an empty company or address becoming
    NULL), updated_at becomes the time of the UPDATE, id and created_at
    stay; every other row is untouched.  [update] returns the patched
    row after a SELECT, the UPDATE and a second SELECT.  All this on a
    customers table that has the eight columns the statements name,
    company and address among them. *)
Theorem update_customer_patch
    (id : Z) (dto : CustomerService.UpdateCustomerDto) (w : World)
    (rows : list CustomerRow) (row : CustomerRow) (rest : list CustomerRow) :
  reachable w ->
  customers (db w) = Some rows ->
  customersWide (db w) ->
  filter (fun r => c_id r =? id) rows = row :: rest ->
  definesSomething dto = true ->
  CustomerService.update_name dto <> Js.Null ->
  CustomerService.update_email dto <> Js.Null ->
  let run := CustomerService.update id dto w in
  outcome run = Returned (patchedCustomer dto (clock w + 1) row)
  /\ map method (issued run) = [ExecuteQuery; ExecuteUpdate; ExecuteQuery]
  /\ customers (db (world run))
     = Some (map (fun r => if c_id r =? id
                           then patchedCustomer dto (clock w + 1) r else r) rows)
  /\ (forall r, In r rows -> c_id r <> id ->
        exists rows', customers (db (world run)) = Some rows' /\ In r rows').
Proof.
  intros Hr Hc Hwide Hrow Hdef Hn He. cbv zeta.
  destruct (CustomerService_update_defined id dto Hdef) as (q & ps & ->).
  set (g := patchedCustomer dto (clock w + 1)).
  set (rows' := map (fun r => if c_id r =? id then g r else r) rows).
  set (d' := with_customers (db w) (Some rows') (customers_next_id (db w))).
  rewrite (bind_run _ _ _ _ _ _
             (CustomerService_findById_found w id row rest Hr
                ltac:(rewrite (whereId_wide _ rows id Hc Hwide), Hrow; reflexivity))).
  cbn [outcome world issued].
  erewrite bind_run;
    [| apply executeUpdate_run;
       [now apply reachable_advance
       | cbn [advance db clock]; rewrite (update_wide _ _ _ _ rows Hc Hwide);
         rewrite (updateRows_patched _ id (clock w + 1) g rows
                    (fun r => customerFields_fold dto (clock w + 1) r Hn He));
         reflexivity]].
  cbn [outcome world issued]. fold rows'. fold d'.
  rewrite (CustomerService_findById_found _ id (g row) (map g rest));
    [| now apply reachable_advance, reachable_advance
     | cbn [advance db];
       rewrite (whereId_wide d' rows' id eq_refl
                  (customersWide_with_customers _ _ _ Hwide));
       unfold rows'; rewrite filter_patched by reflexivity; rewrite Hrow; reflexivity].
  cbn [outcome world issued advance db app map method d' customers with_customers].
  repeat apply conj; try reflexivity.
  intros r Hin Hid. eexists. split; [reflexivity |].
  unfold rows'. apply in_map_iff. exists r. split; [| exact Hin].
  destruct (Z.eqb_spec (c_id r) id); [contradiction | reflexivity].
Qed.

(** X12. Deleting a customer id that has a row returns normally after
    one SELECT and one DELETE, removes the rows of that id and no other,
    and a following [findById] of the id throws NotFound; deleting an id
    that has no row throws NotFound after the SELECT alone, no DELETE
    being sent.  All this on a customers table that has the eight
    columns the SELECT names, company and address among them. *)
Theorem delete_customer_then_lookup (id : Z) (w : World) (rows : list CustomerRow) :
  reachable w ->
  customers (db w) = Some rows ->
  customersWide (db w) ->
  let run := CustomerService.delete id w in
  (forall row rest,
      filter (fun r => c_id r =? id) rows = row :: rest ->
      outcome run = Returned tt
      /\ map method (issued run) = [ExecuteQuery; ExecuteDelete]
      /\ customers (db (world run))
         = Some (filter (fun r => negb (c_id r =? id)) rows)
      /\ outcome (CustomerService.findById id (world run))
         = Thrown (NotFoundException
                     ("Customer with ID " ++ Js.numberToString id ++ " not found")%string))
  /\ (filter (fun r => c_id r =? id) rows = [] ->
      outcome run
      = Thrown (NotFoundException
                  ("Customer with ID " ++ Js.numberToString id ++ " not found")%string)
      /\ map method (issued run) = [ExecuteQuery]
      /\ db (world run) = db w).
Proof.
  intros Hr Hc Hwide. cbv zeta. split.
  - intros row rest Hrow. unfold CustomerService.delete.
    rewrite (bind_run _ _ _ _ _ _
               (CustomerService_findById_found w id row rest Hr
                  ltac:(rewrite (whereId_wide _ rows id Hc Hwide), Hrow; reflexivity))).
    cbn [outcome world issued].
    erewrite bind_run;
      [| apply executeDelete_run;
         [now apply reachable_advance
         | cbn [advance db clock]; exact (delete_wide id _ _ rows Hc Hwide)]].
    cbn [outcome world issued delete_affectedRows].
    rewrite (some_row_length _ rows row rest Hrow).
    cbn [outcome world issued ret advance db app map method customers with_customers].
    repeat apply conj; try reflexivity.
    rewrite (CustomerService_findById_missing _ id); [reflexivity | |].
    + now apply reachable_advance, reachable_advance.
    + cbn [advance db].
      rewrite (whereId_wide
                 (with_customers (db w) (Some (filter (fun r => negb (c_id r =? id)) rows))
                                 (customers_next_id (db w)))
                 (filter (fun r => negb (c_id r =? id)) rows) id eq_refl
                 (customersWide_with_customers _ _ _ Hwide)).
      now rewrite filter_filter_none.
  - intros Hnone. unfold CustomerService.delete.
    rewrite (bind_thrown _ _ _ _ _ _
               (CustomerService_findById_missing w id Hr
                  ltac:(rewrite (whereId_wide _ rows id Hc Hwide), Hnone; reflexivity))).
    cbn. auto.
Qed.

End UpdateCustomer.

Lemma stocked_customers :
  customers (db Demo.stocked)
  = Some [mkCustomerRow 1 "John Doe" "john@x.com" (Some "555-0100") None None
                        1013 1013].
Proof. vm_compute. reflexivity. Qed.

Lemma stocked_reachable : reachable Demo.stocked.
Proof. unfold reachable. vm_compute. constructor. Qed.

Lemma stocked_wide : customersWide (db Demo.stocked).
Proof. vm_compute. reflexivity. Qed.

Lemma update_customer_patch_witness :
  outcome (CustomerService.update 1
             (CustomerService.mkUpdateCustomerDto
                Js.Undefined Js.Undefined (Js.Text "555-0199") (Js.Text EmptyString)
                Js.Undefined)
             Demo.stocked)
  = Returned (mkCustomerRow 1 "John Doe" "john@x.com" (Some "555-0199") None None
                            1013 1016).
Proof.
  destruct (update_customer_patch 1
              (CustomerService.mkUpdateCustomerDto
                 Js.Undefined Js.Undefined (Js.Text "555-0199") (Js.Text EmptyString)
                 Js.Undefined)
              Demo.stocked _
              (mkCustomerRow 1 "John Doe" "john@x.com" (Some "555-0100") None None
                             1013 1013) []
              stocked_reachable stocked_customers stocked_wide eq_refl eq_refl
              ltac:(discriminate) ltac:(discriminate)) as (Ho & _).
  refine (eq_trans Ho _). vm_compute. reflexivity.
Defined.

Lemma delete_customer_then_lookup_witness :
  outcome (CustomerService.delete 1 Demo.stocked) = Returned tt
  /\ outcome (CustomerService.findById 1 (world (CustomerService.delete 1 Demo.stocked)))
     = Thrown (NotFoundException "Customer with ID 1 not found")
  /\ outcome (CustomerService.delete 5 Demo.stocked)
     = Thrown (NotFoundException "Customer with ID 5 not found").
Proof.
  destruct (delete_customer_then_lookup 1 Demo.stocked _
              stocked_reachable stocked_customers stocked_wide) as (Hfound & _).
  destruct (Hfound _ [] eq_refl) as (Ho & _ & _ & Hf).
  destruct (delete_customer_then_lookup 5 Demo.stocked _
              stocked_reachable stocked_customers stocked_wide) as (_ & Hnone).
  destruct (Hnone eq_refl) as (Ho5 & _).
  split; [exact Ho | split].
  - refine (eq_trans Hf _). vm_compute. reflexivity.
  - refine (eq_trans Ho5 _). vm_compute. reflexivity.
Defined.

(** ** What the methods keep *)

Section Keeping.
Import DatabaseService.

Lemma keeps_ret {A} I (a : A) : keeps I (ret a).
Proof. intros w H. exact H. Qed.

Lemma keeps_throw {A} I (e : Exception) : keeps I (throw (A := A) e).
Proof. intros w H. exact H. Qed.

Lemma keeps_bind {A B} I (m : M A) (f : A -> M B) :
  keeps I m -> (forall a, keeps I (f a)) -> keeps I (bind m f).
Proof.
  intros Hm Hf w H. unfold bind. destruct (outcome (m w)) as [a|e]; cbn [world].
  - apply Hf, Hm, H.
  - apply Hm, H.
Qed.

Lemma keeps_try_catch {A} I (m : M A) (handler : Exception -> M A) :
  keeps I m -> (forall e, keeps I (handler e)) -> keeps I (try_catch m handler).
Proof.
  intros Hm Hh w H. unfold try_catch.
  destruct (outcome (m w)) as [a|e]; cbn [world].
  - apply Hm, H.
  - apply Hh, Hm, H.
Qed.

Lemma keeps_execute {R} I how q ps (sem : Z -> Database -> option (R * Database)) :
  (forall now d r d', I d -> sem now d = Some (r, d') -> I d') ->
  keeps I (execute how q ps sem).
Proof.
  intros Hsem w H.
  destruct (execute_cases how q ps sem w) as [(r & d' & Hs & ->) | (msg & ->)];
    cbn [world advance db].
  - eapply Hsem; eassumption.
  - exact H.
Qed.

Lemma keeps_executeQuery {T} I q ps (sem : Z -> Database -> option (list T * Database)) :
  (forall now d r d', I d -> sem now d = Some (r, d') -> I d') ->
  keeps I (executeQuery q ps sem).
Proof. intros H w. rewrite executeQuery_eq. revert w. now apply keeps_execute. Qed.

Lemma keeps_reading {T} I q ps (rows : Database -> option (list T)) :
  keeps I (executeQuery q ps (reading rows)).
Proof.
  apply keeps_executeQuery. intros now d r d' H Hs.
  apply reading_some in Hs. destruct Hs as [_ ->]. exact H.
Qed.

Lemma keeps_executeInsert I q ps sem :
  (forall now d r d', I d -> sem now d = Some (r, d') -> I d') ->
  keeps I (executeInsert q ps sem).
Proof. intros H w. rewrite executeInsert_eq. revert w. now apply keeps_execute. Qed.

Lemma keeps_executeUpdate I q ps sem :
  (forall now d r d', I d -> sem now d = Some (r, d') -> I d') ->
  keeps I (executeUpdate q ps sem).
Proof. intros H w. rewrite executeUpdate_eq. revert w. now apply keeps_execute. Qed.

Lemma keeps_executeDelete I q ps sem :
  (forall now d r d', I d -> sem now d = Some (r, d') -> I d') ->
  keeps I (executeDelete q ps sem).
Proof. intros H w. rewrite executeDelete_eq. revert w. now apply keeps_execute. Qed.

Lemma keeps_hash {platform : Platform} I plain rounds :
  keeps I (Bcrypt.hash plain rounds).
Proof. intros w H. exact H. Qed.

Lemma keeps_compare {platform : Platform} I plain hashed :
  keeps I (Bcrypt.compare plain hashed).
Proof. intros w H. exact H. Qed.

Lemma keeps_ping I : keeps I ping.
Proof.
  apply keeps_execute. intros now d r d' H Hs. injection Hs as _ <-. exact H.
Qed.

Lemma readOnly_keeps {A} (m : M A) :
  (forall d0, keeps (fun d => d = d0) m) -> readOnly m.
Proof. intros H w. apply (H (db w) w). reflexivity. Qed.

End Keeping.

Ltac keeping :=
  repeat first
    [ progress intros
    | apply keeps_ret
    | apply keeps_throw
    | apply keeps_reading
    | apply keeps_hash
    | apply keeps_compare
    | apply keeps_ping
    | apply keeps_bind
    | apply keeps_try_catch
    | match goal with
      | |- keeps _ (if ?b then _ else _) => destruct b
      | |- keeps _ (match ?x with _ => _ end) => destruct x
      end ].

Section ReadOnly.
Context {platform : Platform}.

(** X13. The read operations never write: [findAll] and [findById] of
    both services, [validateUser], [login], [validateUserById],
    [getProfile], [checkConnection] and both readiness reports leave the
    database exactly as they found it, whether they return or throw. *)
Theorem reads_leave_the_database_alone :
  (forall q, readOnly (UserService.findAll q))
  /\ (forall id, readOnly (UserService.findById id))
  /\ (forall q, readOnly (CustomerService.findAll q))
  /\ (forall id, readOnly (CustomerService.findById id))
  /\ (forall name password, readOnly (AuthService.validateUser name password))
  /\ (forall dto, readOnly (AuthService.login dto))
  /\ (forall id, readOnly (AuthService.validateUserById id))
  /\ (forall id, readOnly (AuthService.getProfile id))
  /\ readOnly DatabaseService.checkConnection
  /\ (forall config, readOnly (HealthService.getReadinessStatus config))
  /\ (forall config, readOnly (HealthServiceWithDatabase.getReadinessStatus config)).
Proof.
  repeat apply conj; intros; apply readOnly_keeps; intros d0.
  - unfold UserService.findAll. cbv zeta. keeping.
  - unfold UserService.findById. keeping.
  - unfold CustomerService.findAll. cbv zeta. keeping.
  - unfold CustomerService.findById. keeping.
  - unfold AuthService.validateUser. keeping.
  - unfold AuthService.login, AuthService.validateUser. keeping.
  - unfold AuthService.validateUserById. keeping.
  - unfold AuthService.getProfile, AuthService.validateUserById. keeping.
  - unfold DatabaseService.checkConnection. keeping.
  - intros w H. exact H.
  - unfold HealthServiceWithDatabase.getReadinessStatus,
      HealthServiceWithDatabase.checkDatabase, DatabaseService.checkConnection.
    apply keeps_bind; [keeping |]. intros s w H. exact H.
Qed.

End ReadOnly.

(** ** The customers table as the scripts create it *)

Section MissingColumns.
Import DatabaseService Pagination.

Lemma execute_refused {R} how q ps (sem : Z -> Database -> option (R * Database)) w :
  reachable w -> sem (clock w) (db w) = None ->
  execute how q ps sem w
  = mkRun (Thrown (DriverError "statement rejected by the server"))
          (advance w (db w)) [mkEvent how q ps false].
Proof.
  intros Hr Hs. apply reachable_no_fault in Hr. unfold execute.
  destruct (faults w) as [|[|] fs]; try contradiction; rewrite Hs; reflexivity.
Qed.

Lemma hasColumns_missing columns columns' d :
  incl columns columns' ->
  CustomersTable.hasColumns columns d = false ->
  CustomersTable.hasColumns columns' d = false.
Proof.
  intros Hincl Hmiss.
  destruct (CustomersTable.hasColumns columns' d) eqn:E; [| reflexivity].
  rewrite (hasColumns_incl columns columns' d Hincl E) in Hmiss. discriminate.
Qed.

Lemma CustomerService_findById_refused w rows id :
  reachable w -> customers (db w) = Some rows ->
  CustomersTable.hasColumns ["company"; "address"] (db w) = false ->
  refusedAtOnce w (CustomerService.findById id w).
Proof.
  intros Hr Hc Hmiss. unfold CustomerService.findById.
  erewrite bind_thrown.
  2:{ rewrite executeQuery_eq. apply execute_refused; [assumption |].
      unfold reading, CustomersTable.whereId. rewrite Hc.
      rewrite (hasColumns_missing ["company"; "address"] CustomersTable.selectList);
        [reflexivity | | exact Hmiss].
      intros c Hin. unfold CustomersTable.selectList. simpl In in *. tauto. }
  repeat split.
Qed.

(** X14. On a reachable server whose customers table lacks company or
    address (the table the migration script creates has neither), the
    server refuses the first statement of [create], [findById], [update]
    and [delete]: each throws the driver's error (500) after that single
    refused statement, whatever its arguments, and [findAll] throws it
    after the count has succeeded and the page SELECT was refused.
    Nothing is written. *)
Theorem customers_refused_without_columns (w : World) (rows : list CustomerRow) :
  reachable w ->
  customers (db w) = Some rows ->
  CustomersTable.hasColumns ["company"; "address"] (db w) = false ->
  (forall dto, refusedAtOnce w (CustomerService.create dto w))
  /\ (forall id, refusedAtOnce w (CustomerService.findById id w))
  /\ (forall id dto, refusedAtOnce w (CustomerService.update id dto w))
  /\ (forall id, refusedAtOnce w (CustomerService.delete id w))
  /\ (forall q,
        outcome (CustomerService.findAll q w)
        = Thrown (DriverError "statement rejected by the server")
        /\ map fulfilled (issued (CustomerService.findAll q w)) = [true; false]
        /\ db (world (CustomerService.findAll q w)) = db w)
  /\ statusCode (DriverError "statement rejected by the server") = 500.
Proof.
  intros Hr Hc Hmiss.
  assert (Hfind : forall id, refusedAtOnce w (CustomerService.findById id w))
    by (intros id; exact (CustomerService_findById_refused w rows id Hr Hc Hmiss)).
  assert (Hthen : forall A (k : CustomerService.Customer -> M A) id,
             refusedAtOnce w (bind (CustomerService.findById id) k w)).
  { intros A k id. destruct (Hfind id) as (Ho & Hev & Hd).
    unfold refusedAtOnce, bind.
    destruct (CustomerService.findById id w) as [[a|e] w1 evs];
      cbn [outcome world issued] in *; [discriminate |].
    injection Ho as ->. repeat split; assumption. }
  repeat apply conj.
  - intros dto. unfold CustomerService.create. cbv zeta.
    erewrite bind_thrown.
    2:{ rewrite executeInsert_eq. apply execute_refused; [assumption |].
        unfold CustomersTable.insertCustomer. rewrite Hc.
        rewrite (hasColumns_missing ["company"; "address"] CustomersTable.insertList);
          [reflexivity | | exact Hmiss].
        intros c Hin. unfold CustomersTable.insertList. simpl In in *. tauto. }
    repeat split.
  - exact Hfind.
  - intros id dto. unfold CustomerService.update. apply Hthen.
  - intros id. unfold CustomerService.delete. apply Hthen.
  - intros q. unfold CustomerService.findAll. cbv zeta.
    erewrite bind_run;
      [| apply executeQuery_run;
         [assumption | unfold CustomersTable.count; rewrite Hc; reflexivity]].
    cbn [outcome world issued].
    erewrite bind_thrown.
    2:{ rewrite executeQuery_eq. apply execute_refused;
          [now apply reachable_advance |].
        unfold reading, CustomersTable.page. cbn [advance db]. rewrite Hc.
        rewrite (hasColumns_missing ["company"; "address"] CustomersTable.selectList);
          [reflexivity | | exact Hmiss].
        intros c Hin. unfold CustomersTable.selectList. simpl In in *. tauto. }
    repeat split.
  - reflexivity.
Qed.

End MissingColumns.

Lemma customers_refused_without_columns_witness :
  outcome (CustomerService.create Demo.johnDoe Demo.seeded)
  = Thrown (DriverError "statement rejected by the server")
  /\ outcome (CustomerService.findById 1 Demo.seeded)
     = Thrown (DriverError "statement rejected by the server")
  /\ outcome (CustomerService.findAll None Demo.seeded)
     = Thrown (DriverError "statement rejected by the server").
Proof.
  destruct (customers_refused_without_columns Demo.seeded []
              ltac:(unfold reachable; vm_compute; constructor)
              ltac:(vm_compute; reflexivity)
              ltac:(vm_compute; reflexivity))
    as (Hcreate & Hfind & _ & _ & Hall & _).
  split; [exact (proj1 (Hcreate Demo.johnDoe)) | split].
  - exact (proj1 (Hfind 1)).
  - exact (proj1 (Hall None)).
Defined.

(** ** Stopping at the first failure *)

Section FailFast.
Import DatabaseService.

Lemma failFast_ret {A} (a : A) : failFast (ret a).
Proof. intros w. left. constructor. Qed.

Lemma failFast_throw {A} (e : Exception) : failFast (throw (A := A) e).
Proof. intros w. left. constructor. Qed.

Lemma failFast_bind {A B} (m : M A) (f : A -> M B) :
  failFast m -> (forall a, failFast (f a)) -> failFast (bind m f).
Proof.
  intros Hm Hf w. unfold bind.
  destruct (Hm w) as [Hall | (before & ev & msg & Hev & Hbefore & Hko & Hthrown)].
  - destruct (outcome (m w)) as [a|e]; cbn [outcome issued].
    + destruct (Hf a (world (m w)))
        as [Hall' | (before & ev & msg & Hev & Hbefore & Hko & Hthrown)].
      * left. apply Forall_app. split; assumption.
      * right. exists (issued (m w) ++ before), ev, msg.
        rewrite Hev, app_assoc. repeat split; try assumption.
        apply Forall_app. split; assumption.
    + left. exact Hall.
  - rewrite Hthrown. cbn [outcome issued]. right. exists before, ev, msg. auto.
Qed.

Lemma failFast_execute {R} how q ps (sem : Z -> Database -> option (R * Database)) :
  failFast (execute how q ps sem).
Proof.
  intros w.
  destruct (execute_cases how q ps sem w) as [(r & d' & _ & ->) | (msg & ->)];
    cbn [outcome issued].
  - left. repeat constructor.
  - right. exists [], (mkEvent how q ps false), msg. repeat split. constructor.
Qed.

Lemma failFast_rethrow {A} (m : M A) :
  failFast m -> failFast (try_catch m (fun error => throw error)).
Proof. intros Hm w. rewrite rethrow_id. apply Hm. Qed.

Lemma failFast_executeQuery {T} q ps
    (sem : Z -> Database -> option (list T * Database)) :
  failFast (executeQuery q ps sem).
Proof. apply failFast_rethrow, failFast_execute. Qed.

Lemma failFast_executeInsert q ps sem : failFast (executeInsert q ps sem).
Proof. apply failFast_rethrow, failFast_execute. Qed.

Lemma failFast_executeUpdate q ps sem : failFast (executeUpdate q ps sem).
Proof. apply failFast_rethrow, failFast_execute. Qed.

Lemma failFast_executeDelete q ps sem : failFast (executeDelete q ps sem).
Proof. apply failFast_rethrow, failFast_execute. Qed.

Lemma failFast_hash {platform : Platform} plain rounds :
  failFast (Bcrypt.hash plain rounds).
Proof. intros w. left. constructor. Qed.

Lemma failFast_forEach {A} (body : A -> M unit) (xs : list A) :
  (forall x, failFast (body x)) -> failFast (forEach body xs).
Proof.
  intros Hb. induction xs as [|x rest IH]; cbn [forEach].
  - apply failFast_ret.
  - apply failFast_bind; [apply Hb | intros _; exact IH].
Qed.

Lemma failFast_readFileSync fs at_ filename :
  failFast (Fs.readFileSync fs at_ filename).
Proof.
  unfold Fs.readFileSync. destruct (Fs.directory fs at_) as [dir|].
  - destruct (Fs.lookup filename dir); [apply failFast_ret | apply failFast_throw].
  - apply failFast_throw.
Qed.

End FailFast.

Ltac failing_fast :=
  repeat first
    [ lazymatch goal with
      | |- failFast _ => fail
      | |- _ => progress intros
      end
    | apply failFast_ret
    | apply failFast_throw
    | apply failFast_executeQuery
    | apply failFast_executeInsert
    | apply failFast_executeUpdate
    | apply failFast_executeDelete
    | apply failFast_hash
    | apply failFast_readFileSync
    | apply failFast_forEach
    | apply failFast_rethrow
    | apply failFast_bind
    | match goal with
      | |- failFast (if ?b then _ else _) => destruct b
      | |- failFast (match ?x with _ => _ end) => destruct x
      end ].

Section FailFastMethods.
Context {platform : Platform}.

(** X15. The migration runner, the seeder and every method of the
    user and customer services stop at the first database call that
    fails: that call is the last one they make (no later statement, no
    ledger INSERT, no later script) and the driver's error is what they
    throw. *)
Theorem methods_stop_at_first_failure :
  (forall fs, failFast (MigrationService.runMigrations fs))
  /\ (forall fs filename, failFast (MigrationService.runMigration fs filename))
  /\ failFast MigrationService.seedDefaultAdmin
  /\ (forall q, failFast (UserService.findAll q))
  /\ (forall id, failFast (UserService.findById id))
  /\ (forall dto, failFast (UserService.create dto))
  /\ (forall id dto, failFast (UserService.update id dto))
  /\ (forall id currentUserId, failFast (UserService.delete id currentUserId))
  /\ (forall q, failFast (CustomerService.findAll q))
  /\ (forall id, failFast (CustomerService.findById id))
  /\ (forall dto, failFast (CustomerService.create dto))
  /\ (forall id dto, failFast (CustomerService.update id dto))
  /\ (forall id, failFast (CustomerService.delete id)).
Proof.
  assert (Hone : forall fs filename,
             failFast (MigrationService.runMigration fs filename)).
  { intros fs filename. unfold MigrationService.runMigration. cbv zeta. failing_fast. }
  repeat apply conj; intros.
  - unfold MigrationService.runMigrations, MigrationService.createMigrationsTable.
    cbv zeta. apply failFast_rethrow. apply failFast_bind; [failing_fast |].
    intros _. destruct (negb _); [apply failFast_ret |].
    apply failFast_forEach. intros file. apply Hone.
  - apply Hone.
  - unfold MigrationService.seedDefaultAdmin. failing_fast.
  - unfold UserService.findAll. cbv zeta. failing_fast.
  - unfold UserService.findById. failing_fast.
  - unfold UserService.create. cbv zeta. failing_fast.
  - unfold UserService.update. cbv zeta. failing_fast.
  - unfold UserService.delete. failing_fast.
  - unfold CustomerService.findAll. cbv zeta. failing_fast.
  - unfold CustomerService.findById. failing_fast.
  - unfold CustomerService.create. cbv zeta. failing_fast.
  - unfold CustomerService.update. cbv zeta. failing_fast.
  - unfold CustomerService.delete. failing_fast.
Qed.

End FailFastMethods.

(** ** The order of the scripts *)

Section ScriptOrder.

Lemma insertSorted_sorted x l :
  Sorted (fun a b => String.leb a b = true) l ->
  Sorted (fun a b => String.leb a b = true) (Js.insertSorted x l).
Proof.
  induction l as [|y rest IH]; cbn [Js.insertSorted]; intros Hs.
  - repeat constructor.
  - destruct (String.leb x y) eqn:E.
    + constructor; [exact Hs | constructor; exact E].
    + inversion Hs as [|? ? Hrest Hhd]; subst. constructor; [now apply IH |].
      destruct rest as [|z rest']; cbn [Js.insertSorted].
      * constructor. destruct (String.leb_total x y) as [H | H]; congruence.
      * destruct (String.leb x z).
        -- constructor. destruct (String.leb_total x y) as [H | H]; congruence.
        -- inversion Hhd; subst. now constructor.
Qed.

Lemma sort_sorted l : Sorted (fun a b => String.leb a b = true) (Js.sort l).
Proof.
  unfold Js.sort. induction l as [|x rest IH]; cbn [fold_right].
  - constructor.
  - now apply insertSorted_sorted.
Qed.

Lemma insertSorted_perm x l : Permutation (x :: l) (Js.insertSorted x l).
Proof.
  induction l as [|y rest IH]; cbn [Js.insertSorted]; [reflexivity|].
  destruct (String.leb x y); [reflexivity|].
  etransitivity; [apply perm_swap |]. now constructor.
Qed.

Lemma sort_perm l : Permutation l (Js.sort l).
Proof.
  unfold Js.sort. induction l as [|x rest IH]; cbn [fold_right]; [constructor|].
  etransitivity; [| apply insertSorted_perm]. now constructor.
Qed.

(** The scripts are the files of the migrations directory whose name
    ends in .sql, each once per directory entry, in ascending order. *)
Lemma scriptsOf_spec fs dir :
  Fs.directory fs
    (if negb (Fs.existsSync fs Fs.DirnameMigrations)
     then Fs.CwdSrcMigrations else Fs.DirnameMigrations) = Some dir ->
  Sorted (fun a b => String.leb a b = true) (scriptsOf fs)
  /\ Permutation (filter (fun file => Js.endsWith file ".sql") (map fst dir))
                 (scriptsOf fs).
Proof.
  intros Hdir. unfold scriptsOf. cbv zeta.
  set (at_ := if negb (Fs.existsSync fs Fs.DirnameMigrations)
              then Fs.CwdSrcMigrations else Fs.DirnameMigrations) in *.
  assert (Hex : Fs.existsSync fs at_ = true) by (unfold Fs.existsSync; now rewrite Hdir).
  rewrite Hex. unfold Fs.readdirSync. rewrite Hdir. cbn [negb].
  split; [apply sort_sorted | apply sort_perm].
Qed.

End ScriptOrder.

(** ** What a run records *)

Section Recording.
Import DatabaseService.
Context {platform : Platform}.

Lemma ledger_kept_by_reading {T} L q ps (rows : Database -> option (list T)) :
  keeps (fun d => ledgerOf d = L) (executeQuery q ps (reading rows)).
Proof. apply keeps_reading. Qed.

Lemma ledger_kept_by_statements L (statements : list string) :
  scriptsSpareLedger ->
  keeps (fun d => ledgerOf d = L)
        (forEach (fun statement =>
                    executeQuery statement [] (MigrationService.scriptStatement statement)
                    ;;; ret tt) statements).
Proof.
  intros Hspare. induction statements as [|s rest IH]; cbn [forEach].
  - apply keeps_ret.
  - apply keeps_bind; [| intros _; exact IH].
    apply keeps_bind; [| intros _; apply keeps_ret].
    apply keeps_executeQuery. intros now d r d' H.
    unfold MigrationService.scriptStatement.
    destruct (mysql_run s d) as [d1|] eqn:Hrun; [| discriminate].
    intros Heq. injection Heq as _ <-. unfold ledgerOf in *.
    now rewrite (Hspare s d d1 Hrun).
Qed.

Lemma ledger_kept_by_readFileSync L fs at_ filename :
  keeps (fun d => ledgerOf d = L) (Fs.readFileSync fs at_ filename).
Proof.
  unfold Fs.readFileSync. destruct (Fs.directory fs at_) as [dir|].
  - destruct (Fs.lookup filename dir); [apply keeps_ret | apply keeps_throw].
  - apply keeps_throw.
Qed.

Lemma bind_settled {A B} (m : M A) (f : A -> M B) w :
  (exists e, outcome (m w) = Thrown e
             /\ outcome (bind m f w) = Thrown e
             /\ world (bind m f w) = world (m w))
  \/ (exists a, outcome (m w) = Returned a
                /\ outcome (bind m f w) = outcome (f a (world (m w)))
                /\ world (bind m f w) = world (f a (world (m w)))).
Proof.
  unfold bind. destruct (outcome (m w)) as [a|e]; [right | left]; eauto.
Qed.

Lemma executeInsert_settled q ps sem w :
  (exists r d', sem (clock w) (db w) = Some (r, d')
                /\ outcome (executeInsert q ps sem w) = Returned r
                /\ db (world (executeInsert q ps sem w)) = d')
  \/ (exists e, outcome (executeInsert q ps sem w) = Thrown e
                /\ db (world (executeInsert q ps sem w)) = db w).
Proof.
  rewrite executeInsert_eq.
  destruct (execute_cases ExecuteInsert q ps sem w) as [(r & d' & Hs & ->) | (msg & ->)];
    cbn [outcome world advance db]; [left | right]; eauto.
Qed.

(** One script, on a ledger that may or may not list it: what the
    ledger is afterwards. *)
Lemma runMigration_ledger fs filename w names :
  scriptsSpareLedger ->
  ledgerOf (db w) = Some names ->
  let run := MigrationService.runMigration fs filename w in
  (In filename names -> ledgerOf (db (world run)) = Some names)
  /\ (~ In filename names ->
      (outcome run = Returned tt /\ ledgerOf (db (world run)) = Some (names ++ [filename]))
      \/ ((exists e, outcome run = Thrown e)
          /\ ledgerOf (db (world run)) = Some names)).
Proof.
  intros Hspare Hnames. cbv zeta. unfold MigrationService.runMigration.
  set (select := executeQuery _ _ _).
  pose proof (ledger_kept_by_reading (Some names)
                "SELECT id FROM migrations WHERE filename = ?" [VText filename]
                (MigrationService.selectMigration filename) w Hnames) as Hsel.
  fold select in Hsel.
  cbv beta in Hsel.
  match goal with
  | |- context [bind select ?k w] =>
      destruct (bind_settled select k w)
        as [(e & Hq & Ho & Hw) | (existing & Hq & Ho & Hw)]
  end.
  - rewrite Ho, Hw. split; [intros _; exact Hsel |].
    intros _. right. split; [eauto | exact Hsel].
  - rewrite Ho, Hw. clear Ho Hw.
    unfold select in Hq. apply executeQuery_returned in Hq.
    destruct Hq as [Hfound Hworld]. fold select in Hworld.
    assert (Hlen : (0 <? List.length existing)%nat = true <-> In filename names).
    { unfold MigrationService.selectMigration in Hfound.
      unfold ledgerOf in Hnames. destruct (migrations (db w)) as [rows|]; [| discriminate].
      cbn in Hnames. injection Hnames as <-. injection Hfound as <-.
      rewrite some_row_iff. rewrite existsb_exists. split.
      - intros (r & Hin & Heq). apply String.eqb_eq in Heq. rewrite <- Heq.
        now apply in_map.
      - intros Hin. apply in_map_iff in Hin. destruct Hin as (r & Heq & Hin).
        exists r. split; [exact Hin | now apply String.eqb_eq]. }
    destruct (0 <? List.length existing)%nat eqn:E.
    + cbn [ret outcome world]. split; [intros _; exact Hsel |].
      intros Hnot. exfalso. apply Hnot. now apply Hlen.
    + split; [intros Hin; apply Hlen in Hin; discriminate |]. intros _.
      rewrite rethrow_id. cbv zeta.
      set (w1 := world (select w)) in *.
      set (at_ := if Fs.existsFileSync fs Fs.DirnameMigrations filename
                  then Fs.DirnameMigrations else Fs.CwdSrcMigrations).
      pose proof (ledger_kept_by_readFileSync (Some names) fs at_ filename w1 Hsel)
        as Hread.
      match goal with
      | |- context [bind (Fs.readFileSync fs at_ filename) ?k w1] =>
          destruct (bind_settled (Fs.readFileSync fs at_ filename) k w1)
            as [(e & Hq & Ho & Hw) | (sql & Hq & Ho & Hw)]
      end; rewrite Ho, Hw; clear Ho Hw.
      { right. split; [eauto | exact Hread]. }
      set (w2 := world (Fs.readFileSync fs at_ filename w1)) in *.
      pose proof (ledger_kept_by_statements (Some names)
                    (MigrationService.statementsOf sql) Hspare w2 Hread) as Hstmts.
      match goal with
      | |- context [bind (forEach ?body ?l) ?k w2] =>
          destruct (bind_settled (forEach body l) k w2)
            as [(e & Hq' & Ho & Hw) | (u & Hq' & Ho & Hw)]
      end; rewrite Ho, Hw; clear Ho Hw.
      { right. split; [eauto | exact Hstmts]. }
      match goal with
      | |- context [bind (executeInsert ?q ?ps ?sem) ?k ?w3] =>
          destruct (bind_settled (executeInsert q ps sem) k w3)
            as [(e & Hq'' & Ho & Hw) | (res & Hq'' & Ho & Hw)];
          destruct (executeInsert_settled q ps sem w3)
            as [(r & d' & Hs & Hret & Hdb) | (e' & Hthrown & Hdb)]
      end; rewrite Ho, Hw; clear Ho Hw; try congruence.
      * right. split; [eauto |]. rewrite Hdb. exact Hstmts.
      * left. cbn [ret outcome world]. split; [reflexivity |].
        rewrite Hdb. destruct (insertMigration_grows _ _ _ _ _ Hs) as [_ _].
        unfold MigrationService.insertMigration in Hs.
        unfold ledgerOf in Hstmts |- *.
        destruct (migrations (db _)) as [rows|] eqn:Hm; [| discriminate].
        destruct (existsb _ rows); [discriminate|].
        injection Hs as _ <-. cbn [migrations with_migrations option_map].
        cbn in Hstmts. injection Hstmts as <-. now rewrite map_app.
Qed.

End Recording.

Section RunnerLedger.
Import DatabaseService.
Context {platform : Platform}.

(** X16. A script that fails is not marked as executed: when
    [runMigration] throws (a statement refused, the server lost, the
    file unreadable), the ledger is exactly what it was before, so the
    next start finds the script still pending. *)
Theorem failed_script_is_not_recorded
    (fs : Fs.FileSystem) (filename : string) (w : World) (names : list string)
    (e : Exception) :
  scriptsSpareLedger ->
  ledgerOf (db w) = Some names ->
  outcome (MigrationService.runMigration fs filename w) = Thrown e ->
  ledgerOf (db (world (MigrationService.runMigration fs filename w))) = Some names.
Proof.
  intros Hspare Hnames Hthrown.
  destruct (runMigration_ledger fs filename w names Hspare Hnames) as [Hin Hout].
  destruct (in_dec string_dec filename names) as [Hyes | Hno]; [now apply Hin |].
  destruct (Hout Hno) as [[Hret _] | [_ Hsame]]; [congruence | exact Hsame].
Qed.

Lemma ascii_compare_refl (c : ascii) : Ascii.compare c c = Eq.
Proof.
  pose proof (Ascii.compare_antisym c c) as H.
  destruct (Ascii.compare c c); [reflexivity | discriminate | discriminate].
Qed.

Lemma string_compare_refl (s : string) : String.compare s s = Eq.
Proof.
  pose proof (String.compare_antisym s s) as H.
  destruct (String.compare s s); [reflexivity | discriminate | discriminate].
Qed.

Lemma string_compare_lt_trans (a b c : string) :
  String.compare a b = Lt -> String.compare b c = Lt -> String.compare a c = Lt.
Proof.
  revert b c. induction a as [|x a IHa]; intros [|y b] [|z c];
    cbn; try discriminate; try reflexivity.
  destruct (Ascii.compare x y) eqn:Exy; try discriminate;
    destruct (Ascii.compare y z) eqn:Eyz; try discriminate; intros H1 H2.
  - apply Ascii.compare_eq_iff in Exy, Eyz. subst.
    rewrite ascii_compare_refl. eapply IHa; eassumption.
  - apply Ascii.compare_eq_iff in Exy. subst. now rewrite Eyz.
  - apply Ascii.compare_eq_iff in Eyz. subst. now rewrite Exy.
  - assert (Ascii.compare x z = Lt) as ->; [| reflexivity].
    unfold Ascii.compare in *. rewrite N.compare_lt_iff in *. lia.
Qed.

Lemma string_leb_trans (a b c : string) :
  String.leb a b = true -> String.leb b c = true -> String.leb a c = true.
Proof.
  unfold String.leb.
  destruct (String.compare a b) eqn:Eab; destruct (String.compare b c) eqn:Ebc;
    try discriminate; intros _ _.
  - apply String.compare_eq_iff in Eab, Ebc. subst. now rewrite string_compare_refl.
  - apply String.compare_eq_iff in Eab. subst. now rewrite Ebc.
  - apply String.compare_eq_iff in Ebc. subst. now rewrite Eab.
  - now rewrite (string_compare_lt_trans a b c).
Qed.

Lemma existsb_In (f : string) names : existsb (String.eqb f) names = true <-> In f names.
Proof.
  rewrite existsb_exists. split.
  - intros (x & Hin & Heq). apply String.eqb_eq in Heq. now subst.
  - intros Hin. exists f. split; [exact Hin | apply String.eqb_refl].
Qed.

Lemma pendingIn_snoc names f rest :
  ~ In f rest -> pendingIn (names ++ [f]) rest = pendingIn names rest.
Proof.
  intros Hnot. unfold pendingIn. apply filter_ext_in. intros g Hg.
  rewrite existsb_app. cbn [existsb]. rewrite orb_false_r.
  destruct (String.eqb_spec g f) as [-> | _]; [contradiction |].
  now rewrite orb_false_r.
Qed.

Lemma forEach_ledger fs files w names :
  scriptsSpareLedger -> NoDup files -> ledgerOf (db w) = Some names ->
  outcome (forEach (MigrationService.runMigration fs) files w) = Returned tt ->
  ledgerOf (db (world (forEach (MigrationService.runMigration fs) files w)))
  = Some (names ++ pendingIn names files).
Proof.
  intros Hspare. revert w names.
  induction files as [|f rest IH]; intros w names Hnd Hnames Hdone.
  - cbn. now rewrite app_nil_r.
  - cbn [forEach] in *. apply bind_returned in Hdone.
    destruct Hdone as ([] & Hf & Hrest & Hw). rewrite Hw. clear Hw.
    inversion Hnd as [|? ? Hnot Hnd']; subst.
    destruct (runMigration_ledger fs f w names Hspare Hnames) as [Hin Hout].
    unfold pendingIn. cbn [filter]. fold (pendingIn names rest).
    destruct (existsb (String.eqb f) names) eqn:E; cbn [negb].
    + apply existsb_In in E. now apply IH; [| apply Hin |].
    + assert (Hno : ~ In f names).
      { intros Hyes. apply existsb_In in Hyes. congruence. }
      destruct (Hout Hno) as [[_ Hled] | [(e & He) _]]; [| congruence].
      rewrite (IH _ (names ++ [f]) Hnd' Hled Hrest).
      rewrite pendingIn_snoc by assumption. now rewrite <- app_assoc.
Qed.

Lemma createMigrationsTable_ledger w :
  outcome (MigrationService.createMigrationsTable w) = Returned tt ->
  ledgerOf (db (world (MigrationService.createMigrationsTable w)))
  = Some (match ledgerOf (db w) with Some names => names | None => [] end).
Proof.
  unfold MigrationService.createMigrationsTable. intros H.
  apply bind_returned in H. destruct H as (l & Hq & _ & Hw). rewrite Hw. clear Hw.
  cbn [ret world]. rewrite executeQuery_eq in *.
  match goal with
  | |- context [execute ExecuteQuery ?q ?ps ?sem w] =>
      destruct (execute_cases ExecuteQuery q ps sem w)
        as [(r & d' & Hs & Hrun) | (msg & Hrun)]
  end; rewrite Hrun in *; cbn [outcome world advance db] in *; [| discriminate].
  unfold ledgerOf. destruct (migrations (db w)) as [rows|] eqn:Hm.
  - injection Hs as _ <-. now rewrite Hm.
  - injection Hs as _ <-. reflexivity.
Qed.

(** X17. A run that completes appends to the ledger exactly the
    pending scripts (the .sql files of the migrations directory that the
    ledger did not list), each once, in ascending order of filename, and
    keeps the entries that were there. *)
Theorem completed_run_records_pending_scripts
    (fs : Fs.FileSystem) (w : World) :
  scriptsSpareLedger ->
  NoDup (scriptsOf fs) ->
  outcome (MigrationService.runMigrations fs w) = Returned tt ->
  let before := match ledgerOf (db w) with Some names => names | None => [] end in
  ledgerOf (db (world (MigrationService.runMigrations fs w)))
  = Some (before ++ pendingIn before (scriptsOf fs))
  /\ Sorted (fun a b => String.leb a b = true) (pendingIn before (scriptsOf fs))
  /\ (forall f, In f (pendingIn before (scriptsOf fs)) ->
                Js.endsWith f ".sql" = true /\ ~ In f before).
Proof.
  intros Hspare Hnd Hdone. cbv zeta.
  set (before := match ledgerOf (db w) with Some names => names | None => [] end).
  repeat apply conj.
  - rewrite runMigrations_eq in *. apply bind_returned in Hdone.
    destruct Hdone as ([] & Hcreate & Hloop & Hw). rewrite Hw. clear Hw.
    apply (forEach_ledger fs (scriptsOf fs) _ before Hspare Hnd); [| exact Hloop].
    now apply createMigrationsTable_ledger.
  - assert (Hsorted : Sorted (fun a b => String.leb a b = true) (scriptsOf fs)).
    { unfold scriptsOf. cbv zeta. destruct (negb (Fs.existsSync fs _));
        [constructor | apply sort_sorted]. }
    apply Sorted_StronglySorted in Hsorted; [| intros a b c; apply string_leb_trans].
    apply StronglySorted_Sorted. unfold pendingIn. clear Hnd Hdone.
    induction Hsorted as [|x l Hl IHl Hx]; cbn [filter]; [constructor|].
    destruct (negb _); [| exact IHl].
    constructor; [exact IHl |].
    rewrite Forall_forall. intros y Hy. apply filter_In in Hy.
    rewrite Forall_forall in Hx. now apply Hx.
  - intros f Hf. unfold pendingIn in Hf. apply filter_In in Hf.
    destruct Hf as [Hin Hnot]. split.
    + unfold scriptsOf in Hin. cbv zeta in Hin.
      destruct (negb (Fs.existsSync fs _)); [contradiction |].
      apply (Permutation_in _ (Permutation_sym (sort_perm _))) in Hin.
      apply filter_In in Hin. now destruct Hin.
    + intros Hyes. apply existsb_In in Hyes. rewrite Hyes in Hnot. discriminate.
Qed.

(** X18. When neither migrations directory exists the runner only
    makes sure the ledger table is there: on a reachable server it
    returns without error after that single statement and leaves users,
    customers and indexes as they were. *)
Theorem run_without_migrations_directory (fs : Fs.FileSystem) (w : World) :
  Fs.dirname_migrations fs = None ->
  Fs.cwd_src_migrations fs = None ->
  reachable w ->
  let run := MigrationService.runMigrations fs w in
  outcome run = Returned tt
  /\ issued run = [ensureLedger]
  /\ (exists names, ledgerOf (db (world run)) = Some names)
  /\ users (db (world run)) = users (db w)
  /\ customers (db (world run)) = customers (db w)
  /\ indexes (db (world run)) = indexes (db w).
Proof.
  intros Hd Hc Hr. cbv zeta. rewrite runMigrations_eq.
  assert (Hnone : scriptsOf fs = []).
  { unfold scriptsOf, Fs.existsSync, Fs.directory. rewrite Hd. cbn. now rewrite Hc. }
  rewrite Hnone. cbn [forEach]. unfold MigrationService.createMigrationsTable.
  destruct (migrations (db w)) as [rows|] eqn:Hm.
  - erewrite bind_run.
    2:{ erewrite bind_run; [reflexivity |]. rewrite executeQuery_eq.
        apply execute_ok; [assumption |]. cbv beta. rewrite Hm. reflexivity. }
    cbn [outcome world issued ret app advance db]. unfold ledgerOf. rewrite Hm.
    repeat split; cbn; eauto.
  - erewrite bind_run.
    2:{ erewrite bind_run; [reflexivity |]. rewrite executeQuery_eq.
        apply execute_ok; [assumption |]. cbv beta. rewrite Hm. reflexivity. }
    cbn [outcome world issued ret app advance db]. unfold ledgerOf. cbn.
    repeat split; eauto.
Qed.

End RunnerLedger.

Lemma failed_script_is_not_recorded_witness :
  let w := world (MigrationService.createMigrationsTable
                    Demo.halfMigrated) in
  outcome (MigrationService.runMigration (platform := Demo.platform)
             Demo.sourceTree "001-create-users-table.sql" w)
  = Thrown (DriverError "statement rejected by the server")
  /\ ledgerOf (db (world (MigrationService.runMigration (platform := Demo.platform)
                            Demo.sourceTree "001-create-users-table.sql" w)))
     = Some [].
Proof.
  cbv zeta. split; [vm_compute; reflexivity |].
  exact (failed_script_is_not_recorded (platform := Demo.platform)
           Demo.sourceTree "001-create-users-table.sql"
           (world (MigrationService.createMigrationsTable
                     Demo.halfMigrated))
           [] (DriverError "statement rejected by the server")
           demo_scripts_spare_ledger
           ltac:(vm_compute; reflexivity)
           ltac:(vm_compute; reflexivity)).
Defined.

Lemma completed_run_records_pending_scripts_witness :
  ledgerOf (db (world (MigrationService.runMigrations (platform := Demo.platform)
                         Demo.sourceTree Demo.fresh)))
  = Some ["001-create-users-table.sql"; "002-create-customers-table.sql"].
Proof.
  destruct (completed_run_records_pending_scripts (platform := Demo.platform)
              Demo.sourceTree Demo.fresh
              demo_scripts_spare_ledger
              ltac:(vm_compute; repeat constructor; cbn; intuition discriminate)
              ltac:(vm_compute; reflexivity)) as (Hledger & _ & _).
  refine (eq_trans Hledger _). vm_compute. reflexivity.
Defined.

Lemma run_without_migrations_directory_witness :
  issued (MigrationService.runMigrations (platform := Demo.platform)
            (Fs.mkFileSystem None None) Demo.seeded) = [ensureLedger]
  /\ users (db (world (MigrationService.runMigrations (platform := Demo.platform)
                         (Fs.mkFileSystem None None) Demo.seeded)))
     = users (db Demo.seeded).
Proof.
  destruct (run_without_migrations_directory (platform := Demo.platform)
              (Fs.mkFileSystem None None) Demo.seeded eq_refl eq_refl
              ltac:(unfold reachable; vm_compute; constructor))
    as (_ & Hi & _ & Hu & _).
  exact (conj Hi Hu).
Defined.

Section SeededAdmin.
Import DatabaseService.
Context {platform : Platform}.

Lemma filter_username_none name (rows : list UserRow) :
  existsb (fun r => String.eqb (u_username r) name) rows = false ->
  filter (fun r => String.eqb (u_username r) name) rows = [].
Proof.
  intros H. apply filter_none. intros r Hin.
  destruct (String.eqb (u_username r) name) eqn:E; [| reflexivity].
  assert (existsb (fun r => String.eqb (u_username r) name) rows = true)
    by (apply existsb_exists; eauto).
  congruence.
Qed.

(** X19. On a reachable server where nobody is called admin, the
    seeder returns normally, and what the default credentials
    admin / Admin@123 then do depends on whether it had to create the
    account: with no administrator before, the login succeeds as the new
    row (next id, role admin); with an administrator of another name
    already there, nothing was inserted and the login is refused with
    Invalid credentials. *)
Theorem default_credentials_after_seeding (w : World) (rows : list UserRow) :
  bcryptSound ->
  reachable w ->
  users (db w) = Some rows ->
  existsb (fun r => String.eqb (u_username r) "admin") rows = false ->
  let seed := MigrationService.seedDefaultAdmin w in
  outcome seed = Returned tt
  /\ outcome (AuthService.login (AuthService.mkLoginDto "admin" "Admin@123") (world seed))
     = (if hasAdmin rows
        then Thrown (UnauthorizedException "Invalid credentials")
        else Returned (AuthService.mkLoginResponse
                         (jwt_sign (mkJwtPayload (users_next_id (db w)) "admin" admin
                                                 None None))
                         (AuthService.mkUser (users_next_id (db w)) "admin" admin))).
Proof.
  intros Hb Hr Hu Hfree. cbv zeta.
  pose proof (seedDefaultAdmin_completes w rows Hr Hu (or_intror Hfree)) as Hdone.
  split; [exact Hdone |].
  assert (Hr2 : forall d, reachable (afterSeedInsert w d)).
  { intros d. unfold reachable, afterSeedInsert. cbn [faults]. unfold reachable in Hr.
    destruct (faults w) as [|b1 [|b2 fs]]; cbn; try constructor.
    inversion Hr as [|? ? _ Hr1]; now inversion Hr1. }
  destruct (seedDefaultAdmin_run w)
    as [(msg & Hrun) | [(rows0 & Hu0 & Hadmin & Hrun)
                       | [(rows0 & msg & Hu0 & Hadmin & Hrun)
                         | (rows0 & Hu0 & Hadmin & _ & Hrun)]]];
    rewrite Hrun in *; cbn [outcome world] in *; try discriminate;
    rewrite Hu in Hu0; injection Hu0 as <-; rewrite Hadmin.
  - assert (Hr1 : reachable (advance w (db w)))
      by (apply reachable_advance; exact Hr).
    rewrite (login_of_validateUser _ _ _ _
               (validateUser_reachable _ _ _ rows Hr1 Hu)).
    cbn [AuthService.dto_username AuthService.dto_password].
    now rewrite filter_username_none.
  - match goal with
    | |- context [afterSeedInsert w ?d] =>
        rewrite (login_of_validateUser _ _ _ _
                   (validateUser_reachable _ _ _ _ (Hr2 d) eq_refl))
    end.
    cbn [AuthService.dto_username AuthService.dto_password].
    rewrite filter_app, filter_username_none by assumption.
    cbn. rewrite Hb. reflexivity.
Qed.

End SeededAdmin.

Lemma default_credentials_after_seeding_witness :
  outcome (AuthService.login (platform := Demo.platform)
             (AuthService.mkLoginDto "admin" "Admin@123")
             (world (MigrationService.seedDefaultAdmin (platform := Demo.platform)
                       Demo.migrated)))
  = Returned (AuthService.mkLoginResponse "jwt.1.admin.admin"
                (AuthService.mkUser 1 "admin" admin)).
Proof.
  destruct (default_credentials_after_seeding (platform := Demo.platform)
              Demo.migrated [] demo_bcrypt_sound
              ltac:(unfold reachable; vm_compute; constructor)
              ltac:(vm_compute; reflexivity)
              eq_refl) as (_ & Hlogin).
  refine (eq_trans Hlogin _). vm_compute. reflexivity.
Defined.

Section ChangeRole.
Import DatabaseService.
Context {platform : Platform}.

Lemma role_patch_keeps_names id role now (rows : list UserRow) :
  map u_username
      (map (fun r => if u_id r =? id
                     then fold_left (UsersTable.assign now)
                            [UsersTable.SetRole role; UsersTable.SetUpdatedAtNow] r
                     else r) rows)
  = map u_username rows.
Proof.
  induction rows as [|r rest IH]; [reflexivity|].
  cbn [map]. rewrite IH. destruct (u_id r =? id); reflexivity.
Qed.

Lemma role_patch_first id role now (rows : list UserRow) row rest :
  filter (fun r => u_id r =? id) rows = row :: rest ->
  exists rest',
    filter (fun r => u_id r =? id)
      (map (fun r => if u_id r =? id
                     then fold_left (UsersTable.assign now)
                            [UsersTable.SetRole role; UsersTable.SetUpdatedAtNow] r
                     else r) rows)
    = mkUserRow (u_id row) (u_username row) (u_password row) role (u_created_at row) now
      :: rest'.
Proof.
  revert row rest. induction rows as [|r rows IH]; intros row rest; [discriminate|].
  cbn [filter map]. destruct (u_id r =? id) eqn:E.
  - intros H. injection H as <- _. cbn [fold_left UsersTable.assign u_id].
    rewrite E. eauto.
  - rewrite E. apply IH.
Qed.

Lemma only_admin (rows : list UserRow) row r :
  adminCount rows = 1%nat -> In row rows -> u_role row = admin ->
  In r rows -> u_role r = admin -> r = row.
Proof.
  unfold adminCount. intros Hone Hrow Hadmin Hr Hradmin.
  assert (H1 : In row (filter (fun r => Role_eqb (u_role r) admin) rows))
    by (apply filter_In; split; [assumption | now rewrite Hadmin]).
  assert (H2 : In r (filter (fun r => Role_eqb (u_role r) admin) rows))
    by (apply filter_In; split; [assumption | now rewrite Hradmin]).
  destruct (filter _ rows) as [|x [|y l]]; try discriminate.
  destruct H1 as [<- | []]. destruct H2 as [<- | []]. reflexivity.
Qed.

(** X20. A patch that carries only a role is applied without any
    look at who is left: the row gets the new role and the time of the
    update, nothing is hashed, and the row comes back without the
    password.  In particular, turning the only administrator into a
    viewer succeeds and leaves the table without an administrator. *)
Theorem change_role_is_unguarded
    (id : Z) (newRole : Role) (w : World) (rows : list UserRow) (row : UserRow)
    (rest : list UserRow) :
  reachable w ->
  users (db w) = Some rows ->
  usersSound (db w) ->
  filter (fun r => u_id r =? id) rows = row :: rest ->
  let dto := UserService.mkUpdateUserDto Js.Undefined Js.Undefined (Some newRole) in
  let run := UserService.update id dto w in
  let stored := mkUserRow (u_id row) (u_username row) (u_password row) newRole
                          (u_created_at row) (clock w + 1) in
  outcome run = Returned (UserService.withoutPassword stored)
  /\ map method (issued run) = [ExecuteQuery; ExecuteUpdate; ExecuteQuery]
  /\ entropy (world run) = entropy w
  /\ (exists rows', users (db (world run)) = Some rows'
                    /\ map u_username rows' = map u_username rows
                    /\ (newRole = viewer -> u_role row = admin ->
                        adminCount rows = 1%nat -> hasAdmin rows' = false)).
Proof.
  intros Hr Hu Hs Hrow. cbv zeta.
  assert (Hin : In row rows /\ u_id row = id).
  { assert (H : In row (filter (fun r => u_id r =? id) rows))
      by (rewrite Hrow; now left).
    apply filter_In in H. destruct H as [H1 H2]. split; [exact H1 |].
    now apply Z.eqb_eq. }
  destruct Hin as [Hin Hid].
  set (rows' := map (fun r => if u_id r =? id
                              then fold_left (UsersTable.assign (clock w + 1))
                                     [UsersTable.SetRole newRole;
                                      UsersTable.SetUpdatedAtNow] r
                              else r) rows).
  set (d' := with_users (db w) (Some rows') (users_next_id (db w))).
  assert (Hdist : distinct (map u_username rows) = true).
  { unfold usersSound in Hs. rewrite Hu in Hs. now destruct Hs. }
  set (dto := UserService.mkUpdateUserDto Js.Undefined Js.Undefined (Some newRole)).
  assert (Hrun : UserService.update id dto w
                 = mkRun (Returned (UserService.withoutPassword
                                      (mkUserRow (u_id row) (u_username row)
                                                 (u_password row) newRole
                                                 (u_created_at row) (clock w + 1))))
                         (advance (advance (advance w (db w)) d') d')
                         (issued (UserService.update id dto w))
                   /\ map method (issued (UserService.update id dto w))
                      = [ExecuteQuery; ExecuteUpdate; ExecuteQuery]).
  { unfold UserService.update, dto.
    rewrite (bind_run _ _ _ _ _ _
               (UserService_findById_found w id row rest Hr
                  ltac:(unfold UsersTable.whereId; rewrite Hu, Hrow; reflexivity))).
    cbn [outcome world issued]. cbv zeta.
    cbn [UserService.update_username UserService.update_password
         UserService.update_role Js.truthy].
    erewrite bind_run; [| reflexivity].
    cbn [outcome world issued].
    erewrite bind_run; [| reflexivity].
    cbn [outcome world issued app List.length Nat.eqb ret].
    destruct (role_patch_first id newRole (clock w + 1) rows row rest Hrow)
      as (rest' & Hfirst).
    erewrite bind_run;
      [| apply executeUpdate_run;
         [exact (reachable_advance w (db w) Hr)
         | cbn [advance db clock]; unfold UsersTable.update; rewrite Hu;
           rewrite role_patch_keeps_names, Hdist; reflexivity]].
    cbn [outcome world issued].
    fold rows'. fold d'.
    rewrite (UserService_findById_found _ id
               (mkUserRow (u_id row) (u_username row) (u_password row) newRole
                          (u_created_at row) (clock w + 1)) rest');
      [| apply reachable_advance; exact (reachable_advance w (db w) Hr)
       | unfold UsersTable.whereId; cbn [advance db d' users with_users];
         unfold rows'; rewrite Hfirst; reflexivity].
    cbn. auto. }
  destruct Hrun as [Hrun Hev]. rewrite Hrun. cbn [outcome world issued].
  repeat apply conj.
  - reflexivity.
  - exact Hev.
  - reflexivity.
  - exists rows'. cbn [advance db d' users with_users]. repeat apply conj.
    + reflexivity.
    + apply role_patch_keeps_names.
    + intros -> Hadmin Hone. unfold hasAdmin, rows'.
      destruct (existsb _ _) eqn:E; [exfalso | reflexivity].
      apply existsb_exists in E. destruct E as (x & Hx & Hrole).
      apply in_map_iff in Hx. destruct Hx as (r & <- & Hr0).
      destruct (u_id r =? id) eqn:Eid; [discriminate Hrole |].
      assert (Hradmin : u_role r = admin) by (destruct (u_role r); [reflexivity | discriminate]).
      pose proof (only_admin rows row r Hone Hin Hadmin Hr0 Hradmin) as ->.
      apply Z.eqb_neq in Eid. contradiction.
Qed.

End ChangeRole.

Lemma change_role_is_unguarded_witness :
  outcome (UserService.update (platform := Demo.platform) 1
             (UserService.mkUpdateUserDto Js.Undefined Js.Undefined (Some viewer))
             Demo.seeded)
  = Returned (UserService.mkUserWithoutPassword 1 "admin" viewer 1012 1014)
  /\ exists rows',
       users (db (world (UserService.update (platform := Demo.platform) 1
                           (UserService.mkUpdateUserDto Js.Undefined Js.Undefined
                              (Some viewer))
                           Demo.seeded))) = Some rows'
       /\ hasAdmin rows' = false.
Proof.
  destruct (change_role_is_unguarded (platform := Demo.platform) 1 viewer Demo.seeded
              [mkUserRow 1 "admin" "$2b$10$7$Admin@123" admin 1012 1012]
              (mkUserRow 1 "admin" "$2b$10$7$Admin@123" admin 1012 1012) []
              ltac:(unfold reachable; vm_compute; constructor)
              ltac:(vm_compute; reflexivity)
              demo_seeded_sound
              eq_refl) as (Ho & _ & _ & rows' & Hu & _ & Hnone).
  split; [refine (eq_trans Ho _); vm_compute; reflexivity |].
  exists rows'. split; [exact Hu | exact (Hnone eq_refl eq_refl eq_refl)].
Defined.

Section Pages.
Import DatabaseService Pagination.

Lemma firstn_then_firstn {T} (a b : nat) (l : list T) :
  firstn a l ++ firstn b (skipn a l) = firstn (a + b) l.
Proof.
  revert l. induction a as [|a IH]; intros l; [reflexivity|].
  destruct l as [|x l]; cbn; [now rewrite firstn_nil | now rewrite IH].
Qed.

Lemma pages_concat {T} (size n : nat) (l : list T) :
  concat (map (fun p => firstn size (skipn ((p - 1) * size) l)) (seq 1 n))
  = firstn (n * size) l.
Proof.
  induction n as [|n IH]; [reflexivity|].
  rewrite seq_S, map_app, concat_app, IH. cbn [map concat]. rewrite app_nil_r.
  replace (1 + n - 1)%nat with n by lia.
  rewrite firstn_then_firstn. f_equal. lia.
Qed.

Lemma orderByDesc_cons {T} (key : T -> Z) x rows :
  exists before after,
    orderByDesc key rows = before ++ after
    /\ orderByDesc key (x :: rows) = before ++ x :: after
    /\ Forall (fun y => key x <= key y) before
    /\ match after with [] => True | y :: _ => key y < key x end.
Proof.
  unfold orderByDesc. cbn [fold_right].
  generalize (fold_right
                (fix insert (x0 : T) (l : list T) {struct l} : list T :=
                   match l with
                   | [] => [x0]
                   | y :: rest => if key y <? key x0 then x0 :: l else y :: insert x0 rest
                   end) [] rows) as l.
  induction l as [|y l IH].
  - exists [], []. cbn. auto.
  - destruct (key y <? key x) eqn:E.
    + exists [], (y :: l). cbn -[Z.ltb]. repeat split; auto. now apply Z.ltb_lt.
    + destruct IH as (before & after & H1 & H2 & H3 & H4).
      exists (y :: before), after. cbn -[Z.ltb]. rewrite H2. repeat split; auto.
      * now rewrite H1 at 1.
      * constructor; [apply Z.ltb_ge in E; lia | exact H3].
Qed.

Lemma orderByDesc_perm {T} (key : T -> Z) rows :
  Permutation (orderByDesc key rows) rows.
Proof.
  induction rows as [|x rows IH]; [reflexivity|].
  destruct (orderByDesc_cons key x rows) as (before & after & H1 & H2 & _).
  rewrite H2. rewrite <- Permutation_middle. constructor.
  now rewrite <- H1.
Qed.

Lemma orderByDesc_sorted {T} (key : T -> Z) rows :
  StronglySorted (fun a b => key b <= key a) (orderByDesc key rows).
Proof.
  induction rows as [|x rows IH]; [constructor|].
  destruct (orderByDesc_cons key x rows) as (before & after & H1 & H2 & H3 & H4).
  rewrite H2. rewrite H1 in IH. clear H1 H2.
  induction before as [|y before IHb]; cbn in *.
  - constructor; [exact IH |].
    destruct after as [|z after]; [constructor|].
    inversion IH as [|? ? _ Hz]; subst.
    constructor; [lia |]. eapply Forall_impl; [| exact Hz]. cbn. intros; lia.
  - inversion IH as [|? ? Hrest Hy]; subst. inversion H3; subst.
    constructor; [now apply IHb |].
    apply Forall_app in Hy. destruct Hy as [Hy1 Hy2].
    apply Forall_app. split; [exact Hy1 |]. constructor; assumption.
Qed.

Lemma strictly_sorted {T} (key : T -> Z) (l : list T) :
  NoDup (map key l) -> StronglySorted (fun a b => key b <= key a) l ->
  StronglySorted (fun a b => key b < key a) l.
Proof.
  induction l as [|x l IH]; intros Hnd Hs; [constructor|].
  inversion Hnd as [|? ? Hnot Hnd']; subst. inversion Hs as [|? ? Hs' Hx]; subst.
  constructor; [now apply IH |].
  rewrite Forall_forall in *. intros y Hy. pose proof (Hx y Hy).
  assert (key y <> key x) by (intros Heq; apply Hnot; rewrite <- Heq; now apply in_map).
  lia.
Qed.

Lemma limitOffset_page {T} (limit : Z) (page : nat) (rows : list T) :
  1 <= limit -> (1 <= page)%nat ->
  limitOffset limit ((Z.of_nat page - 1) * limit) rows
  = Some (firstn (Z.to_nat limit) (skipn ((page - 1) * Z.to_nat limit) rows)).
Proof.
  intros Hl Hp. unfold limitOffset.
  destruct (limit <? 0) eqn:E1; [lia|].
  destruct ((Z.of_nat page - 1) * limit <? 0) eqn:E2; [nia|]. cbn [orb].
  do 3 f_equal. rewrite Z2Nat.inj_mul by lia. f_equal. lia.
Qed.

Lemma pages_hold_all (total : nat) (limit : Z) :
  1 <= limit -> (total <= pagesOf total limit * Z.to_nat limit)%nat.
Proof.
  intros Hl. unfold pagesOf.
  pose proof (ceilDiv_bounds (Z.of_nat total) limit ltac:(lia)) as Hb.
  assert (0 <= Js.ceilDiv (Z.of_nat total) limit) by nia.
  nia.
Qed.

Lemma past_the_last_page (total : nat) (limit : Z) (page : nat) :
  1 <= limit -> (pagesOf total limit < page)%nat ->
  (total <= (page - 1) * Z.to_nat limit)%nat.
Proof.
  intros Hl Hp. pose proof (pages_hold_all total limit Hl). nia.
Qed.

Lemma usersPage_run w rows limit page :
  reachable w -> users (db w) = Some rows -> 1 <= limit -> (1 <= page)%nat ->
  outcome (UserService.findAll (Some (mkQuery (Some (Z.of_nat page)) (Some limit))) w)
  = Returned (mkPaginated
                (map UserService.withoutPassword
                   (firstn (Z.to_nat limit)
                      (skipn ((page - 1) * Z.to_nat limit)
                         (orderByDesc u_created_at rows))))
                (meta (Z.of_nat (List.length rows)) (Z.of_nat page) limit)).
Proof.
  intros Hr Hu Hl Hp. unfold UserService.findAll.
  cbn [pageOf limitOf q_page q_limit]. cbv zeta.
  erewrite bind_run;
    [| apply executeQuery_run;
       [assumption | unfold UsersTable.count; rewrite Hu; reflexivity]].
  cbn [outcome world issued].
  erewrite bind_run;
    [| apply executeQuery_run;
       [now apply reachable_advance
       | cbn [advance db]; unfold UsersTable.page; rewrite Hu;
         rewrite limitOffset_page by assumption; reflexivity]].
  reflexivity.
Qed.

Lemma customersPage_run w rows limit page :
  reachable w -> customers (db w) = Some rows -> customersWide (db w) ->
  1 <= limit -> (1 <= page)%nat ->
  outcome (CustomerService.findAll (Some (mkQuery (Some (Z.of_nat page)) (Some limit))) w)
  = Returned (mkPaginated
                (firstn (Z.to_nat limit)
                   (skipn ((page - 1) * Z.to_nat limit)
                      (orderByDesc c_created_at rows)))
                (meta (Z.of_nat (List.length rows)) (Z.of_nat page) limit)).
Proof.
  intros Hr Hu Hwide Hl Hp. unfold CustomerService.findAll.
  cbn [pageOf limitOf q_page q_limit]. cbv zeta.
  erewrite bind_run;
    [| apply executeQuery_run;
       [assumption | unfold CustomersTable.count; rewrite Hu; reflexivity]].
  cbn [outcome world issued].
  erewrite bind_run;
    [| apply executeQuery_run;
       [now apply reachable_advance
       | cbn [advance db]; rewrite (page_wide _ rows _ _ Hu Hwide);
         rewrite limitOffset_page by assumption; reflexivity]].
  reflexivity.
Qed.

(** X21. Walking the user list page by page: with creation times
    that differ from row to row (so that ORDER BY created_at DESC fixes
    the order), every page from 1 on is returned without error, the
    pages 1 .. totalPages put end to end are the whole table, newest
    first, each row once and without its password, and any page after
    the last is empty. *)
Theorem user_pages_cover_the_table (w : World) (rows : list UserRow) (limit : Z) :
  reachable w ->
  users (db w) = Some rows ->
  NoDup (map u_created_at rows) ->
  1 <= limit ->
  (forall page, (1 <= page)%nat ->
     exists m,
       outcome (UserService.findAll
                  (Some (mkQuery (Some (Z.of_nat page)) (Some limit))) w)
       = Returned (mkPaginated (usersPage w limit page) m))
  /\ (exists sorted,
        Permutation sorted rows
        /\ StronglySorted (fun a b => u_created_at b < u_created_at a) sorted
        /\ concat (map (usersPage w limit) (seq 1 (pagesOf (List.length rows) limit)))
           = map UserService.withoutPassword sorted)
  /\ (forall page, (pagesOf (List.length rows) limit < page)%nat ->
        usersPage w limit page = []).
Proof.
  intros Hr Hu Hnd Hl.
  assert (Hpage : forall page, (1 <= page)%nat ->
            usersPage w limit page
            = map UserService.withoutPassword
                (firstn (Z.to_nat limit)
                   (skipn ((page - 1) * Z.to_nat limit)
                      (orderByDesc u_created_at rows)))).
  { intros page Hp. unfold usersPage.
    now rewrite (usersPage_run w rows limit page Hr Hu Hl Hp). }
  pose proof (orderByDesc_perm u_created_at rows) as Hperm.
  repeat apply conj.
  - intros page Hp. rewrite (usersPage_run w rows limit page Hr Hu Hl Hp).
    rewrite (Hpage page Hp). eauto.
  - exists (orderByDesc u_created_at rows). repeat apply conj.
    + exact Hperm.
    + apply strictly_sorted; [| apply orderByDesc_sorted].
      eapply Permutation_NoDup; [| exact Hnd].
      apply Permutation_map. now symmetry.
    + rewrite (map_ext_in _ (fun page =>
                 map UserService.withoutPassword
                   (firstn (Z.to_nat limit)
                      (skipn ((page - 1) * Z.to_nat limit)
                         (orderByDesc u_created_at rows))))).
      2:{ intros page Hin. apply in_seq in Hin. apply Hpage. lia. }
      rewrite <- (map_map (fun page => firstn (Z.to_nat limit)
                             (skipn ((page - 1) * Z.to_nat limit)
                                (orderByDesc u_created_at rows)))
                          (map UserService.withoutPassword)).
      rewrite <- concat_map, pages_concat. f_equal.
      apply firstn_all2. rewrite (Permutation_length Hperm).
      now apply pages_hold_all.
  - intros page Hp. rewrite Hpage by lia.
    rewrite skipn_all2; [now rewrite firstn_nil |].
    rewrite (Permutation_length Hperm). now apply past_the_last_page.
Qed.

(** X22. The same walk over the customer list, on a customers table
    that has the eight columns the SELECT names (company and address
    among them): every page from 1 on is returned without error, the
    pages 1 .. totalPages put end to end are the whole table, newest
    first and each row once, and any page after the last is empty. *)
Theorem customer_pages_cover_the_table
    (w : World) (rows : list CustomerRow) (limit : Z) :
  reachable w ->
  customers (db w) = Some rows ->
  customersWide (db w) ->
  NoDup (map c_created_at rows) ->
  1 <= limit ->
  (forall page, (1 <= page)%nat ->
     exists m,
       outcome (CustomerService.findAll
                  (Some (mkQuery (Some (Z.of_nat page)) (Some limit))) w)
       = Returned (mkPaginated (customersPage w limit page) m))
  /\ (exists sorted,
        Permutation sorted rows
        /\ StronglySorted (fun a b => c_created_at b < c_created_at a) sorted
        /\ concat (map (customersPage w limit)
                       (seq 1 (pagesOf (List.length rows) limit)))
           = sorted)
  /\ (forall page, (pagesOf (List.length rows) limit < page)%nat ->
        customersPage w limit page = []).
Proof.
  intros Hr Hu Hwide Hnd Hl.
  assert (Hpage : forall page, (1 <= page)%nat ->
            customersPage w limit page
            = firstn (Z.to_nat limit)
                (skipn ((page - 1) * Z.to_nat limit)
                   (orderByDesc c_created_at rows))).
  { intros page Hp. unfold customersPage.
    now rewrite (customersPage_run w rows limit page Hr Hu Hwide Hl Hp). }
  pose proof (orderByDesc_perm c_created_at rows) as Hperm.
  repeat apply conj.
  - intros page Hp. rewrite (customersPage_run w rows limit page Hr Hu Hwide Hl Hp).
    rewrite (Hpage page Hp). eauto.
  - exists (orderByDesc c_created_at rows). repeat apply conj.
    + exact Hperm.
    + apply strictly_sorted; [| apply orderByDesc_sorted].
      eapply Permutation_NoDup; [| exact Hnd].
      apply Permutation_map. now symmetry.
    + rewrite (map_ext_in _ (fun page =>
                 firstn (Z.to_nat limit)
                   (skipn ((page - 1) * Z.to_nat limit)
                      (orderByDesc c_created_at rows)))).
      2:{ intros page Hin. apply in_seq in Hin. apply Hpage. lia. }
      rewrite pages_concat.
      apply firstn_all2. pose proof (Permutation_length Hperm) as Hlen.
      unfold CustomerService.Customer in *. rewrite ?Hlen.
      now apply pages_hold_all.
  - intros page Hp. rewrite Hpage by lia.
    rewrite skipn_all2; [now rewrite firstn_nil |].
    pose proof (Permutation_length Hperm) as Hlen.
    unfold CustomerService.Customer in *. rewrite ?Hlen. now apply past_the_last_page.
Qed.

End Pages.

Lemma user_pages_cover_the_table_witness :
  (exists m,
     outcome (UserService.findAll
                (Some (Pagination.mkQuery (Some 2) (Some 1))) withBob)
     = Returned (Pagination.mkPaginated
                   [UserService.mkUserWithoutPassword 1 "admin" admin 1012 1012] m))
  /\ usersPage withBob 1 3 = [].
Proof.
  destruct (user_pages_cover_the_table withBob
              [mkUserRow 1 "admin" "$2b$10$7$Admin@123" admin 1012 1012;
               mkUserRow 2 "bob" "$2b$10$8$secret1" viewer 1014 1014] 1
              withBob_reachable
              withBob_users
              ltac:(cbn; repeat constructor; cbn; intuition lia)
              ltac:(lia)) as (Hreturned & _ & Hpast).
  split.
  - destruct (Hreturned 2%nat ltac:(lia)) as (m & Hm). exists m.
    refine (eq_trans Hm _). vm_compute. reflexivity.
  - apply Hpast. vm_compute. lia.
Defined.

Lemma customer_pages_cover_the_table_witness :
  (exists m,
     outcome (CustomerService.findAll
                (Some (Pagination.mkQuery (Some 1) (Some 10))) Demo.stocked)
     = Returned (Pagination.mkPaginated
                   [mkCustomerRow 1 "John Doe" "john@x.com" (Some "555-0100") None None
                                  1013 1013] m))
  /\ customersPage Demo.stocked 10 2 = [].
Proof.
  destruct (customer_pages_cover_the_table Demo.stocked
              [mkCustomerRow 1 "John Doe" "john@x.com" (Some "555-0100") None None
                             1013 1013] 10
              stocked_reachable
              stocked_customers
              stocked_wide
              ltac:(cbn; repeat constructor; cbn; intuition lia)
              ltac:(lia)) as (Hreturned & _ & Hpast).
  split.
  - destruct (Hreturned 1%nat ltac:(lia)) as (m & Hm). exists m.
    refine (eq_trans Hm _). vm_compute. reflexivity.
  - apply Hpast. vm_compute. lia.
Defined.

Section Startup.
Import DatabaseService.
Context {platform : Platform}.

Lemma createPool_cases w :
  createPool w
  = if hd false (faults w)
    then mkRun (Thrown (DriverError "connect ECONNREFUSED")) (advance w (db w))
               [mkEvent Ping EmptyString [] false]
    else mkRun (Returned tt) (advance w (db w)) [mkEvent Ping EmptyString [] true].
Proof.
  unfold createPool, try_catch, ping, execute, throw.
  destruct (faults w) as [|[|] rest]; reflexivity.
Qed.

(** X23. When the ping with which [createPool] tests the new pool
    fails, [bootstrap] rejects and the process exits with code 1 after
    that single failed call: no migration is attempted, the seeder does
    not run and the database is untouched (a failure during the
    migrations, by contrast, is caught). *)
Theorem failed_pool_exits_before_migrations
    (env : ConfigService) (fs : Fs.FileSystem) (w : World) :
  hd false (faults w) = true ->
  Main.main env fs w = Main.Exited 1
  /\ outcome (Main.bootstrap env fs w) = Thrown (DriverError "connect ECONNREFUSED")
  /\ issued (Main.bootstrap env fs w) = [mkEvent Ping EmptyString [] false]
  /\ db (world (Main.bootstrap env fs w)) = db w.
Proof.
  intros Hhd. pose proof (createPool_cases w) as Hpool. rewrite Hhd in Hpool.
  split.
  - apply (main_exits env fs w (DriverError "connect ECONNREFUSED")).
    now rewrite Hpool.
  - unfold Main.bootstrap, bind. rewrite Hpool. cbn. auto.
Qed.

End Startup.

Section Readiness.
Import DatabaseService.

Lemma none_missing (config : ConfigService) (keys : list string) :
  existsb (configMissing config) keys = false
  <-> forall key, In key keys -> exists v, config key = Some v /\ v <> EmptyString.
Proof.
  induction keys as [|k keys IH]; cbn [existsb].
  - split; [intros _ key [] | reflexivity].
  - rewrite orb_false_iff, IH. unfold configMissing at 1. split.
    + intros [Hk Hrest] key [<- | Hin]; [| now apply Hrest].
      destruct (config k) as [v|]; [| discriminate].
      exists v. split; [reflexivity |]. intros ->. discriminate.
    + intros H. split; [| intros key Hin; apply H; now right].
      destruct (H k (or_introl eq_refl)) as (v & -> & Hv).
      destruct (String.eqb_spec v EmptyString); [contradiction | reflexivity].
Qed.

Lemma ready_iff (d c : string) :
  (if String.eqb d "ok" && String.eqb c "ok" then "ready" else "not_ready") = "ready"
  <-> d = "ok" /\ c = "ok".
Proof.
  destruct (String.eqb_spec d "ok"), (String.eqb_spec c "ok"); cbn [andb];
    split; try tauto; try discriminate.
Qed.

(** X24. The readiness report of the revision that asks the database
    never throws and sends one ping: database is ok exactly when
    [checkConnection] answers true, configuration is ok exactly when
    NODE_ENV, JWT_SECRET, MYSQL_HOST, MYSQL_USERNAME, MYSQL_PASSWORD and
    MYSQL_NAME are all set to a non-empty value, and the status is ready
    exactly when both are ok. *)
Theorem readiness_report_with_database (config : ConfigService) (w : World) :
  let run := HealthServiceWithDatabase.getReadinessStatus config w in
  exists r,
    outcome run = Returned r
    /\ map method (issued run) = [Ping]
    /\ db (world run) = db w
    /\ (database (checks r) = "ok"
        <-> outcome (checkConnection w) = Returned true)
    /\ (configuration (checks r) = "ok"
        <-> forall key,
              In key ["NODE_ENV"; "JWT_SECRET"; "MYSQL_HOST"; "MYSQL_USERNAME";
                      "MYSQL_PASSWORD"; "MYSQL_NAME"] ->
              exists v, config key = Some v /\ v <> EmptyString)
    /\ (status r = "ready"
        <-> database (checks r) = "ok" /\ configuration (checks r) = "ok").
Proof.
  cbv zeta.
  assert (Hconfig : HealthServiceWithDatabase.checkConfiguration config = "ok"
                    <-> forall key,
                          In key ["NODE_ENV"; "JWT_SECRET"; "MYSQL_HOST";
                                  "MYSQL_USERNAME"; "MYSQL_PASSWORD"; "MYSQL_NAME"] ->
                          exists v, config key = Some v /\ v <> EmptyString).
  { rewrite <- none_missing. unfold HealthServiceWithDatabase.checkConfiguration.
    cbv zeta. destruct (existsb _ _); split; (reflexivity || discriminate). }
  unfold HealthServiceWithDatabase.getReadinessStatus,
    HealthServiceWithDatabase.checkDatabase, checkConnection, ping, try_catch, bind,
    execute, ret.
  destruct (faults w) as [|[|] rest]; cbn [outcome world issued app advance db];
    eexists; (split; [reflexivity |]);
    cbn [checks database configuration status map method];
    (split; [reflexivity |]); (split; [reflexivity |]);
    (split; [split; (reflexivity || discriminate) |]);
    (split; [exact Hconfig | apply ready_iff]).
Qed.

End Readiness.

Lemma failed_pool_exits_before_migrations_witness :
  Main.main (platform := Demo.platform) Demo.env Demo.sourceTree Demo.outage
  = Main.Exited 1
  /\ issued (Main.bootstrap (platform := Demo.platform) Demo.env Demo.sourceTree
               Demo.outage)
     = [mkEvent Ping EmptyString [] false].
Proof.
  destruct (failed_pool_exits_before_migrations (platform := Demo.platform)
              Demo.env Demo.sourceTree Demo.outage eq_refl) as (Hexit & _ & Hev & _).
  exact (conj Hexit Hev).
Defined.

Lemma readiness_report_with_database_witness :
  exists r,
    outcome (HealthServiceWithDatabase.getReadinessStatus Demo.env Demo.outage)
    = Returned r
    /\ status r <> "ready".
Proof.
  destruct (readiness_report_with_database Demo.env Demo.outage)
    as (r & Hr & _ & _ & Hdb & _ & Hready).
  exists r. split; [exact Hr |].
  intros H. apply Hready in H. destruct H as [H _]. apply Hdb in H.
  vm_compute in H. discriminate H.
Defined.

Section Statements.

Lemma split_without_separator sep s piece :
  In piece (Js.split sep s) -> ~ In sep (list_ascii_of_string piece).
Proof.
  revert piece. induction s as [|c rest IH]; intros piece; cbn [Js.split].
  - intros [<- | []]. intros [].
  - destruct (Ascii.eqb_spec c sep) as [-> | Hne].
    + intros [<- | Hin]; [intros [] | now apply IH].
    + destruct (Js.split sep rest) as [|p ps].
      * intros [<- | []]. cbn. intros [H | []]. congruence.
      * intros [<- | Hin].
        -- cbn. intros [H | H]; [congruence |]. revert H. apply IH. now left.
        -- apply IH. now right.
Qed.

Lemma trimStart_chars s c :
  In c (list_ascii_of_string (Js.trimStart s)) -> In c (list_ascii_of_string s).
Proof.
  induction s as [|a rest IH]; cbn [Js.trimStart]; [auto|].
  destruct (Js.isSpace a); [| auto]. intros H. right. now apply IH.
Qed.

Lemma trimEnd_chars s c :
  In c (list_ascii_of_string (Js.trimEnd s)) -> In c (list_ascii_of_string s).
Proof.
  induction s as [|a rest IH]; cbn [Js.trimEnd]; [auto|].
  destruct (Js.trimEnd rest) as [|k kept].
  - destruct (Js.isSpace a); cbn; [intros [] | intros [H | []]; now left].
  - cbn [list_ascii_of_string]. intros [H | H]; [now left | right; now apply IH].
Qed.

Lemma trimEnd_idempotent s : Js.trimEnd (Js.trimEnd s) = Js.trimEnd s.
Proof.
  induction s as [|a rest IH]; [reflexivity|]. cbn [Js.trimEnd].
  destruct (Js.trimEnd rest) as [|k kept] eqn:E.
  - destruct (Js.isSpace a) eqn:Ea; [reflexivity|]. cbn [Js.trimEnd]. now rewrite Ea.
  - change (Js.trimEnd (String a (String k kept)))
      with (match Js.trimEnd (String k kept) with
            | EmptyString => if Js.isSpace a then EmptyString else String a EmptyString
            | kept' => String a kept'
            end).
    now rewrite IH.
Qed.

Lemma trimStart_head s :
  match Js.trimStart s with
  | EmptyString => True
  | String c _ => Js.isSpace c = false
  end.
Proof.
  induction s as [|a rest IH]; cbn [Js.trimStart]; [exact I|].
  destruct (Js.isSpace a) eqn:E; [exact IH | exact E].
Qed.

Lemma trimEnd_head s :
  match s with EmptyString => True | String c _ => Js.isSpace c = false end ->
  Js.trimStart (Js.trimEnd s) = Js.trimEnd s.
Proof.
  destruct s as [|a rest]; [reflexivity|]. intros Ha. cbn [Js.trimEnd].
  destruct (Js.trimEnd rest); rewrite ?Ha; cbn [Js.trimStart]; now rewrite Ha.
Qed.

Lemma trim_idempotent s : Js.trim (Js.trim s) = Js.trim s.
Proof.
  unfold Js.trim. rewrite (trimEnd_head _ (trimStart_head s)).
  apply trimEnd_idempotent.
Qed.

(** X25. The statements cut out of a migration script are never
    empty, carry no white space at either end and contain no semicolon:
    the script is cut at every semicolon, also at one inside a string
    literal or a comment. *)
Theorem statements_are_trimmed_pieces (migrationSql stmt : string) :
  In stmt (MigrationService.statementsOf migrationSql) ->
  stmt <> EmptyString
  /\ Js.trim stmt = stmt
  /\ ~ In ";"%char (list_ascii_of_string stmt).
Proof.
  unfold MigrationService.statementsOf. intros H.
  apply filter_In in H. destruct H as [Hin Hlen].
  apply in_map_iff in Hin. destruct Hin as (piece & <- & Hpiece).
  repeat apply conj.
  - intros Heq. rewrite Heq in Hlen. discriminate.
  - apply trim_idempotent.
  - intros Hsemi. apply (split_without_separator _ _ _ Hpiece).
    unfold Js.trim in Hsemi. now apply trimStart_chars, trimEnd_chars.
Qed.

End Statements.

Lemma statements_are_trimmed_pieces_witness :
  MigrationService.statementsOf "INSERT INTO t VALUES ('a;b'); "
  = ["INSERT INTO t VALUES ('a"; "b')"]
  /\ Js.trim "b')" = "b')".
Proof.
  split; [vm_compute; reflexivity |].
  exact (proj1 (proj2 (statements_are_trimmed_pieces
                         "INSERT INTO t VALUES ('a;b'); " "b')"
                         ltac:(vm_compute; auto)))).
Defined.

Section SeedingRefused.
Import DatabaseService.
Context {platform : Platform}.

(** X26. The seeder looks for an administrator by role but inserts
    under the fixed name admin: on a reachable server with no
    administrator and the name admin already taken, the INSERT is
    refused, the seeder rethrows the driver's error after the check and
    the failed insert, and the table is left without an administrator. *)
Theorem seeding_fails_when_name_is_taken (w : World) (rows : list UserRow) :
  reachable w ->
  users (db w) = Some rows ->
  hasAdmin rows = false ->
  existsb (fun r => String.eqb (u_username r) "admin") rows = true ->
  let seed := MigrationService.seedDefaultAdmin w in
  (exists message, outcome seed = Thrown (DriverError message))
  /\ issued seed
     = [seedCheck true; seedInsert (bcrypt_hash "Admin@123" 10 (entropy w)) false]
  /\ db (world seed) = db w.
Proof.
  intros Hr Hu Hnone Htaken. cbv zeta.
  destruct (seedDefaultAdmin_run w)
    as [(msg & Hrun) | [(rows0 & Hu0 & Hadmin & Hrun)
                       | [(rows0 & msg & Hu0 & Hadmin & Hrun)
                         | (rows0 & Hu0 & Hadmin & Hfree & Hrun)]]].
  - exfalso. revert Hrun. unfold MigrationService.seedDefaultAdmin.
    rewrite rethrow_id. unfold bind. rewrite executeQuery_eq.
    erewrite execute_ok;
      [| assumption
       | unfold reading, UsersTable.selectByRole; rewrite Hu; reflexivity].
    cbn [outcome world issued].
    destruct (0 <? _)%nat; cbn; [discriminate|].
    intros H. apply (f_equal issued) in H. cbn in H. discriminate.
  - rewrite Hu in Hu0. injection Hu0 as <-. congruence.
  - rewrite Hrun. cbn [outcome world issued afterSeedInsert db]. eauto.
  - rewrite Hu in Hu0. injection Hu0 as <-. congruence.
Qed.

End SeedingRefused.

Lemma seeding_fails_when_name_is_taken_witness :
  let demoted :=
    world (UserService.update (platform := Demo.platform) 1
             (UserService.mkUpdateUserDto Js.Undefined Js.Undefined (Some viewer))
             Demo.seeded) in
  outcome (MigrationService.seedDefaultAdmin (platform := Demo.platform) demoted)
  = Thrown (DriverError "statement rejected by the server")
  /\ db (world (MigrationService.seedDefaultAdmin (platform := Demo.platform) demoted))
     = db demoted.
Proof.
  cbv zeta. split; [vm_compute; reflexivity |].
  exact (proj2 (proj2 (seeding_fails_when_name_is_taken (platform := Demo.platform)
           (world (UserService.update (platform := Demo.platform) 1
                     (UserService.mkUpdateUserDto Js.Undefined Js.Undefined
                        (Some viewer))
                     Demo.seeded))
           [mkUserRow 1 "admin" "$2b$10$7$Admin@123" viewer 1012 1014]
           ltac:(unfold reachable; vm_compute; constructor)
           ltac:(vm_compute; reflexivity)
           eq_refl eq_refl))).
Defined.

Section EmptyPatchRead.
Import DatabaseService.
Context {platform : Platform}.

(** X27. Where the row of the id can be read (a reachable server;
    for customers a table that has the eight columns the SELECT names),
    an update whose patch has no defined field is a read: it sends the
    two SELECTs of the existence check and of the final [findById], no
    UPDATE, returns the stored record and leaves the database, every
    [updated_at] included, as it was. *)
Theorem update_without_fields_is_a_read (w : World) (id : Z) :
  reachable w ->
  (forall rows user us,
      users (db w) = Some rows ->
      filter (fun r => u_id r =? id) rows = user :: us ->
      let r := UserService.update id
                 (UserService.mkUpdateUserDto Js.Undefined Js.Undefined None) w in
      outcome r = Returned (UserService.withoutPassword user)
      /\ db (world r) = db w
      /\ map method (issued r) = [ExecuteQuery; ExecuteQuery])
  /\ (forall rows customer cs,
      customers (db w) = Some rows ->
      customersWide (db w) ->
      filter (fun r => c_id r =? id) rows = customer :: cs ->
      let r := CustomerService.update id
                 (CustomerService.mkUpdateCustomerDto
                    Js.Undefined Js.Undefined Js.Undefined Js.Undefined Js.Undefined) w in
      outcome r = Returned customer
      /\ db (world r) = db w
      /\ map method (issued r) = [ExecuteQuery; ExecuteQuery]).
Proof.
  intros Hr. split.
  - intros rows user us Hu Hrow.
    apply (UserService_update_nothing w id user us Hr).
    unfold UsersTable.whereId. now rewrite Hu, Hrow.
  - intros rows customer cs Hc Hwide Hrow.
    apply (CustomerService_update_nothing w id customer cs Hr).
    now rewrite (whereId_wide _ rows id Hc Hwide), Hrow.
Qed.

End EmptyPatchRead.

Lemma update_without_fields_is_a_read_witness :
  outcome (UserService.update (platform := Demo.platform) 1
             (UserService.mkUpdateUserDto Js.Undefined Js.Undefined None)
             Demo.stocked)
  = Returned (UserService.mkUserWithoutPassword 1 "admin" admin 1012 1012)
  /\ outcome (CustomerService.update 1
                (CustomerService.mkUpdateCustomerDto
                   Js.Undefined Js.Undefined Js.Undefined Js.Undefined Js.Undefined)
                Demo.stocked)
     = Returned (mkCustomerRow 1 "John Doe" "john@x.com" (Some "555-0100") None None
                               1013 1013).
Proof.
  destruct (update_without_fields_is_a_read (platform := Demo.platform)
              Demo.stocked 1 stocked_reachable) as [Hu Hc].
  destruct (Hu _ (mkUserRow 1 "admin" "$2b$10$7$Admin@123" admin 1012 1012) []
              ltac:(vm_compute; reflexivity) eq_refl) as (Ho & _).
  destruct (Hc _ _ [] stocked_customers stocked_wide eq_refl) as (Hoc & _).
  exact (conj Ho Hoc).
Defined.
